(** * VitCgpaAnalysis: the grade-history parser and CSV codec of [app.py]

    A shallow embedding of the text-processing core of [app.py]
    ([normalize_raw_text], [clean_line], [parse_course_line],
    [parse_grade_history], [parse_csv], [download_csv]) together with the
    pieces of the Python runtime these functions call ([str.split],
    [str.strip], [str.splitlines], [int], [float], the [re] patterns, the
    [csv] reader and writer of the default "excel" dialect).

    Text.  A Python [str] is modelled as a list of characters, a character
    being a code point below 256 (the Latin-1 block of Unicode, of which
    ASCII is the lower half).  The character classes are those of CPython's
    Unicode database restricted to that block.

    Exceptions.  A Python call that may raise returns a [result]; a
    [try ... except] is a [match] on it.

    Runtime.  The library functions are those of CPython 3.11 with its
    default settings. *)

From Stdlib Require Import List Ascii ZArith NArith Lia Bool Arith.
From Stdlib Require Import Permutation.
From Stdlib Require String Decimal DecimalString DecimalFacts DecimalPos
  DecimalZ.
From Stdlib Require Import Floats.SpecFloat.
Import ListNotations.

(** ** Python strings *)

Definition str := list ascii.

Inductive str_literal : Set :=
| lit_nil
| lit_cons (a : ascii) (l : str_literal).

Fixpoint literal_of_bytes (l : list Byte.byte) : str_literal :=
  match l with
  | [] => lit_nil
  | b :: r => lit_cons (ascii_of_byte b) (literal_of_bytes r)
  end.

Fixpoint bytes_of_literal (l : str_literal) : list Byte.byte :=
  match l with
  | lit_nil => []
  | lit_cons a r => byte_of_ascii a :: bytes_of_literal r
  end.

Declare Scope str_scope.
Delimit Scope str_scope with str.
#[warnings="-via-type-remapping,-via-type-mismatch"]
String Notation str literal_of_bytes bytes_of_literal
  (via str_literal mapping [[nil] => lit_nil, [cons] => lit_cons]) : str_scope.
Open Scope str_scope.
Open Scope Z_scope.

(** ** Exceptions *)

Inductive exn : Set :=
| ValueError
| IndexError
| AttributeError
| CsvError.

Inductive result (A : Type) : Type :=
| Ok (a : A)
| Raise (e : exn).

Arguments Ok {A} a.
Arguments Raise {A} e.

Definition bind {A B} (m : result A) (k : A -> result B) : result B :=
  match m with
  | Ok a => k a
  | Raise e => Raise e
  end.

Notation "x <- m ;; k" := (bind m (fun x => k))
  (at level 61, m at next level, right associativity).

Module Py.

(** *** Character classes (code points 0..255) *)

Definition code (c : ascii) : N := N_of_ascii c.

Definition between (lo hi : N) (c : ascii) : bool :=
  ((lo <=? code c) && (code c <=? hi))%N.

(** [Py_UNICODE_ISSPACE]: what [str.split], [str.strip] and the pattern
    [\s] treat as whitespace. *)
Definition is_space (c : ascii) : bool :=
  between 9 13 c || between 28 32 c
  || (code c =? 133)%N || (code c =? 160)%N.

(** [Py_UNICODE_ISLINEBREAK]: where [str.splitlines] cuts. *)
Definition is_linebreak (c : ascii) : bool :=
  between 10 13 c || between 28 30 c || (code c =? 133)%N.

(** [Py_UNICODE_ISDECIMAL], the pattern [\d]: below 256 only 0-9. *)
Definition is_digit (c : ascii) : bool := between 48 57 c.

(** The pattern classes [[A-Z]], [[a-z]] and [[A-Za-z]]. *)
Definition is_upper (c : ascii) : bool := between 65 90 c.
Definition is_lower (c : ascii) : bool := between 97 122 c.
Definition is_letter (c : ascii) : bool := is_upper c || is_lower c.

(** [Py_UNICODE_ISALNUM]: letters, decimals, digits and numerics of
    Latin-1 (the feminine and masculine ordinals, the micro sign, the
    superscripts 1 2 3, the fractions, and the accented letters). *)
Definition is_alnum (c : ascii) : bool :=
  is_digit c || is_letter c
  || (code c =? 170)%N || (code c =? 178)%N || (code c =? 179)%N
  || (code c =? 181)%N || (code c =? 185)%N || (code c =? 186)%N
  || between 188 190 c
  || between 192 214 c || between 216 246 c || between 248 255 c.

(** The pattern class [\w]. *)
Definition is_word (c : ascii) : bool := is_alnum c || (code c =? 95)%N.

(** The whitespace [int] and [float] skip at both ends of their argument
    ([Py_ISSPACE] after the non-ASCII spaces were turned into blanks). *)
Definition is_num_space (c : ascii) : bool :=
  between 9 13 c || (code c =? 32)%N
  || (code c =? 133)%N || (code c =? 160)%N.

Definition is_empty (s : str) : bool :=
  match s with
  | [] => true
  | _ :: _ => false
  end.

(** *** [str.strip], [str.split], [str.splitlines], [str.join] *)

Fixpoint lstrip_by (p : ascii -> bool) (s : str) : str :=
  match s with
  | [] => []
  | c :: r => if p c then lstrip_by p r else s
  end.

Definition strip_by (p : ascii -> bool) (s : str) : str :=
  rev (lstrip_by p (rev (lstrip_by p s))).

Definition strip (s : str) : str := strip_by is_space s.

(** [s.split()]: the maximal runs of non-whitespace characters;
    [cur] is the run being read. *)
Fixpoint split_from (cur : str) (s : str) : list str :=
  match s with
  | [] => if is_empty cur then [] else [cur]
  | c :: r =>
      if is_space c
      then (if is_empty cur then split_from [] r else cur :: split_from [] r)
      else split_from (cur ++ [c]) r
  end.

Definition split (s : str) : list str := split_from [] s.

(** [s.splitlines()]: a line ends at each line break, CR LF counting as
    one; the text after the last break is a line when it is not empty. *)
Fixpoint splitlines_from (cur : str) (s : str) : list str :=
  match s with
  | [] => if is_empty cur then [] else [cur]
  | c :: r =>
      if is_linebreak c then
        match r with
        | c' :: r' =>
            if ((code c =? 13) && (code c' =? 10))%N
            then cur :: splitlines_from [] r'
            else cur :: splitlines_from [] r
        | [] => [cur]
        end
      else splitlines_from (cur ++ [c]) r
  end.

Definition splitlines (s : str) : list str := splitlines_from [] s.

Fixpoint join (sep : str) (l : list str) : str :=
  match l with
  | [] => []
  | [x] => x
  | x :: r => x ++ sep ++ join sep r
  end.

(** *** Indexing and slicing of a list *)

Definition len {A} (l : list A) : Z := Z.of_nat (length l).

(** [l[i]], a negative [i] counting from the end. *)
Definition index {A} (l : list A) (i : Z) : result A :=
  let i' := if i <? 0 then i + len l else i in
  if i' <? 0 then Raise IndexError
  else match nth_error l (Z.to_nat i') with
       | Some x => Ok x
       | None => Raise IndexError
       end.

(** [l[lo:hi]]: both bounds are clamped to the list. *)
Definition slice {A} (l : list A) (lo hi : Z) : list A :=
  let clamp i := if i <? 0 then Z.max 0 (i + len l) else Z.min i (len l) in
  firstn (Z.to_nat (clamp hi - clamp lo)) (skipn (Z.to_nat (clamp lo)) l).

(** *** Decimal numerals *)

(** PEP 515: an underscore is legal between two digits only.  Returns
    the text without its underscores; [prev] is the character before. *)
Fixpoint drop_underscores (prev : option ascii) (s : str) : option str :=
  match s with
  | [] =>
      match prev with
      | Some "_"%char => None
      | _ => Some []
      end
  | c :: r =>
      if (code c =? 95)%N then
        match prev with
        | Some p => if is_digit p then drop_underscores (Some c) r else None
        | None => None
        end
      else
        match prev with
        | Some "_"%char =>
            if is_digit c
            then option_map (cons c) (drop_underscores (Some c) r)
            else None
        | _ => option_map (cons c) (drop_underscores (Some c) r)
        end
  end.

(** A non-empty run of the digits 0-9 as a decimal numeral. *)
Definition digits (s : str) : option Decimal.uint :=
  match s with
  | [] => None
  | _ :: _ => DecimalString.NilEmpty.uint_of_string (String.string_of_list_ascii s)
  end.

Definition drop_sign (s : str) : bool * str :=
  match s with
  | "-"%char :: r => (true, r)
  | "+"%char :: r => (false, r)
  | _ => (false, s)
  end.

(** [sys.int_info.default_max_str_digits]: the longest decimal numeral
    that [int] and [str] convert, unless the interpreter is configured
    otherwise.  Leading zeros count; the sign, the underscores and the
    blanks around do not. *)
Definition max_str_digits : N := 4300.

(** [int(s)] in base 10: blanks at both ends, an optional sign, digits
    with single underscores between them. *)
Definition int (s : str) : result Z :=
  let (neg, body) := drop_sign (strip_by is_num_space s) in
  match drop_underscores None body with
  | None => Raise ValueError
  | Some ds =>
      if (max_str_digits <? N.of_nat (length ds))%N then Raise ValueError
      else
        match digits ds with
        | None => Raise ValueError
        | Some u => Ok (if neg then - Z.of_uint u else Z.of_uint u)
        end
  end.

(** [str(n)] of an integer of at most [max_str_digits] digits. *)
Definition str_of_int (n : Z) : str :=
  String.list_ascii_of_string (DecimalString.NilZero.string_of_int (Z.to_int n)).

(** *** Floating point: IEEE 754 binary64 *)

Definition float := spec_float.

Definition prec : Z := 53.
Definition emax : Z := 1024.

(** The binary64 nearest (ties to even) to [num / den], [den > 0]. *)
Definition round_ratio (neg : bool) (num den : Z) : float :=
  let '(q, e, l) := SFdiv_core_binary prec emax num 0 den 0 in
  binary_round_aux prec emax neg q e l.

(** The binary64 nearest to [m * 10 ^ e]. *)
Definition float_of_decimal (neg : bool) (m : Z) (e : Z) : float :=
  if m =? 0 then S754_zero neg
  else round_ratio neg (m * 10 ^ Z.max e 0) (10 ^ Z.max (- e) 0).

(** [float(n)] of an integer. *)
Definition float_of_Z (n : Z) : float := binary_normalize prec emax n 0 false.

Definition lower (c : ascii) : ascii :=
  if is_upper c then ascii_of_N (code c + 32) else c.

Fixpoint span (p : ascii -> bool) (s : str) : str * str :=
  match s with
  | [] => ([], [])
  | c :: r =>
      if p c then let (a, b) := span p r in (c :: a, b) else ([], s)
  end.

Definition str_eqb (a b : str) : bool :=
  if list_eq_dec ascii_dec a b then true else false.

(** The exponent part: nothing, or [e] or [E], an optional sign and
    digits up to the end. *)
Definition exponent (s : str) : option Z :=
  match s with
  | [] => Some 0
  | c :: r =>
      if str_eqb [lower c] "e" then
        let (neg, ds) := drop_sign r in
        match digits ds with
        | Some u => Some (if neg then - Z.of_uint u else Z.of_uint u)
        | None => None
        end
      else None
  end.

Definition uint_value (ds : str) : option Z :=
  match ds with
  | [] => Some 0
  | _ => option_map Z.of_uint (digits ds)
  end.

(** [float(s)]: blanks at both ends, an optional sign, then [inf],
    [infinity] or [nan] in any case, or a decimal number: digits with an
    optional point, or a point followed by digits, and an optional
    exponent; single underscores between digits. *)
Definition float_of_str (s : str) : result float :=
  match drop_underscores None (strip_by is_num_space s) with
  | None => Raise ValueError
  | Some t =>
      let (neg, body) := drop_sign t in
      let word := map lower body in
      if str_eqb word "inf" || str_eqb word "infinity"
      then Ok (S754_infinity neg)
      else if str_eqb word "nan" then Ok S754_nan
      else
        let (ip, r1) := span is_digit body in
        let (fp, r2) :=
          match r1 with
          | "."%char :: r => span is_digit r
          | _ => ([], r1)
          end in
        if is_empty ip && is_empty fp then Raise ValueError
        else
          match uint_value (ip ++ fp), exponent r2 with
          | Some m, Some e =>
              Ok (float_of_decimal neg m (e - len fp))
          | _, _ => Raise ValueError
          end
  end.

End Py.

(** ** The [re] patterns of [app.py] *)

Module Re.

(** [\b]: exactly one of the two neighbours is a word character, the
    ends of the text counting as non-word. *)
Definition wordish (c : option ascii) : bool :=
  match c with
  | Some a => Py.is_word a
  | None => false
  end.

Definition word_boundary (prev next : option ascii) : bool :=
  xorb (wordish prev) (wordish next).

(** [[A-Z]{3}\d{4}] against a whole string. *)
Definition is_code (s : str) : bool :=
  match s with
  | [a; b; c; d1; d2; d3; d4] =>
      Py.is_upper a && Py.is_upper b && Py.is_upper c
      && Py.is_digit d1 && Py.is_digit d2 && Py.is_digit d3 && Py.is_digit d4
  | _ => false
  end.

(** A matcher tries its pattern at one position: [prev] is the character
    before the position, [s] the text from it.  On success it gives the
    replacement text and the number of characters the match covers. *)
Definition matcher := option ascii -> str -> option (str * nat).

(** [re.sub(pattern, repl, s)] for a pattern that matches no empty
    string: the text is scanned from the left; at a position where the
    pattern matches the replacement is written and the scan resumes
    after the match, elsewhere the character is copied.  [skip] counts
    the characters still covered by the last match. *)
Fixpoint sub_from (m : matcher) (skip : nat) (prev : option ascii) (s : str)
  : str :=
  match s with
  | [] => []
  | c :: r =>
      match skip with
      | S k => sub_from m k (Some c) r
      | O =>
          match m prev s with
          | Some (repl, S k) => repl ++ sub_from m k (Some c) r
          | _ => c :: sub_from m O (Some c) r
          end
      end
  end.

Definition sub (m : matcher) (s : str) : str := sub_from m O None s.

(** [\d{k}[A-Z]{3}\d{4}] at the head of [s], rewritten by [\1 \2]. *)
Definition digits_then_code (k : nat) (s : str) : option (str * nat) :=
  let ds := firstn k s in
  let cd := firstn 7 (skipn k s) in
  if (length ds =? k)%nat && forallb Py.is_digit ds && is_code cd
  then Some (ds ++ " " ++ cd, (k + 7)%nat)
  else None.

(** [(\b\d{1,2})([A-Z]{3}\d{4})] with replacement [\1 \2]; the greedy
    [\d{1,2}] takes two digits first and falls back to one. *)
Definition number_code : matcher := fun prev s =>
  if word_boundary prev (hd_error s) then
    match digits_then_code 2 s with
    | Some r => Some r
    | None => digits_then_code 1 s
    end
  else None.

(** [([A-Z]{3}\d{4})([A-Za-z])] with replacement [\1 \2]. *)
Definition code_letter : matcher := fun _ s =>
  let cd := firstn 7 s in
  match skipn 7 s with
  | l :: _ =>
      if is_code cd && Py.is_letter l then Some (cd ++ " " ++ [l], 8%nat)
      else None
  | [] => None
  end.

Fixpoint starts_with (p s : str) : bool :=
  match p, s with
  | [], _ => true
  | a :: p', b :: s' => if ascii_dec a b then starts_with p' s' else false
  | _ :: _, [] => false
  end.

Definition footer_marker : str := "UNOFFICIALProvisional Grade History".

Definition not_newline (c : ascii) : bool := negb (Py.code c =? 10)%N.

(** [UNOFFICIALProvisional Grade History.*] with replacement the empty
    string; [.] is any character but the newline. *)
Definition footer : matcher := fun _ s =>
  if starts_with footer_marker s then
    let tail := fst (Py.span not_newline (skipn (length footer_marker) s)) in
    Some ([], (length footer_marker + length tail)%nat)
  else None.

(** [re.match(r"^\d+\s+[A-Z]{3}\d{4}\b", line)]: the greedy runs need no
    backtracking, a digit being no whitespace and a whitespace no
    capital. *)
Definition row_start (line : str) : bool :=
  let (ds, r1) := Py.span Py.is_digit line in
  let (ws, r2) := Py.span Py.is_space r1 in
  negb (Py.is_empty ds) && negb (Py.is_empty ws)
  && is_code (firstn 7 r2)
  && word_boundary (nth_error r2 6) (nth_error r2 7).

(** *** Properties of matchers *)

(** The character before the position reached after [w] was read. *)
Definition prev_after (prev : option ascii) (w : str) : option ascii :=
  fold_left (fun _ c => Some c) w prev.

(** The pattern matches at no position of [s]. *)
Fixpoint quiet (m : matcher) (prev : option ascii) (s : str) : Prop :=
  match s with
  | [] => True
  | c :: r => m prev s = None /\ quiet m (Some c) r
  end.

(** A matcher whose replacement is the matched text [a ++ b] with one
    blank between [a] and [b], the two parts satisfying [Q]. *)
Definition spacer (Q : str -> str -> Prop) (m : matcher) : Prop :=
  forall prev s repl n,
    m prev s = Some (repl, n) ->
    exists a b rest,
      s = a ++ b ++ rest /\ repl = a ++ " " ++ b
      /\ n = length (a ++ b) /\ (0 < n)%nat /\ Q a b.

(** The parts of a match of [number_code]: one or two digits, a code. *)
Definition number_code_parts (a b : str) : Prop :=
  (length a = 1 \/ length a = 2)%nat
  /\ forallb Py.is_digit a = true /\ is_code b = true.

(** The parts of a match of [code_letter]: a code, a letter. *)
Definition code_letter_parts (a b : str) : Prop :=
  is_code a = true /\ exists l, b = [l] /\ Py.is_letter l = true.

(** [t] is [s] up to blanks: every prefix of [t] is the prefix of [s]
    of that length or holds a blank. *)
Definition blanked (s t : str) : Prop :=
  forall k, firstn k t = firstn k s \/ In " "%char (firstn k t).

End Re.

(** ** The [csv] module, default dialect (excel)

    [delimiter] the comma, [quotechar] the double quote, [doublequote=True],
    [skipinitialspace=False], [lineterminator='\r\n'],
    [quoting=QUOTE_MINIMAL], no [escapechar], [strict=False]. *)

Module Csv.

Definition comma : ascii := ","%char.
Definition quote : ascii := "034"%char.
Definition CR : ascii := "013"%char.
Definition LF : ascii := "010"%char.

(** *** [csv.writer] *)

(** The characters that make [QUOTE_MINIMAL] quote a field: the
    delimiter, the quote character and those of the line terminator. *)
Definition special (c : ascii) : bool :=
  (c =? comma)%char || (c =? quote)%char || (c =? CR)%char || (c =? LF)%char.

(** [doublequote]: a quote character is written twice. *)
Fixpoint double_quotes (s : str) : str :=
  match s with
  | [] => []
  | c :: r =>
      if (c =? quote)%char then quote :: quote :: double_quotes r
      else c :: double_quotes r
  end.

Definition write_field (s : str) : str :=
  if existsb special s then quote :: double_quotes s ++ [quote] else s.

(** [writer.writerow(row)]: the text written for one row of strings; a
    row whose text would be empty (a single empty field) is written as
    an empty quoted field. *)
Definition writerow (row : list str) : str :=
  let rec := Py.join [comma] (map write_field row) in
  (if Py.is_empty rec && negb (length row =? 0)%nat then [quote; quote]
   else rec) ++ [CR; LF].

(** *** [csv.reader] *)

(** The states of the parser the dialect can reach (without an
    [escapechar] the three escape states are never entered). *)
Inductive parser_state : Set :=
| START_RECORD
| START_FIELD
| IN_FIELD
| IN_QUOTED_FIELD
| QUOTE_IN_QUOTED_FIELD
| EAT_CRNL.

Record reader : Type := {
  state : parser_state;
  fields : list str;
  field : str
}.

(** [csv.field_size_limit()]. *)
Definition field_limit : N := 131072.

Definition parse_reset : reader :=
  {| state := START_RECORD; fields := []; field := [] |}.

Definition set_state (r : reader) (s : parser_state) : reader :=
  {| state := s; fields := fields r; field := field r |}.

Definition parse_add_char (r : reader) (c : ascii) : result reader :=
  if (field_limit <=? N.of_nat (length (field r)))%N then Raise CsvError
  else Ok {| state := state r; fields := fields r; field := field r ++ [c] |}.

Definition parse_save_field (r : reader) : reader :=
  {| state := state r; fields := fields r ++ [field r]; field := [] |}.

Definition is_newline (c : ascii) : bool := (c =? LF)%char || (c =? CR)%char.

(** What [START_FIELD] does with a character; [START_RECORD] falls
    through to it on an ordinary character. *)
Definition start_field (r : reader) (c : option ascii) : result reader :=
  match c with
  | None => Ok (set_state (parse_save_field r) START_RECORD)
  | Some a =>
      if is_newline a then Ok (set_state (parse_save_field r) EAT_CRNL)
      else if (a =? quote)%char then Ok (set_state r IN_QUOTED_FIELD)
      else if (a =? comma)%char then Ok (parse_save_field r)
      else r' <- parse_add_char r a ;; Ok (set_state r' IN_FIELD)
  end.

(** [parse_process_char]: one character of a line, or [None] for the
    end of the line. *)
Definition parse_process_char (r : reader) (c : option ascii) : result reader :=
  match state r with
  | START_RECORD =>
      match c with
      | None => Ok r
      | Some a =>
          if is_newline a then Ok (set_state r EAT_CRNL)
          else start_field (set_state r START_FIELD) c
      end
  | START_FIELD => start_field r c
  | IN_FIELD =>
      match c with
      | None => Ok (set_state (parse_save_field r) START_RECORD)
      | Some a =>
          if is_newline a then Ok (set_state (parse_save_field r) EAT_CRNL)
          else if (a =? comma)%char
          then Ok (set_state (parse_save_field r) START_FIELD)
          else parse_add_char r a
      end
  | IN_QUOTED_FIELD =>
      match c with
      | None => Ok r
      | Some a =>
          if (a =? quote)%char then Ok (set_state r QUOTE_IN_QUOTED_FIELD)
          else parse_add_char r a
      end
  | QUOTE_IN_QUOTED_FIELD =>
      match c with
      | None => Ok (set_state (parse_save_field r) START_RECORD)
      | Some a =>
          if (a =? quote)%char
          then r' <- parse_add_char r a ;; Ok (set_state r' IN_QUOTED_FIELD)
          else if (a =? comma)%char
          then Ok (set_state (parse_save_field r) START_FIELD)
          else if is_newline a
          then Ok (set_state (parse_save_field r) EAT_CRNL)
          else r' <- parse_add_char r a ;; Ok (set_state r' IN_FIELD)
      end
  | EAT_CRNL =>
      match c with
      | None => Ok (set_state r START_RECORD)
      | Some a => if is_newline a then Ok r else Raise CsvError
      end
  end.

Fixpoint parse_chars (r : reader) (line : str) : result reader :=
  match line with
  | [] => Ok r
  | c :: rest => r' <- parse_process_char r (Some c) ;; parse_chars r' rest
  end.

(** One line of input: its characters, then the end-of-line signal. *)
Definition parse_line (r : reader) (line : str) : result reader :=
  r' <- parse_chars r line ;; parse_process_char r' None.

Definition at_start (r : reader) : bool :=
  match state r with
  | START_RECORD => true
  | _ => false
  end.

Definition in_quoted (r : reader) : bool :=
  match state r with
  | IN_QUOTED_FIELD => true
  | _ => false
  end.

(** Iterating the reader over the lines of its input: the rows it
    yields, in order, and the error that ends the iteration, if any.  A
    row is complete when the parser is back in [START_RECORD] at the end
    of a line; at the end of the input an unfinished quoted row is
    yielded as it stands. *)
Fixpoint read_rows (r : reader) (lines : list str)
  : list (list str) * option exn :=
  match lines with
  | [] =>
      if negb (Py.is_empty (field r)) || in_quoted r
      then ([fields (parse_save_field r)], None)
      else ([], None)
  | line :: rest =>
      match parse_line r line with
      | Raise e => ([], Some e)
      | Ok r' =>
          if at_start r' then
            let (rows, err) := read_rows parse_reset rest in
            (fields r' :: rows, err)
          else read_rows r' rest
      end
  end.

Definition reader_rows (lines : list str) : list (list str) * option exn :=
  read_rows parse_reset lines.

(** The parser over a stretch of text inside a record: every
    character, and the end-of-line signal after each LF; [None] when
    the parser raises or the record ends within the stretch. *)
Fixpoint feed (r : reader) (w : str) : option reader :=
  match w with
  | [] => Some r
  | c :: w' =>
      match parse_process_char r (Some c) with
      | Raise _ => None
      | Ok r1 =>
          if (c =? LF)%char then
            match parse_process_char r1 None with
            | Raise _ => None
            | Ok r2 => if at_start r2 then None else feed r2 w'
            end
          else feed r1 w'
      end
  end.

(** *** [csv.DictReader] *)

(** A value of a row dictionary: a cell, [None] for a missing cell
    ([restval]), or the list of the cells beyond the header, stored
    under the key [None] ([restkey]). *)
Inductive value : Type :=
| VStr (s : str)
| VNone
| VList (l : list str).

Definition dict_row := list (option str * value).

Definition key_eqb (a b : option str) : bool :=
  match a, b with
  | None, None => true
  | Some x, Some y => Py.str_eqb x y
  | _, _ => false
  end.

(** [d[k] = v]: an existing key keeps its place. *)
Fixpoint dict_set (d : dict_row) (k : option str) (v : value) : dict_row :=
  match d with
  | [] => [(k, v)]
  | (k', v') :: r =>
      if key_eqb k' k then (k', v) :: r else (k', v') :: dict_set r k v
  end.

(** [d.get(k)]. *)
Fixpoint dict_get (d : dict_row) (k : option str) : value :=
  match d with
  | [] => VNone
  | (k', v) :: r => if key_eqb k' k then v else dict_get r k
  end.

Definition dict_keys (d : dict_row) : list (option str) := map fst d.

(** [dict(zip(fieldnames, row))]. *)
Fixpoint dict_zip (d : dict_row) (fieldnames row : list str) : dict_row :=
  match fieldnames, row with
  | k :: ks, v :: vs => dict_zip (dict_set d (Some k) (VStr v)) ks vs
  | _, _ => d
  end.

Fixpoint set_all (d : dict_row) (ks : list str) (v : value) : dict_row :=
  match ks with
  | [] => d
  | k :: r => set_all (dict_set d (Some k) v) r v
  end.

(** The dictionary [DictReader.__next__] builds for a non-empty row. *)
Definition make_dict (fieldnames row : list str) : dict_row :=
  let d := dict_zip [] fieldnames row in
  let lf := length fieldnames in
  let lr := length row in
  if (lf <? lr)%nat then dict_set d None (VList (skipn lf row))
  else if (lr <? lf)%nat then set_all d (skipn lr fieldnames) VNone
  else d.

Definition is_nil {A} (l : list A) : bool :=
  match l with
  | [] => true
  | _ => false
  end.

(** Iterating a [DictReader]: the first row of the reader is the
    header, the empty rows after it are passed over. *)
Definition dict_rows (rows : list (list str)) : list dict_row :=
  match rows with
  | [] => []
  | fieldnames :: data =>
      map (make_dict fieldnames) (filter (fun row => negb (is_nil row)) data)
  end.

(** *** The text stream *)

(** Universal newlines of [io.TextIOWrapper]: CR LF and CR are read as
    LF. *)
Fixpoint universal_newlines (s : str) : str :=
  match s with
  | [] => []
  | c :: r =>
      if (c =? CR)%char then
        match r with
        | c' :: r' =>
            if (c' =? LF)%char then LF :: universal_newlines r'
            else LF :: universal_newlines r
        | [] => [LF]
        end
      else c :: universal_newlines r
  end.

(** The lines of a text stream, each with its final LF. *)
Fixpoint lines_from (cur : str) (s : str) : list str :=
  match s with
  | [] => if Py.is_empty cur then [] else [cur]
  | c :: r =>
      if (c =? LF)%char then (cur ++ [c]) :: lines_from [] r
      else lines_from (cur ++ [c]) r
  end.

Definition text_lines (s : str) : list str :=
  lines_from [] (universal_newlines s).

End Csv.

(** ** [app.py] *)

Module App.

Record CourseRecord : Type := {
  sl_no : Z;
  course_code : str;
  course_title : str;
  course_type : str;
  credits : Py.float;
  grade : str;
  exam_month : str;
  result_declared_on : str;
  course_option : str;
  course_distribution : str
}.

(** [extract_text_from_pdf] from the texts [page.extract_text()]
    returns for the pages, in order: the PDF reader is an external
    collaborator. *)
Definition extract_text_from_pdf (pages_text : list str) : str :=
  Py.join [Csv.LF] pages_text.

Definition normalize_raw_text (text : str) : str :=
  let text := Re.sub Re.number_code text in
  let text := Re.sub Re.code_letter text in
  text.

Definition clean_line (line : str) : str :=
  let line := Re.sub Re.footer line in
  Py.strip line.

(** The two [try] blocks of [parse_course_line]: the first catches
    [ValueError] only, the second every exception. *)
Definition parse_course_line (line : str) : result (option CourseRecord) :=
  let tokens := Py.split line in
  if Py.len tokens <? 10 then Ok None
  else
    match (t <- Py.index tokens 0 ;; Py.int t) with
    | Raise ValueError => Ok None
    | Raise e => Raise e
    | Ok sl_no =>
        match
          (course_code <- Py.index tokens 1 ;;
           course_distribution <- Py.index tokens (-1) ;;
           course_option <- Py.index tokens (-2) ;;
           result_declared_on <- Py.index tokens (-3) ;;
           exam_month <- Py.index tokens (-4) ;;
           grade <- Py.index tokens (-5) ;;
           credits <- (t <- Py.index tokens (-6) ;; Py.float_of_str t) ;;
           course_type <- Py.index tokens (-7) ;;
           let title_tokens := Py.slice tokens 2 (-7) in
           let course_title := Py.join " " title_tokens in
           Ok {| sl_no := sl_no;
                 course_code := course_code;
                 course_title := course_title;
                 course_type := course_type;
                 credits := credits;
                 grade := grade;
                 exam_month := exam_month;
                 result_declared_on := result_declared_on;
                 course_option := course_option;
                 course_distribution := course_distribution |})
        with
        | Ok rec => Ok (Some rec)
        | Raise _ => Ok None
        end
    end.

(** [if current_line: rec = parse_course_line(current_line);
     if rec: records.append(rec)]. *)
Definition flush (records : list CourseRecord) (current_line : str)
  : result (list CourseRecord) :=
  if Py.is_empty current_line then Ok records
  else
    rec <- parse_course_line current_line ;;
    Ok (match rec with
        | Some r => records ++ [r]
        | None => records
        end).

(** One turn of the loop of [parse_grade_history] over the state
    [(records, current_line)]. *)
Definition segment_step (st : list CourseRecord * str) (raw_line : str)
  : result (list CourseRecord * str) :=
  let (records, current_line) := st in
  let line := clean_line raw_line in
  if Py.is_empty line then Ok st
  else if Re.row_start line then
    records' <- flush records current_line ;;
    Ok (records', line)
  else if Py.is_empty current_line then Ok st
  else Ok (records, current_line ++ " " ++ line).

Fixpoint segment_loop (st : list CourseRecord * str) (lines : list str)
  : result (list CourseRecord * str) :=
  match lines with
  | [] => Ok st
  | raw_line :: rest =>
      st' <- segment_step st raw_line ;;
      segment_loop st' rest
  end.

(** [parse_grade_history] from the text [extract_text_from_pdf] returns:
    the PDF decoder is an external collaborator. *)
Definition parse_grade_history (raw_text : str) : result (list CourseRecord) :=
  let text := normalize_raw_text raw_text in
  let lines := Py.splitlines text in
  st <- segment_loop ([], []) lines ;;
  flush (fst st) (snd st).

(** *** [parse_csv] *)

(** [(row.get(col) or "").strip()]: a list has no [strip]. *)
Definition cell (row : Csv.dict_row) (col : option str) : result str :=
  match Csv.dict_get row col with
  | Csv.VStr s => Ok (Py.strip s)
  | Csv.VNone => Ok (Py.strip [])
  | Csv.VList [] => Ok (Py.strip [])
  | Csv.VList (_ :: _) => Raise AttributeError
  end.

(** [any((row.get(col) or "").strip() for col in row.keys())]: the
    columns are visited in order up to the first non-blank one. *)
Fixpoint any_cell (row : Csv.dict_row) (cols : list (option str))
  : result bool :=
  match cols with
  | [] => Ok false
  | col :: rest =>
      s <- cell row col ;;
      if Py.is_empty s then any_cell row rest else Ok true
  end.

(** The body of the [try] of [parse_csv]; [Ok None] is its [continue]. *)
Definition row_record (row : Csv.dict_row) : result (option CourseRecord) :=
  sl_no_str <- cell row (Some "Sl.No") ;;
  if Py.is_empty sl_no_str then Ok None
  else
    sl_no <- Py.int sl_no_str ;;
    course_code <- cell row (Some "Course Code") ;;
    course_title <- cell row (Some "Course Title") ;;
    course_type <- cell row (Some "Course Type") ;;
    credits_str <- cell row (Some "Credits") ;;
    credits <- (if Py.is_empty credits_str then Ok (S754_zero false)
                else Py.float_of_str credits_str) ;;
    grade <- cell row (Some "Grade") ;;
    exam_month <- cell row (Some "Exam Month") ;;
    result_declared_on <- cell row (Some "Result Declared On") ;;
    course_option <- cell row (Some "Course Option") ;;
    course_distribution <- cell row (Some "Course Distribution") ;;
    Ok (Some {| sl_no := sl_no;
                course_code := course_code;
                course_title := course_title;
                course_type := course_type;
                credits := credits;
                grade := grade;
                exam_month := exam_month;
                result_declared_on := result_declared_on;
                course_option := course_option;
                course_distribution := course_distribution |}).

(** One turn of the loop of [parse_csv]: the blank-row test stands
    before the [try], whose handler catches every exception. *)
Definition csv_step (records : list CourseRecord) (row : Csv.dict_row)
  : result (list CourseRecord) :=
  nonblank <- any_cell row (Csv.dict_keys row) ;;
  if negb nonblank then Ok records
  else
    match row_record row with
    | Ok (Some rec) => Ok (records ++ [rec])
    | Ok None => Ok records
    | Raise _ => Ok records
    end.

Fixpoint csv_loop (records : list CourseRecord) (rows : list Csv.dict_row)
  : result (list CourseRecord) :=
  match rows with
  | [] => Ok records
  | row :: rest =>
      records' <- csv_step records row ;;
      csv_loop records' rest
  end.

(** [parse_csv] from the decoded text of the uploaded file.  The loop
    consumes the rows as the reader yields them: an error of the reader
    is raised once the rows before it went through the loop. *)
Definition parse_csv (text : str) : result (list CourseRecord) :=
  let (rows, err) := Csv.reader_rows (Csv.text_lines text) in
  records <- csv_loop [] (Csv.dict_rows rows) ;;
  match err with
  | Some e => Raise e
  | None => Ok records
  end.

(** *** [download_csv] *)

Definition is_field_char (c : ascii) : bool :=
  Py.is_lower c || (Py.code c =? 95)%N.

(** [pattern.match(key)] for [row-(\d+)-([a-z_]+)]: the two groups. *)
Definition match_key (key : str) : option (str * str) :=
  if Re.starts_with "row-" key then
    let (ds, r1) := Py.span Py.is_digit (skipn 4 key) in
    match r1 with
    | "-"%char :: r2 =>
        let (fs, _) := Py.span is_field_char r2 in
        if negb (Py.is_empty ds) && negb (Py.is_empty fs) then Some (ds, fs)
        else None
    | _ => None
    end
  else None.

(** [rows_data]: row index to the dictionary of its fields, both in
    insertion order. *)
Definition form_row := list (str * str).
Definition rows_dict := list (Z * form_row).

(** [row[field] = value]. *)
Fixpoint row_set (row : form_row) (f v : str) : form_row :=
  match row with
  | [] => [(f, v)]
  | (f', v') :: r =>
      if Py.str_eqb f' f then (f', v) :: r else (f', v') :: row_set r f v
  end.

(** [row.get(f, "")]. *)
Fixpoint row_get (row : form_row) (f : str) : str :=
  match row with
  | [] => []
  | (f', v) :: r => if Py.str_eqb f' f then v else row_get r f
  end.

(** [rows_data.setdefault(idx, {})[field] = value]. *)
Fixpoint rows_set (d : rows_dict) (idx : Z) (f v : str) : rows_dict :=
  match d with
  | [] => [(idx, row_set [] f v)]
  | (i, row) :: r =>
      if i =? idx then (i, row_set row f v) :: r
      else (i, row) :: rows_set r idx f v
  end.

Fixpoint rows_get (d : rows_dict) (idx : Z) : form_row :=
  match d with
  | [] => []
  | (i, row) :: r => if i =? idx then row else rows_get r idx
  end.

(** The first loop of [download_csv], over [request.form.items()]. *)
Fixpoint collect (rows_data : rows_dict) (items : list (str * str))
  : result rows_dict :=
  match items with
  | [] => Ok rows_data
  | (key, value) :: rest =>
      match match_key key with
      | None => collect rows_data rest
      | Some (g1, field) =>
          idx <- Py.int g1 ;;
          collect (rows_set rows_data idx field (Py.strip value)) rest
      end
  end.

Fixpoint insert_sorted (x : Z) (l : list Z) : list Z :=
  match l with
  | [] => [x]
  | y :: r => if x <=? y then x :: l else y :: insert_sorted x r
  end.

(** [sorted] on integers. *)
Definition sorted (l : list Z) : list Z := fold_right insert_sorted [] l.

Definition header : list str :=
  ["Sl.No"; "Course Code"; "Course Title"; "Course Type"; "Credits";
   "Grade"; "Exam Month"; "Result Declared On"; "Course Option";
   "Course Distribution"].

Definition field_order : list str :=
  ["sl_no"; "course_code"; "course_title"; "course_type"; "credits";
   "grade"; "exam_month"; "result_declared_on"; "course_option";
   "course_distribution"].

(** The second loop of [download_csv]: the text written for the rows. *)
Fixpoint write_rows (rows_data : rows_dict) (idxs : list Z) : str :=
  match idxs with
  | [] => []
  | idx :: rest =>
      let row := rows_get rows_data idx in
      if negb (existsb (fun f => negb (Py.is_empty (row_get row f))) field_order)
      then write_rows rows_data rest
      else Csv.writerow (map (row_get row) field_order)
           ++ write_rows rows_data rest
  end.

(** [download_csv] from the items of the submitted form to the body of
    the response. *)
Definition download_csv (form : list (str * str)) : result str :=
  rows_data <- collect [] form ;;
  Ok (Csv.writerow header ++ write_rows rows_data (sorted (map fst rows_data))).

End App.

(** ** Specification-side definitions

    The predicates below follow the wording of the specification; the
    theorems compare them with the functions above. *)

Module Spec.

(** A token: a non-empty string without whitespace. *)
Definition is_token (t : str) : bool :=
  negb (Py.is_empty t) && forallb (fun c => negb (Py.is_space c)) t.

(** The anchor pattern in words: one or more digits, then whitespace,
    then a course-code token of 3 uppercase letters and 4 digits that
    ends at a word boundary, all at the very start of the line. *)
Definition anchor (line : str) : Prop :=
  exists ds ws cd rest,
    line = ds ++ ws ++ cd ++ rest
    /\ ds <> [] /\ forallb Py.is_digit ds = true
    /\ ws <> [] /\ forallb Py.is_space ws = true
    /\ Re.is_code cd = true
    /\ match rest with
       | [] => True
       | c :: _ => Py.is_word c = false
       end.

(** A malformed row: fewer than 10 tokens, or a first token that is no
    integer, or a credits token (sixth from the right) that is no
    number. *)
Definition malformed (row : str) : Prop :=
  let tokens := Py.split row in
  (length tokens < 10)%nat
  \/ (exists t e, nth_error tokens 0 = Some t /\ Py.int t = Raise e)
  \/ (exists t e, nth_error tokens (length tokens - 6) = Some t
                  /\ Py.float_of_str t = Raise e).

(** The records a logical row contributes to the document. *)
Definition row_records (row : str) : list App.CourseRecord :=
  match App.parse_course_line row with
  | Ok (Some r) => [r]
  | _ => []
  end.

(** The segmenter of section 4.2 on cleaned, non-empty lines: the
    logical rows closed so far and the open accumulator. *)
Fixpoint logical_rows (cur : str) (lines : list str) : list str :=
  match lines with
  | [] => if Py.is_empty cur then [] else [cur]
  | line :: rest =>
      if Re.row_start line then
        (if Py.is_empty cur then [] else [cur]) ++ logical_rows line rest
      else if Py.is_empty cur then logical_rows cur rest
      else logical_rows (cur ++ " " ++ line) rest
  end.

(** The cleaned lines of a document, the empty ones discarded. *)
Definition cleaned_lines (raw_text : str) : list str :=
  filter (fun l => negb (Py.is_empty l))
         (map App.clean_line (Py.splitlines (App.normalize_raw_text raw_text))).

(** No course code glued to a following course code that is itself
    glued to a letter: no match of
    [[A-Z]{3}\d{4}[A-Z]{3}\d{4}[A-Za-z]] at the head of [s]... *)
Definition glued_at (s : str) : bool :=
  Re.is_code (firstn 7 s) && Re.is_code (firstn 7 (skipn 7 s))
  && match nth_error s 14 with
     | Some l => Py.is_letter l
     | None => false
     end.

(** ... nor anywhere in it. *)
Fixpoint no_glued (s : str) : bool :=
  match s with
  | [] => true
  | _ :: r => negb (glued_at s) && no_glued r
  end.

(** *** The export form

    Modelled from the spec: the page template that names the form
    fields is not among the sources.  Section 6 has the encoder accept
    edited field values submitted as a mapping from (row-index,
    field-name) pairs; the field [f] of row [i] is submitted under the
    key [row-i-f], the key [download_csv] matches. *)

Definition form_key (i : nat) (f : str) : str :=
  "row-" ++ Py.str_of_int (Z.of_nat i) ++ "-" ++ f.

Definition form_of_row (i : nat) (cells : list str) : list (str * str) :=
  combine (map (form_key i) App.field_order) cells.

Fixpoint form_of_rows (i : nat) (rows : list (list str)) : list (str * str) :=
  match rows with
  | [] => []
  | cells :: rest => form_of_row i cells ++ form_of_rows (S i) rest
  end.

(** An integer of at most [Py.max_str_digits] digits, which [str]
    prints and [int] reads. *)
Definition short (z : Z) : Prop := Z.abs z < 10 ^ Z.of_N Py.max_str_digits.

(** The ten cells of a record in field order: the serial number as
    [str] prints it, the credits as the text [credits_cell]. *)
Definition cells_of (r : App.CourseRecord) (credits_cell : str) : list str :=
  [Py.str_of_int (App.sl_no r); App.course_code r; App.course_title r;
   App.course_type r; credits_cell; App.grade r; App.exam_month r;
   App.result_declared_on r; App.course_option r;
   App.course_distribution r].

(** The form of a sequence of records, each with its credits cell. *)
Definition form_of_records (rs : list (App.CourseRecord * str))
  : list (str * str) :=
  form_of_rows 0 (map (fun rc => cells_of (fst rc) (snd rc)) rs).

(** A cell the codec carries unchanged: no whitespace at its ends, no
    carriage return, within the field size limit of the reader. *)
Definition clean_cell (s : str) : Prop :=
  Py.strip s = s
  /\ ~ In Csv.CR s
  /\ (N.of_nat (length s) <= Csv.field_limit)%N.

(** A record the codec carries unchanged: clean cells, a credits cell
    that [float] reads as its credits, credits other than NaN (which
    Python holds unequal to itself) and a short serial number. *)
Definition exportable (rc : App.CourseRecord * str) : Prop :=
  Forall clean_cell (cells_of (fst rc) (snd rc))
  /\ Py.float_of_str (snd rc) = Ok (App.credits (fst rc))
  /\ App.credits (fst rc) <> S754_nan
  /\ short (App.sl_no (fst rc)).

End Spec.

(** ** Sample inputs *)

Module Sample.

(** The raw line of the end-to-end scenario. *)
Definition scenario_line : str :=
  "6HUM1021Engineering Mechanics L 3.0 B MAY2023 JUN2023 FULL DIST2".

(** The 12-token row of the right-anchoring property. *)
Definition row12 : str :=
  "3 CSE1001 Intro to Systems REG 4.0 A MAY2023 JUN2023 FULL DIST1".

(** Two course codes glued to each other and to a letter. *)
Definition glued_codes : str := "ABC1234DEF5678G".

(** Rows of nine tokens: ten fields less the title. *)
Definition row9 : str := "1 CSE1001 TH 3.0 A MAY2023 JUN2023 FULL DIST1".
Definition row9' : str := "7 MAT2001 LAB 1.5 S NOV2022 DEC2022 FULL DIST3".

(** A document of three rows, the second with a credits token that is
    no number. *)
Definition bad_row : str :=
  "2 PHY1001 Engineering Physics TH three A MAY2023 JUN2023 FULL DIST1".

Definition document : str :=
  "1 CSE1001 Problem Solving TH 3.0 A MAY2023 JUN2023 FULL DIST1" ++ [Csv.LF]
  ++ bad_row ++ [Csv.LF]
  ++ "3 MAT1001 Calculus for" ++ [Csv.LF]
  ++ "Engineers TH 4.0 B MAY2023 JUN2023 FULL DIST1".

(** The header line of an exported CSV file. *)
Definition header_line : str :=
  "Sl.No,Course Code,Course Title,Course Type,Credits,Grade,Exam Month,Result Declared On,Course Option,Course Distribution"
  ++ [Csv.CR; Csv.LF].

Definition csv_row1 : str :=
  "1,CSE1001,Problem Solving,TH,3.0,A,MAY2023,JUN2023,FULL,DIST1"
  ++ [Csv.CR; Csv.LF].

Definition csv_row2 : str :=
  "2,MAT1001,Calculus,TH,4.0,B,MAY2023,JUN2023,FULL,DIST1"
  ++ [Csv.CR; Csv.LF].

(** A data row of eleven blank cells: one more than the header. *)
Definition blank_row11 : str := ",,,,,,,,,," ++ [Csv.CR; Csv.LF].

(** A data row whose ten named cells are blank, with an eleventh. *)
Definition surplus_row : str := ",,,,,,,,,,x" ++ [Csv.CR; Csv.LF].

Definition record1 : App.CourseRecord :=
  {| App.sl_no := 1;
     App.course_code := "CSE1001";
     App.course_title := "Problem Solving";
     App.course_type := "TH";
     App.credits := Py.float_of_Z 3;
     App.grade := "A";
     App.exam_month := "MAY2023";
     App.result_declared_on := "JUN2023";
     App.course_option := "FULL";
     App.course_distribution := "DIST1" |}.

Definition record2 : App.CourseRecord :=
  {| App.sl_no := 2;
     App.course_code := "MAT1001";
     App.course_title := "Calculus";
     App.course_type := "TH";
     App.credits := Py.float_of_Z 4;
     App.grade := "B";
     App.exam_month := "MAY2023";
     App.result_declared_on := "JUN2023";
     App.course_option := "FULL";
     App.course_distribution := "DIST1" |}.

(** [record2] with a blank before its title. *)
Definition record2_blank : App.CourseRecord :=
  {| App.sl_no := 2;
     App.course_code := "MAT1001";
     App.course_title := " Calculus";
     App.course_type := "TH";
     App.credits := Py.float_of_Z 4;
     App.grade := "B";
     App.exam_month := "MAY2023";
     App.result_declared_on := "JUN2023";
     App.course_option := "FULL";
     App.course_distribution := "DIST1" |}.

(** A record whose title holds a comma, a double quote and a line
    feed. *)
Definition record3 : App.CourseRecord :=
  {| App.sl_no := 3;
     App.course_code := "ENG1001";
     App.course_title := "Reading, " ++ [Csv.quote] ++ "Writing" ++ [Csv.quote]
                         ++ [Csv.LF] ++ "and Speaking";
     App.course_type := "TH";
     App.credits := Py.float_of_Z 2;
     App.grade := "S";
     App.exam_month := "NOV2023";
     App.result_declared_on := "DEC2023";
     App.course_option := "";
     App.course_distribution := "DIST2" |}.

End Sample.

(** ** Auxiliary definitions of the round-trip proof *)

(** A field begins in [START_FIELD], or in [START_RECORD] for the first
    field of a record. *)
Definition fresh (st : Csv.parser_state) : Prop :=
  st = Csv.START_RECORD \/ st = Csv.START_FIELD.

(** The state after the text of a field, before its delimiter. *)
Definition field_read (st : Csv.parser_state) (fs : list str) (f : str)
  : Csv.reader :=
  if existsb Csv.special f then Csv.Build_reader Csv.QUOTE_IN_QUOTED_FIELD fs f
  else match f with
       | [] => Csv.Build_reader st fs []
       | _ => Csv.Build_reader Csv.IN_FIELD fs f
       end.

(** A row the reader gives back as it was written: two cells or more,
    each within the field size limit. *)
Definition readable (row : list str) : Prop :=
  (2 <= length row)%nat
  /\ Forall (fun f => (N.of_nat (length f) <= Csv.field_limit)%N) row.

(** The text of a row, before its line terminator. *)
Definition row_text (row : list str) : str :=
  Py.join [Csv.comma] (map Csv.write_field row).

(** A row as the writer and the reader carry it: two cells or more,
    none with a carriage return, each within the field size limit. *)
Definition portable (row : list str) : Prop :=
  readable row /\ Forall (fun f => ~ In Csv.CR f) row.

(** The dictionary the first loop builds for the rows of a form. *)
Fixpoint rows_of (i : nat) (rows : list (list str)) : App.rows_dict :=
  match rows with
  | [] => []
  | cells :: rest =>
      (Z.of_nat i, combine App.field_order (map Py.strip cells))
      :: rows_of (S i) rest
  end.

(** A row of the form with its ten cells. *)
Definition ten_cells (cells : list str) : Prop := length cells = 10%nat.

(** A row of the form with ten cells, the first of them not blank. *)
Definition form_row_ok (cells : list str) : Prop :=
  ten_cells cells
  /\ match cells with
     | c :: _ => Py.strip c <> []
     | [] => False
     end.

(** A dictionary without a list of surplus cells. *)
Definition plain (d : Csv.dict_row) : Prop :=
  Forall (fun kv => match snd kv with
                    | Csv.VList _ => False
                    | _ => True
                    end) d.

(** ** Auxiliary definitions of the further properties *)

(** A text without its blanks. *)
Definition unblank (s : str) : str :=
  filter (fun c => negb (c =? " ")%char) s.

(** The matcher sees no further than the end of the line. *)
Definition line_bound (m : Re.matcher) : Prop :=
  (forall prev u v, m prev (u ++ Csv.LF :: v) = m prev u)
  /\ (forall s, m (Some Csv.LF) s = m None s).

(** [t] is [s] cut at line ends: every prefix of [t] is the prefix of
    [s] of that length, or holds a line feed, or is all of [t]. *)
Definition cropped (s t : str) : Prop :=
  forall k,
    firstn k t = firstn k s \/ In Csv.LF (firstn k t) \/ (length t < k)%nat.

(** The characters of a list of texts, one more for each text. *)
Fixpoint weight (ts : list str) : nat :=
  match ts with
  | [] => 0
  | t :: r => length t + 1 + weight r
  end.

(** The string fields of a record. *)
Definition text_fields (r : App.CourseRecord) : list str :=
  [App.course_code r; App.course_title r; App.course_type r; App.grade r;
   App.exam_month r; App.result_declared_on r; App.course_option r;
   App.course_distribution r].

(** A record with its string fields stripped. *)
Definition strip_record (r : App.CourseRecord) : App.CourseRecord :=
  {| App.sl_no := App.sl_no r;
     App.course_code := Py.strip (App.course_code r);
     App.course_title := Py.strip (App.course_title r);
     App.course_type := Py.strip (App.course_type r);
     App.credits := App.credits r;
     App.grade := Py.strip (App.grade r);
     App.exam_month := Py.strip (App.exam_month r);
     App.result_declared_on := Py.strip (App.result_declared_on r);
     App.course_option := Py.strip (App.course_option r);
     App.course_distribution := Py.strip (App.course_distribution r) |}.

(** A credits cell for a record: a clean cell that [float] reads as
    the credits of the record. *)
Definition credits_cell (r : App.CourseRecord) (c : str) : Prop :=
  Spec.clean_cell c /\ Py.float_of_str c = Ok (App.credits r).

(** An item of a form whose key [download_csv] matches, with a row
    index of more digits than [int] converts. *)
Definition long_index (kv : str * str) : Prop :=
  match App.match_key (fst kv) with
  | Some (ds, _) => (Py.max_str_digits < N.of_nat (length ds))%N
  | None => False
  end.

(** An item of a form whose key [download_csv] matches. *)
Definition matched (kv : str * str) : bool :=
  match App.match_key (fst kv) with
  | Some _ => true
  | None => false
  end.

(** An item of a form with its value stripped. *)
Definition strip_value (kv : str * str) : str * str :=
  (fst kv, Py.strip (snd kv)).

(** Every value of the dictionary of rows satisfies [P]. *)
Definition rows_all (P : str -> Prop) (d : App.rows_dict) : Prop :=
  Forall (fun ir => Forall (fun fv => P (snd fv)) (snd ir)) d.

(** A row as [download_csv] writes it: ten cells that satisfy [P], one
    at least not empty. *)
Definition written_row (P : str -> Prop) (row : list str) : Prop :=
  length row = 10%nat /\ Forall P row /\ Exists (fun c => c <> []) row.



(** * Proofs *)

(** ** Lists and strings *)

Lemma is_empty_false (s : str) : Py.is_empty s = false <-> s <> [].
Proof. destruct s; simpl; split; congruence. Qed.

Lemma len_app {A} (a b : list A) : Py.len (a ++ b) = Py.len a + Py.len b.
Proof. unfold Py.len. rewrite length_app. lia. Qed.

Lemma len_cons {A} (x : A) (l : list A) : Py.len (x :: l) = 1 + Py.len l.
Proof. unfold Py.len. simpl length. lia. Qed.

Lemma len_nonneg {A} (l : list A) : 0 <= Py.len l.
Proof. unfold Py.len. lia. Qed.

(** [l[-k]] for a position given from the end. *)
Lemma index_back {A} (pre : list A) (x : A) (suf : list A) :
  Py.index (pre ++ x :: suf) (- (1 + Py.len suf)) = Ok x.
Proof.
  unfold Py.index.
  pose proof (len_nonneg suf) as Hs. pose proof (len_nonneg pre) as Hp.
  destruct (- (1 + Py.len suf) <? 0) eqn:E; [|apply Z.ltb_ge in E; lia].
  rewrite len_app, len_cons.
  replace (- (1 + Py.len suf) + (Py.len pre + (1 + Py.len suf)))
    with (Py.len pre) by lia.
  destruct (Py.len pre <? 0) eqn:E'; [apply Z.ltb_lt in E'; lia|].
  unfold Py.len. rewrite Nat2Z.id.
  rewrite nth_error_app2 by lia. now rewrite Nat.sub_diag.
Qed.

(** [l[a:-b]] cuts [a] items at the front and [b > 0] at the end. *)
Lemma slice_middle {A} (pre mid suf : list A) :
  suf <> [] ->
  Py.slice (pre ++ mid ++ suf) (Py.len pre) (- Py.len suf) = mid.
Proof.
  intros Hsuf. unfold Py.slice.
  assert (0 < Py.len suf) as Hs.
  { destruct suf; [congruence|]. rewrite len_cons.
    pose proof (len_nonneg suf). lia. }
  pose proof (len_nonneg pre) as Hp. pose proof (len_nonneg mid) as Hm.
  rewrite !len_app.
  destruct (- Py.len suf <? 0) eqn:E; [|apply Z.ltb_ge in E; lia].
  destruct (Py.len pre <? 0) eqn:E'; [apply Z.ltb_lt in E'; lia|].
  rewrite Z.max_r by lia. rewrite Z.min_l by lia.
  replace (- Py.len suf + (Py.len pre + (Py.len mid + Py.len suf)) - Py.len pre)
    with (Py.len mid) by lia.
  unfold Py.len. rewrite !Nat2Z.id.
  rewrite skipn_app, skipn_all, Nat.sub_diag. simpl.
  rewrite firstn_app, firstn_all, Nat.sub_diag. simpl.
  now rewrite app_nil_r.
Qed.

(** A list of ten or more items has two items, a non-empty middle and
    seven final items. *)
Lemma ten_or_more {A} (l : list A) :
  (10 <= length l)%nat ->
  exists a b mid t1 t2 t3 t4 t5 t6 t7,
    l = a :: b :: mid ++ [t1; t2; t3; t4; t5; t6; t7] /\ mid <> [].
Proof.
  intros H.
  rewrite <- (firstn_skipn (length l - 7) l).
  assert (length (skipn (length l - 7) l) = 7%nat) as Hs
    by (rewrite length_skipn; lia).
  assert (length (firstn (length l - 7) l) = (length l - 7)%nat) as Hf
    by (rewrite length_firstn; lia).
  destruct (skipn (length l - 7) l) as [|t1 [|t2 [|t3 [|t4 [|t5 [|t6 [|t7 [|]]]]]]]];
    simpl in Hs; try lia.
  destruct (firstn (length l - 7) l) as [|a [|b [|m mid]]];
    simpl in Hf; try lia.
  exists a, b, (m :: mid), t1, t2, t3, t4, t5, t6, t7. split; [reflexivity|congruence].
Qed.

Lemma index_tail7 {A} (pre : list A) (t1 t2 t3 t4 t5 t6 t7 : A) :
  let l := pre ++ [t1; t2; t3; t4; t5; t6; t7] in
  Py.index l (-1) = Ok t7 /\ Py.index l (-2) = Ok t6
  /\ Py.index l (-3) = Ok t5 /\ Py.index l (-4) = Ok t4
  /\ Py.index l (-5) = Ok t3 /\ Py.index l (-6) = Ok t2
  /\ Py.index l (-7) = Ok t1.
Proof.
  intros l. unfold l. repeat split.
  - replace (pre ++ [t1; t2; t3; t4; t5; t6; t7])
      with ((pre ++ [t1; t2; t3; t4; t5; t6]) ++ [t7])
      by (now rewrite <- app_assoc).
    exact (index_back (pre ++ [t1; t2; t3; t4; t5; t6]) t7 []).
  - replace (pre ++ [t1; t2; t3; t4; t5; t6; t7])
      with ((pre ++ [t1; t2; t3; t4; t5]) ++ [t6; t7])
      by (now rewrite <- app_assoc).
    exact (index_back (pre ++ [t1; t2; t3; t4; t5]) t6 [t7]).
  - replace (pre ++ [t1; t2; t3; t4; t5; t6; t7])
      with ((pre ++ [t1; t2; t3; t4]) ++ [t5; t6; t7])
      by (now rewrite <- app_assoc).
    exact (index_back (pre ++ [t1; t2; t3; t4]) t5 [t6; t7]).
  - replace (pre ++ [t1; t2; t3; t4; t5; t6; t7])
      with ((pre ++ [t1; t2; t3]) ++ [t4; t5; t6; t7])
      by (now rewrite <- app_assoc).
    exact (index_back (pre ++ [t1; t2; t3]) t4 [t5; t6; t7]).
  - replace (pre ++ [t1; t2; t3; t4; t5; t6; t7])
      with ((pre ++ [t1; t2]) ++ [t3; t4; t5; t6; t7])
      by (now rewrite <- app_assoc).
    exact (index_back (pre ++ [t1; t2]) t3 [t4; t5; t6; t7]).
  - replace (pre ++ [t1; t2; t3; t4; t5; t6; t7])
      with ((pre ++ [t1]) ++ [t2; t3; t4; t5; t6; t7])
      by (now rewrite <- app_assoc).
    exact (index_back (pre ++ [t1]) t2 [t3; t4; t5; t6; t7]).
  - exact (index_back pre t1 [t2; t3; t4; t5; t6; t7]).
Qed.

(** ** [str.split] *)

Lemma is_token_spec (t : str) :
  Spec.is_token t = true <->
  t <> [] /\ Forall (fun c => Py.is_space c = false) t.
Proof.
  unfold Spec.is_token. rewrite andb_true_iff, negb_true_iff, is_empty_false.
  rewrite forallb_forall, Forall_forall.
  split; intros [H1 H2]; split; auto; intros c Hc;
    specialize (H2 c Hc); now destruct (Py.is_space c).
Qed.

Lemma split_from_tokens (s cur : str) :
  Forall (fun c => Py.is_space c = false) cur ->
  Forall (fun t => Spec.is_token t = true) (Py.split_from cur s).
Proof.
  revert cur. induction s as [|c r IH]; intros cur Hcur; simpl.
  - destruct (Py.is_empty cur) eqn:E; constructor; [|constructor].
    apply is_token_spec. split; [now apply is_empty_false|assumption].
  - destruct (Py.is_space c) eqn:Ec.
    + destruct (Py.is_empty cur) eqn:E.
      * apply IH. constructor.
      * constructor; [|apply IH; constructor].
        apply is_token_spec. split; [now apply is_empty_false|assumption].
    + apply IH. apply Forall_app. split; [assumption|].
      constructor; [assumption|constructor].
Qed.

(** Every token of [s.split()] is non-empty and free of whitespace. *)
Lemma split_tokens (s : str) :
  Forall (fun t => Spec.is_token t = true) (Py.split s).
Proof. apply split_from_tokens. constructor. Qed.

Lemma join_nonempty (sep : str) (l : list str) :
  l <> [] -> Forall (fun t => t <> []) l -> Py.join sep l <> [].
Proof.
  destruct l as [|x r]; [congruence|]. intros _ H.
  inversion H as [|? ? Hx Hr]; subst.
  destruct x as [|c x']; [congruence|].
  simpl. destruct r; discriminate.
Qed.

(** ** [int] and [float] raise [ValueError] only *)

Lemma int_raises (s : str) (e : exn) : Py.int s = Raise e -> e = ValueError.
Proof.
  unfold Py.int.
  destruct (Py.drop_sign _) as [neg body].
  destruct (Py.drop_underscores None body) as [ds|]; [|congruence].
  destruct (_ <? _)%N; [congruence|].
  destruct (Py.digits ds); congruence.
Qed.

(** ** [parse_course_line] *)

(** The parser on a row of ten or more tokens. *)
Lemma parse_course_line_tokens (line a b : str) (mid : list str)
      (t1 t2 t3 t4 t5 t6 t7 : str) :
  Py.split line = a :: b :: mid ++ [t1; t2; t3; t4; t5; t6; t7] ->
  mid <> [] ->
  App.parse_course_line line =
  match Py.int a with
  | Raise _ => Ok None
  | Ok n =>
      match Py.float_of_str t2 with
      | Raise _ => Ok None
      | Ok x =>
          Ok (Some {| App.sl_no := n;
                      App.course_code := b;
                      App.course_title := Py.join " " mid;
                      App.course_type := t1;
                      App.credits := x;
                      App.grade := t3;
                      App.exam_month := t4;
                      App.result_declared_on := t5;
                      App.course_option := t6;
                      App.course_distribution := t7 |})
      end
  end.
Proof.
  intros Htok Hmid. unfold App.parse_course_line. rewrite Htok.
  assert ((Py.len (a :: b :: mid ++ [t1; t2; t3; t4; t5; t6; t7]) <? 10) = false)
    as Hlen.
  { apply Z.ltb_ge. unfold Py.len. simpl length. rewrite length_app. simpl.
    destruct mid; [congruence|]. simpl. lia. }
  rewrite Hlen.
  change (Py.index (a :: b :: mid ++ [t1; t2; t3; t4; t5; t6; t7]) 0)
    with (Ok a).
  change (Py.index (a :: b :: mid ++ [t1; t2; t3; t4; t5; t6; t7]) 1)
    with (Ok b).
  destruct (index_tail7 (a :: b :: mid) t1 t2 t3 t4 t5 t6 t7)
    as (H1 & H2 & H3 & H4 & H5 & H6 & H7).
  simpl app in H1, H2, H3, H4, H5, H6, H7.
  rewrite H1, H2, H3, H4, H5, H6, H7.
  pose proof (@slice_middle str [a; b] mid [t1; t2; t3; t4; t5; t6; t7]) as Hs.
  simpl bind.
  destruct (Py.int a) as [n|e] eqn:Ei.
  - destruct (Py.float_of_str t2) as [x|e'] eqn:Ef; simpl; [|reflexivity].
    assert (Py.slice (a :: b :: mid ++ [t1; t2; t3; t4; t5; t6; t7]) 2 (-7) = mid)
      as Hsl by (apply Hs; discriminate).
    now rewrite Hsl.
  - apply int_raises in Ei. now subst e.
Qed.

(** The row parser never raises. *)
Lemma parse_course_line_total (line : str) :
  exists o, App.parse_course_line line = Ok o.
Proof.
  destruct (le_lt_dec 10 (length (Py.split line))) as [H|H].
  - destruct (ten_or_more _ H)
      as (a & b & mid & t1 & t2 & t3 & t4 & t5 & t6 & t7 & Htok & Hmid).
    rewrite (parse_course_line_tokens line a b mid t1 t2 t3 t4 t5 t6 t7 Htok Hmid).
    destruct (Py.int a); [|eauto].
    destruct (Py.float_of_str t2); eauto.
  - unfold App.parse_course_line.
    assert ((Py.len (Py.split line) <? 10) = true) as Hlen
      by (apply Z.ltb_lt; unfold Py.len; lia).
    rewrite Hlen. eauto.
Qed.

Lemma parse_course_line_short (line : str) :
  (length (Py.split line) < 10)%nat -> App.parse_course_line line = Ok None.
Proof.
  intros H. unfold App.parse_course_line.
  assert ((Py.len (Py.split line) <? 10) = true) as Hlen
    by (apply Z.ltb_lt; unfold Py.len; lia).
  now rewrite Hlen.
Qed.

(** What an accepted row looks like. *)
Lemma parse_course_line_some (line : str) (r : App.CourseRecord) :
  App.parse_course_line line = Ok (Some r) ->
  exists a mid t2,
    Py.split line =
      a :: App.course_code r :: mid
        ++ [App.course_type r; t2; App.grade r; App.exam_month r;
            App.result_declared_on r; App.course_option r;
            App.course_distribution r]
    /\ mid <> []
    /\ Py.int a = Ok (App.sl_no r)
    /\ Py.float_of_str t2 = Ok (App.credits r)
    /\ App.course_title r = Py.join " " mid.
Proof.
  intros H.
  destruct (le_lt_dec 10 (length (Py.split line))) as [Hl|Hl].
  - destruct (ten_or_more _ Hl)
      as (a & b & mid & t1 & t2 & t3 & t4 & t5 & t6 & t7 & Htok & Hmid).
    rewrite (parse_course_line_tokens line a b mid t1 t2 t3 t4 t5 t6 t7 Htok Hmid) in H.
    destruct (Py.int a) as [n|] eqn:Ei; [|discriminate].
    destruct (Py.float_of_str t2) as [x|] eqn:Ef; [|discriminate].
    injection H as <-. simpl.
    exists a, mid, t2. repeat split; auto.
  - rewrite (parse_course_line_short line Hl) in H. discriminate.
Qed.

(** ** Character classes *)

Ltac ascii_cases c :=
  destruct c as [[|] [|] [|] [|] [|] [|] [|] [|]];
  vm_compute; try reflexivity; try discriminate; try congruence.

Lemma space_not_digit (c : ascii) :
  Py.is_space c = true -> Py.is_digit c = false.
Proof. ascii_cases c. Qed.

Lemma upper_not_space (c : ascii) :
  Py.is_upper c = true -> Py.is_space c = false.
Proof. ascii_cases c. Qed.

Lemma upper_not_digit (c : ascii) :
  Py.is_upper c = true -> Py.is_digit c = false.
Proof. ascii_cases c. Qed.

Lemma digit_not_upper (c : ascii) :
  Py.is_digit c = true -> Py.is_upper c = false.
Proof. ascii_cases c. Qed.

Lemma digit_not_letter (c : ascii) :
  Py.is_digit c = true -> Py.is_letter c = false.
Proof. ascii_cases c. Qed.

Lemma digit_word (c : ascii) : Py.is_digit c = true -> Py.is_word c = true.
Proof. ascii_cases c. Qed.

Lemma letter_word (c : ascii) : Py.is_letter c = true -> Py.is_word c = true.
Proof. ascii_cases c. Qed.

(** ** [span] *)

Lemma span_app (p : ascii -> bool) (s : str) :
  fst (Py.span p s) ++ snd (Py.span p s) = s.
Proof.
  induction s as [|c r IH]; simpl; [reflexivity|].
  destruct (p c); [|reflexivity].
  destruct (Py.span p r) as [a b]. simpl in *. now rewrite IH.
Qed.

Lemma span_forallb (p : ascii -> bool) (s : str) :
  forallb p (fst (Py.span p s)) = true.
Proof.
  induction s as [|c r IH]; simpl; [reflexivity|].
  destruct (p c) eqn:E; [|reflexivity].
  destruct (Py.span p r) as [a b]. simpl in *. now rewrite E.
Qed.

(** A run of [p] followed by a text that does not start with [p]. *)
Lemma span_stop (p : ascii -> bool) (a b : str) :
  forallb p a = true ->
  match b with
  | [] => True
  | c :: _ => p c = false
  end ->
  Py.span p (a ++ b) = (a, b).
Proof.
  intros Ha Hb. induction a as [|c r IH]; simpl.
  - destruct b as [|c b']; [reflexivity|]. simpl. now rewrite Hb.
  - simpl in Ha. apply andb_true_iff in Ha. destruct Ha as [Hc Hr].
    rewrite Hc. now rewrite (IH Hr).
Qed.

(** ** The anchor pattern *)

Lemma is_code_shape (s : str) :
  Re.is_code s = true ->
  exists a b c d1 d2 d3 d4,
    s = [a; b; c; d1; d2; d3; d4]
    /\ Py.is_upper a = true /\ Py.is_upper b = true /\ Py.is_upper c = true
    /\ Py.is_digit d1 = true /\ Py.is_digit d2 = true
    /\ Py.is_digit d3 = true /\ Py.is_digit d4 = true.
Proof.
  destruct s as [|a [|b [|c [|d1 [|d2 [|d3 [|d4 [|]]]]]]]]; simpl;
    try discriminate.
  intros H. do 6 (apply andb_true_iff in H; destruct H as [H ?]).
  exists a, b, c, d1, d2, d3, d4. repeat split; assumption.
Qed.

(** The pattern of [parse_grade_history] matches a line exactly when
    the line is an anchor in the words of the specification. *)
Lemma row_start_anchor (line : str) :
  Re.row_start line = true <-> Spec.anchor line.
Proof.
  unfold Re.row_start, Spec.anchor. split.
  - pose proof (span_app Py.is_digit line) as H1.
    pose proof (span_forallb Py.is_digit line) as H2.
    destruct (Py.span Py.is_digit line) as [ds r1]. simpl in H1, H2.
    pose proof (span_app Py.is_space r1) as H3.
    pose proof (span_forallb Py.is_space r1) as H4.
    destruct (Py.span Py.is_space r1) as [ws r2]. simpl in H3, H4.
    intros H.
    apply andb_true_iff in H. destruct H as [H Hb].
    apply andb_true_iff in H. destruct H as [H Hc].
    apply andb_true_iff in H. destruct H as [Hds Hws].
    apply negb_true_iff, is_empty_false in Hds, Hws.
    destruct (is_code_shape _ Hc)
      as (a & b & c & d1 & d2 & d3 & d4 & Hs & _ & _ & _ & _ & _ & _ & Hd4).
    assert (r2 = [a; b; c; d1; d2; d3; d4] ++ skipn 7 r2) as Hr2
      by (rewrite <- Hs; symmetry; apply firstn_skipn).
    clear Hs. set (rest := skipn 7 r2) in *. clearbody rest. subst r2.
    exists ds, ws, [a; b; c; d1; d2; d3; d4], rest.
    rewrite H3, H1. repeat split; auto.
    unfold Re.word_boundary in Hb. simpl in Hb.
    rewrite (digit_word d4 Hd4) in Hb.
    destruct rest as [|c' rest]; [exact I|].
    simpl in Hb. now destruct (Py.is_word c').
  - intros (ds & ws & cd & rest & -> & Hds & Hd & Hws & Hw & Hc & Hb).
    destruct (is_code_shape cd Hc)
      as (a & b & c & d1 & d2 & d3 & d4 & -> & Ha & _ & _ & _ & _ & _ & Hd4).
    rewrite (span_stop Py.is_digit ds (ws ++ [a; b; c; d1; d2; d3; d4] ++ rest) Hd).
    + rewrite (span_stop Py.is_space ws ([a; b; c; d1; d2; d3; d4] ++ rest) Hw).
      * simpl firstn. rewrite Hc. simpl.
        apply is_empty_false in Hds, Hws. rewrite Hds, Hws. simpl.
        unfold Re.word_boundary. simpl. rewrite (digit_word d4 Hd4).
        destruct rest as [|c' rest]; [reflexivity|]. simpl. now rewrite Hb.
      * simpl. now apply upper_not_space.
    + destruct ws as [|w ws']; [congruence|]. simpl in *.
      apply andb_true_iff in Hw. destruct Hw as [Hw _].
      now apply space_not_digit.
Qed.

(** ** [parse_grade_history] *)

Lemma flush_rows (records : list App.CourseRecord) (cur : str) :
  App.flush records cur =
  Ok (records ++ if Py.is_empty cur then [] else Spec.row_records cur).
Proof.
  unfold App.flush, Spec.row_records.
  destruct (Py.is_empty cur); [now rewrite app_nil_r|].
  destruct (parse_course_line_total cur) as [o Ho]. rewrite Ho. simpl.
  destruct o; [reflexivity|now rewrite app_nil_r].
Qed.

Lemma flat_map_open_row (cur : str) :
  flat_map Spec.row_records (if Py.is_empty cur then [] else [cur]) =
  if Py.is_empty cur then [] else Spec.row_records cur.
Proof. destruct (Py.is_empty cur); simpl; [reflexivity|apply app_nil_r]. Qed.

(** The loop of [parse_grade_history] and its final flush yield the
    records of the logical rows, in order. *)
Lemma segment_loop_rows (lines : list str) :
  forall (records : list App.CourseRecord) (cur : str),
    (st <- App.segment_loop (records, cur) lines ;;
     App.flush (fst st) (snd st)) =
    Ok (records
        ++ flat_map Spec.row_records
             (Spec.logical_rows cur
                (filter (fun l => negb (Py.is_empty l))
                        (map App.clean_line lines)))).
Proof.
  induction lines as [|raw rest IH]; intros records cur; simpl.
  - rewrite flush_rows. now rewrite flat_map_open_row.
  - destruct (Py.is_empty (App.clean_line raw)) eqn:El; simpl.
    + apply IH.
    + destruct (Re.row_start (App.clean_line raw)) eqn:Ea.
      * rewrite flush_rows. simpl. rewrite IH.
        rewrite flat_map_app, flat_map_open_row. now rewrite app_assoc.
      * destruct (Py.is_empty cur) eqn:Ec; simpl; apply IH.
Qed.

(** The document parser never raises: its result is the records of the
    logical rows of the document. *)
Lemma parse_grade_history_rows (raw_text : str) :
  App.parse_grade_history raw_text =
  Ok (flat_map Spec.row_records
        (Spec.logical_rows [] (Spec.cleaned_lines raw_text))).
Proof.
  unfold App.parse_grade_history, Spec.cleaned_lines.
  now rewrite segment_loop_rows.
Qed.

Lemma malformed_no_record (row : str) :
  Spec.malformed row -> App.parse_course_line row = Ok None.
Proof.
  intros H.
  destruct (le_lt_dec 10 (length (Py.split row))) as [Hl|Hl];
    [|now apply parse_course_line_short].
  destruct (ten_or_more _ Hl)
    as (a & b & mid & t1 & t2 & t3 & t4 & t5 & t6 & t7 & Htok & Hmid).
  rewrite (parse_course_line_tokens row a b mid t1 t2 t3 t4 t5 t6 t7 Htok Hmid).
  unfold Spec.malformed in H. rewrite Htok in H.
  destruct H as [H|[(t & e & Ht & He)|(t & e & Ht & He)]].
  - destruct mid; [congruence|].
    simpl in H. rewrite length_app in H. simpl in H. lia.
  - simpl in Ht. injection Ht as ->. now rewrite He.
  - replace (length (a :: b :: mid ++ [t1; t2; t3; t4; t5; t6; t7]) - 6)%nat
      with (length (a :: b :: mid ++ [t1]))%nat in Ht
      by (simpl; rewrite !length_app; simpl; lia).
    replace (a :: b :: mid ++ [t1; t2; t3; t4; t5; t6; t7])
      with ((a :: b :: mid ++ [t1]) ++ t2 :: [t3; t4; t5; t6; t7]) in Ht
      by (simpl; now rewrite <- app_assoc).
    rewrite nth_error_app2, Nat.sub_diag in Ht by lia.
    simpl in Ht. injection Ht as ->. rewrite He.
    now destruct (Py.int a).
Qed.

(** ** [re.sub] *)

Lemma sub_from_nomatch (m : Re.matcher) (prev : option ascii) (c : ascii)
      (r : str) :
  m prev (c :: r) = None ->
  Re.sub_from m 0 prev (c :: r) = c :: Re.sub_from m 0 (Some c) r.
Proof. intros H. simpl. now rewrite H. Qed.

(** Skipping the rest of a match. *)
Lemma sub_from_skip (m : Re.matcher) (w rest : str) (prev : option ascii) :
  Re.sub_from m (length w) prev (w ++ rest) =
  Re.sub_from m 0 (Re.prev_after prev w) rest.
Proof.
  revert prev. induction w as [|c w IH]; intros prev; simpl.
  - destruct rest; reflexivity.
  - apply IH.
Qed.

Lemma sub_from_match (m : Re.matcher) (prev : option ascii) (w rest repl : str) :
  (0 < length w)%nat ->
  m prev (w ++ rest) = Some (repl, length w) ->
  Re.sub_from m 0 prev (w ++ rest) =
  repl ++ Re.sub_from m 0 (Re.prev_after prev w) rest.
Proof.
  intros Hw Hm. destruct w as [|c w]; [simpl in Hw; lia|].
  simpl in Hm. simpl. rewrite Hm.
  f_equal. apply (sub_from_skip m w rest (Some c)).
Qed.

(** A text in which the pattern matches nowhere is left as it is. *)
Lemma sub_from_quiet (m : Re.matcher) (s : str) (prev : option ascii) :
  Re.quiet m prev s -> Re.sub_from m 0 prev s = s.
Proof.
  revert prev. induction s as [|c r IH]; intros prev H; [reflexivity|].
  destruct H as [H1 H2]. rewrite (sub_from_nomatch m prev c r H1).
  now rewrite (IH (Some c) H2).
Qed.

(** Induction along the scan of [re.sub] for a spacer. *)
Lemma sub_spacer_ind (Q : str -> str -> Prop) (m : Re.matcher)
      (P : option ascii -> str -> str -> Prop) :
  Re.spacer Q m ->
  (forall prev, P prev [] []) ->
  (forall prev c r,
      m prev (c :: r) = None ->
      P (Some c) r (Re.sub_from m 0 (Some c) r) ->
      P prev (c :: r) (c :: Re.sub_from m 0 (Some c) r)) ->
  (forall prev a b rest,
      Q a b -> (0 < length (a ++ b))%nat ->
      m prev (a ++ b ++ rest) = Some (a ++ " " ++ b, length (a ++ b)) ->
      P (Re.prev_after prev (a ++ b)) rest
        (Re.sub_from m 0 (Re.prev_after prev (a ++ b)) rest) ->
      P prev (a ++ b ++ rest)
        (a ++ " " ++ b ++ Re.sub_from m 0 (Re.prev_after prev (a ++ b)) rest)) ->
  forall s prev, P prev s (Re.sub_from m 0 prev s).
Proof.
  intros Hm Hnil Hno Hyes s.
  assert (forall n s, (length s <= n)%nat ->
                      forall prev, P prev s (Re.sub_from m 0 prev s)) as H.
  { clear s. induction n as [|n IH]; intros s Hlen prev.
    - destruct s; [apply Hnil|simpl in Hlen; lia].
    - destruct s as [|c r]; [apply Hnil|].
      destruct (m prev (c :: r)) as [[repl k]|] eqn:E.
      + destruct (Hm prev (c :: r) repl k E)
          as (a & b & rest & Hs & -> & -> & Hk & HQ).
        rewrite Hs in *. rewrite app_assoc.
        rewrite (sub_from_match m prev (a ++ b) rest (a ++ " " ++ b) Hk)
          by (now rewrite <- app_assoc).
        rewrite <- !app_assoc. simpl.
        apply (Hyes prev a b rest HQ Hk E).
        apply IH. rewrite !length_app in *. lia.
      + rewrite (sub_from_nomatch m prev c r E).
        apply Hno; [assumption|]. apply IH. simpl in Hlen. lia. }
  intros prev. now apply (H (length s)).
Qed.

(** ** The two patterns of the normalizer *)

Lemma is_code_length (s : str) : Re.is_code s = true -> length s = 7%nat.
Proof.
  intros H. destruct (is_code_shape s H)
    as (a & b & c & d1 & d2 & d3 & d4 & -> & _). reflexivity.
Qed.

Lemma digits_then_code_some (k : nat) (s repl : str) (n : nat) :
  Re.digits_then_code k s = Some (repl, n) ->
  s = firstn k s ++ firstn 7 (skipn k s) ++ skipn 7 (skipn k s)
  /\ repl = firstn k s ++ " " ++ firstn 7 (skipn k s)
  /\ n = length (firstn k s ++ firstn 7 (skipn k s))
  /\ length (firstn k s) = k
  /\ forallb Py.is_digit (firstn k s) = true
  /\ Re.is_code (firstn 7 (skipn k s)) = true.
Proof.
  unfold Re.digits_then_code.
  destruct ((length (firstn k s) =? k)%nat) eqn:E1; [|discriminate].
  destruct (forallb Py.is_digit (firstn k s)) eqn:E2; [|discriminate].
  destruct (Re.is_code (firstn 7 (skipn k s))) eqn:E3; [|discriminate].
  intros H. injection H as <- <-.
  apply Nat.eqb_eq in E1. rewrite !firstn_skipn.
  rewrite length_app, E1, (is_code_length _ E3). repeat split; reflexivity.
Qed.

Lemma number_code_spacer : Re.spacer Re.number_code_parts Re.number_code.
Proof.
  intros prev s repl n H. unfold Re.number_code in H.
  destruct (Re.word_boundary prev (hd_error s)); [|discriminate].
  assert (exists k, (k = 1 \/ k = 2)%nat
                    /\ Re.digits_then_code k s = Some (repl, n))
    as (k & Hk & Hd).
  { destruct (Re.digits_then_code 2 s) as [r|] eqn:E.
    - exists 2%nat. split; [now right|]. now rewrite E.
    - exists 1%nat. split; [now left|assumption]. }
  destruct (digits_then_code_some k s repl n Hd)
    as (Hs & -> & -> & Hlen & Hdig & Hcode).
  exists (firstn k s), (firstn 7 (skipn k s)), (skipn 7 (skipn k s)).
  repeat split; auto.
  - rewrite length_app, Hlen. lia.
  - rewrite Hlen. destruct Hk; auto.
Qed.

Lemma code_letter_some (prev : option ascii) (s repl : str) (n : nat) :
  Re.code_letter prev s = Some (repl, n) ->
  exists l rest,
    s = firstn 7 s ++ [l] ++ rest
    /\ repl = firstn 7 s ++ " " ++ [l] /\ n = 8%nat
    /\ Re.is_code (firstn 7 s) = true /\ Py.is_letter l = true.
Proof.
  unfold Re.code_letter.
  destruct (skipn 7 s) as [|l rest] eqn:E; [discriminate|].
  destruct (Re.is_code (firstn 7 s)) eqn:E1; [|discriminate].
  destruct (Py.is_letter l) eqn:E2; [|discriminate].
  intros H. injection H as <- <-.
  exists l, rest. repeat split; auto.
  change (s = firstn 7 s ++ l :: rest).
  rewrite <- E. symmetry. apply firstn_skipn.
Qed.

Lemma code_letter_spacer : Re.spacer Re.code_letter_parts Re.code_letter.
Proof.
  intros prev s repl n H.
  destruct (code_letter_some prev s repl n H)
    as (l & rest & Hs & -> & -> & Hc & Hl).
  exists (firstn 7 s), [l], rest. repeat split; auto.
  - rewrite length_app, (is_code_length _ Hc). reflexivity.
  - lia.
  - exists l. auto.
Qed.

(** *** Texts equal up to blanks *)

Lemma blanked_refl (s : str) : Re.blanked s s.
Proof. intros k. now left. Qed.

Lemma blanked_cons (c : ascii) (s t : str) :
  Re.blanked s t -> Re.blanked (c :: s) (c :: t).
Proof.
  intros H [|k]; [now left|]. simpl.
  destruct (H k) as [E|E]; [left; now rewrite E|right; now right].
Qed.

Lemma blanked_app (w s t : str) :
  Re.blanked s t -> Re.blanked (w ++ s) (w ++ t).
Proof. intros H. induction w; simpl; [assumption|now apply blanked_cons]. Qed.

(** The result of [re.sub] for a spacer is its argument up to blanks. *)
Lemma sub_blanked (Q : str -> str -> Prop) (m : Re.matcher) :
  Re.spacer Q m ->
  forall s prev, Re.blanked s (Re.sub_from m 0 prev s).
Proof.
  intros Hm.
  apply (sub_spacer_ind Q m (fun _ s t => Re.blanked s t) Hm).
  - intros prev. apply blanked_refl.
  - intros prev c r _ H. now apply blanked_cons.
  - intros prev a b rest _ _ _ H. apply blanked_app.
    apply (blanked_app (" " ++ b)) in H. simpl in H.
    intros k. destruct (H k) as [E|E]; [|now right].
    destruct k as [|k]; [now left|]. right. simpl. now left.
Qed.

(** *** A match holds no blank and depends on a bounded prefix *)

Lemma blank_digit : Py.is_digit " " = false.
Proof. reflexivity. Qed.

Lemma blank_upper : Py.is_upper " " = false.
Proof. reflexivity. Qed.

Lemma blank_letter : Py.is_letter " " = false.
Proof. reflexivity. Qed.

Lemma blank_word : Py.is_word " " = false.
Proof. reflexivity. Qed.

Lemma firstn_plus {A} (a b : nat) (l : list A) :
  firstn (a + b) l = firstn a l ++ firstn b (skipn a l).
Proof.
  revert l. induction a as [|a IH]; intros l; [reflexivity|].
  destruct l as [|x l]; simpl; [now rewrite firstn_nil|].
  now rewrite IH.
Qed.

Lemma firstn_hd {A} (k : nat) (s t : list A) :
  firstn (S k) s = firstn (S k) t -> hd_error s = hd_error t.
Proof. destruct s, t; simpl; congruence. Qed.

Lemma no_blank_digits (a : str) :
  forallb Py.is_digit a = true -> ~ In " "%char a.
Proof.
  intros H Hin. rewrite forallb_forall in H. specialize (H _ Hin).
  rewrite blank_digit in H. discriminate.
Qed.

Lemma no_blank_code (cd : str) : Re.is_code cd = true -> ~ In " "%char cd.
Proof.
  intros H Hin.
  destruct (is_code_shape cd H)
    as (a & b & c & d1 & d2 & d3 & d4 & -> & Ha & Hb & Hc & H1 & H2 & H3 & H4).
  simpl in Hin.
  repeat (destruct Hin as [->|Hin];
          [rewrite ?blank_upper, ?blank_digit in *; discriminate|]).
  exact Hin.
Qed.

Lemma digits_then_code_local (k : nat) (s : str) :
  Re.digits_then_code k s = Re.digits_then_code k (firstn (k + 7) s).
Proof.
  unfold Re.digits_then_code.
  rewrite firstn_firstn, Nat.min_l by lia.
  rewrite skipn_firstn_comm.
  replace (k + 7 - k)%nat with 7%nat by lia.
  now rewrite firstn_firstn, Nat.min_id.
Qed.

Lemma digits_then_code_solid (k : nat) (t repl : str) (n : nat) :
  Re.digits_then_code k t = Some (repl, n) ->
  ~ In " "%char (firstn (k + 7) t).
Proof.
  intros H. destruct (digits_then_code_some k t repl n H)
    as (_ & _ & _ & _ & Hd & Hc).
  rewrite firstn_plus. intros Hin. apply in_app_or in Hin.
  destruct Hin as [Hin|Hin];
    [now apply (no_blank_digits _ Hd)|now apply (no_blank_code _ Hc)].
Qed.

Lemma digits_then_code_blanked (k : nat) (s t repl : str) (n : nat) :
  Re.blanked s t ->
  Re.digits_then_code k t = Some (repl, n) ->
  Re.digits_then_code k s = Some (repl, n) /\ hd_error s = hd_error t.
Proof.
  intros Hb H.
  destruct (Hb (k + 7)%nat) as [E|E];
    [|now apply (digits_then_code_solid k t repl n H) in E].
  split.
  - now rewrite (digits_then_code_local k s), <- E, <- digits_then_code_local.
  - symmetry. apply (firstn_hd (k + 6)).
    now replace (S (k + 6)) with (k + 7)%nat by lia.
Qed.

(** Blanks inserted into a text create no match of the first pattern. *)
Lemma number_code_blanked (prev : option ascii) (s t : str) :
  Re.blanked s t ->
  Re.number_code prev s = None -> Re.number_code prev t = None.
Proof.
  intros Hb Hs.
  destruct (Re.number_code prev t) as [[repl n]|] eqn:E; [|reflexivity].
  exfalso. unfold Re.number_code in *.
  destruct (Re.word_boundary prev (hd_error t)) eqn:Ew; [|discriminate].
  destruct (Re.digits_then_code 2 t) as [[r2 n2]|] eqn:E2.
  - destruct (digits_then_code_blanked 2 s t r2 n2 Hb E2) as [H2 Hh].
    rewrite Hh, Ew, H2 in Hs. discriminate.
  - destruct (digits_then_code_blanked 1 s t repl n Hb E) as [H1 Hh].
    rewrite Hh, Ew, H1 in Hs.
    destruct (Re.digits_then_code 2 s); discriminate.
Qed.

Lemma code_letter_local (p p' : option ascii) (s : str) :
  Re.code_letter p s = Re.code_letter p' (firstn 8 s).
Proof.
  unfold Re.code_letter.
  rewrite firstn_firstn, skipn_firstn_comm.
  change (Nat.min 7 8) with 7%nat. change (8 - 7)%nat with 1%nat.
  destruct (skipn 7 s); reflexivity.
Qed.

(** Blanks inserted into a text create no match of the second pattern. *)
Lemma code_letter_blanked (p p' : option ascii) (s t : str) :
  Re.blanked s t ->
  Re.code_letter p s = None -> Re.code_letter p' t = None.
Proof.
  intros Hb Hs.
  destruct (Re.code_letter p' t) as [[repl n]|] eqn:E; [|reflexivity].
  exfalso.
  destruct (code_letter_some p' t repl n E)
    as (l & rest & Ht & _ & _ & Hc & Hl).
  destruct (Hb 8%nat) as [E8|E8].
  - rewrite (code_letter_local p p' s), <- E8,
      <- (code_letter_local p' p' t), E in Hs.
    discriminate.
  - change 8%nat with (7 + 1)%nat in E8. rewrite firstn_plus in E8.
    apply in_app_or in E8. destruct E8 as [Hin|Hin].
    + now apply (no_blank_code _ Hc).
    + rewrite Ht in Hin at 1.
      rewrite skipn_app, (is_code_length _ Hc), Nat.sub_diag in Hin.
      rewrite skipn_all2 in Hin by (rewrite (is_code_length _ Hc); lia).
      simpl in Hin. destruct Hin as [->|[]].
      rewrite blank_letter in Hl. discriminate.
Qed.

Lemma glued_at_local (s : str) : Spec.glued_at s = Spec.glued_at (firstn 15 s).
Proof.
  unfold Spec.glued_at.
  rewrite firstn_firstn, skipn_firstn_comm, firstn_firstn.
  change (Nat.min 7 15) with 7%nat. change (Nat.min 7 (15 - 7)) with 7%nat.
  now rewrite (nth_error_firstn 15 s 14), (proj2 (Nat.ltb_lt 14 15)) by lia.
Qed.

Lemma glued_at_solid (t : str) :
  Spec.glued_at t = true -> ~ In " "%char (firstn 15 t).
Proof.
  unfold Spec.glued_at. intros H.
  apply andb_true_iff in H. destruct H as [H Hl].
  apply andb_true_iff in H. destruct H as [H1 H2].
  change 15%nat with (7 + (7 + 1))%nat. rewrite !firstn_plus.
  intros Hin. apply in_app_or in Hin. destruct Hin as [Hin|Hin];
    [now apply (no_blank_code _ H1)|].
  apply in_app_or in Hin. destruct Hin as [Hin|Hin];
    [now apply (no_blank_code _ H2)|].
  rewrite skipn_skipn in Hin. change (7 + 7)%nat with 14%nat in Hin.
  destruct (nth_error t 14) as [l|] eqn:El; [|discriminate].
  apply nth_error_split in El. destruct El as (l1 & l2 & -> & Hlen).
  rewrite skipn_app, Hlen, Nat.sub_diag in Hin.
  rewrite skipn_all2 in Hin by lia. simpl in Hin.
  destruct Hin as [->|[]]. rewrite blank_letter in Hl. discriminate.
Qed.

(** Blanks inserted into a text glue no codes. *)
Lemma glued_at_blanked (s t : str) :
  Re.blanked s t -> Spec.glued_at s = false -> Spec.glued_at t = false.
Proof.
  intros Hb Hs. destruct (Spec.glued_at t) eqn:E; [|reflexivity].
  destruct (Hb 15%nat) as [E15|E15];
    [|now apply (glued_at_solid t E) in E15].
  now rewrite (glued_at_local s), <- E15, <- glued_at_local, E in Hs.
Qed.

(** *** Scanning a text the patterns have rewritten *)

Arguments Py.is_digit : simpl never.
Arguments Py.is_upper : simpl never.
Arguments Py.is_letter : simpl never.
Arguments Py.is_word : simpl never.
Arguments Spec.glued_at : simpl never.

Lemma upper_letter (c : ascii) : Py.is_upper c = true -> Py.is_letter c = true.
Proof. intros H. unfold Py.is_letter. now rewrite H. Qed.

Lemma letter_not_digit (c : ascii) :
  Py.is_letter c = true -> Py.is_digit c = false.
Proof. ascii_cases c. Qed.

(** Everything the class of a character says about the other classes. *)
Ltac class_facts :=
  repeat match goal with
  | H : Py.is_digit ?x = true |- _ =>
      lazymatch goal with
      | _ : Py.is_word x = true |- _ => fail
      | _ => pose proof (digit_word x H); pose proof (digit_not_upper x H);
             pose proof (digit_not_letter x H)
      end
  | H : Py.is_upper ?x = true |- _ =>
      lazymatch goal with
      | _ : Py.is_letter x = true |- _ => fail
      | _ => pose proof (upper_letter x H); pose proof (upper_not_digit x H)
      end
  | H : Py.is_letter ?x = true |- _ =>
      lazymatch goal with
      | _ : Py.is_word x = true |- _ => fail
      | _ => pose proof (letter_word x H); pose proof (letter_not_digit x H)
      end
  end.

Ltac class_rewrite :=
  repeat match goal with
  | H : Py.is_digit ?x = _ |- context [Py.is_digit ?x] => rewrite H
  | H : Py.is_upper ?x = _ |- context [Py.is_upper ?x] => rewrite H
  | H : Py.is_letter ?x = _ |- context [Py.is_letter ?x] => rewrite H
  | H : Py.is_word ?x = _ |- context [Py.is_word ?x] => rewrite H
  | |- context [Py.is_digit " "] => rewrite blank_digit
  | |- context [Py.is_upper " "] => rewrite blank_upper
  | |- context [Py.is_letter " "] => rewrite blank_letter
  | |- context [Py.is_word " "] => rewrite blank_word
  end.

(** A pattern fails at a position whose first characters are known. *)
Ltac no_match :=
  unfold Re.number_code, Re.code_letter, Re.digits_then_code,
    Re.word_boundary, Re.wordish, Spec.glued_at;
  repeat (simpl; class_rewrite);
  try reflexivity;
  repeat match goal with
  | |- context [match ?l with _ => _ end] =>
      is_var l; destruct l; repeat (simpl; class_rewrite); try reflexivity
  end;
  repeat match goal with
  | |- context [if ?b then _ else _] => destruct b; simpl; try reflexivity
  end.

Lemma number_code_after_match (a b X : str) (prev : option ascii) :
  Re.number_code_parts a b ->
  Re.quiet Re.number_code (Re.prev_after prev (a ++ b)) X ->
  Re.quiet Re.number_code prev (a ++ " " ++ b ++ X).
Proof.
  intros (Hlen & Hd & Hc) HX.
  destruct (is_code_shape b Hc)
    as (A & B & C & d1 & d2 & d3 & d4 & -> & HA & HB & HC & H1 & H2 & H3 & H4).
  destruct a as [|e1 [|e2 [|]]]; simpl in Hlen; try lia.
  - simpl in Hd. apply andb_true_iff in Hd. destruct Hd as [He1 _].
    class_facts. simpl in HX. simpl. repeat split; try assumption; no_match.
  - simpl in Hd. apply andb_true_iff in Hd. destruct Hd as [He1 Hd].
    apply andb_true_iff in Hd. destruct Hd as [He2 _].
    class_facts. simpl in HX. simpl. repeat split; try assumption; no_match.
Qed.

Lemma quiet_app (m : Re.matcher) (w r : str) (prev : option ascii) :
  Re.quiet m prev (w ++ r) -> Re.quiet m (Re.prev_after prev w) r.
Proof.
  revert prev. induction w as [|c w IH]; intros prev H; [exact H|].
  destruct H as [_ H]. apply (IH _ H).
Qed.

(** The first pattern matches nowhere in the text it has rewritten. *)
Lemma number_code_sub_quiet (s : str) (prev : option ascii) :
  Re.quiet Re.number_code prev (Re.sub_from Re.number_code 0 prev s).
Proof.
  revert s prev.
  apply (sub_spacer_ind Re.number_code_parts Re.number_code
           (fun prev _ t => Re.quiet Re.number_code prev t)
           number_code_spacer).
  - intros prev. exact I.
  - intros prev c r Hn IH. split; [|exact IH].
    apply (number_code_blanked prev (c :: r)); [|exact Hn].
    apply blanked_cons. apply (sub_blanked Re.number_code_parts Re.number_code number_code_spacer).
  - intros prev a b rest HQ _ _ IH.
    now apply number_code_after_match.
Qed.

Lemma number_code_after_code_letter (a b X : str) (prev : option ascii) :
  Re.code_letter_parts a b ->
  Re.quiet Re.number_code (Re.prev_after prev (a ++ b)) X ->
  Re.quiet Re.number_code prev (a ++ " " ++ b ++ X).
Proof.
  intros (Hc & l & -> & Hl) HX.
  destruct (is_code_shape a Hc)
    as (A & B & C & d1 & d2 & d3 & d4 & -> & HA & HB & HC & H1 & H2 & H3 & H4).
  class_facts. simpl in HX. simpl. repeat split; try assumption; no_match.
Qed.

(** The second pattern leaves no match of the first in a text that had
    none. *)
Lemma code_letter_sub_keeps_quiet (s : str) (prev : option ascii) :
  Re.quiet Re.number_code prev s ->
  Re.quiet Re.number_code prev (Re.sub_from Re.code_letter 0 prev s).
Proof.
  revert s prev.
  apply (sub_spacer_ind Re.code_letter_parts Re.code_letter
           (fun prev s t => Re.quiet Re.number_code prev s ->
                            Re.quiet Re.number_code prev t)
           code_letter_spacer).
  - intros prev _. exact I.
  - intros prev c r _ IH [Hn Hq]. split; [|exact (IH Hq)].
    apply (number_code_blanked prev (c :: r)); [|exact Hn].
    apply blanked_cons. apply (sub_blanked Re.code_letter_parts Re.code_letter code_letter_spacer).
  - intros prev a b rest HQ _ _ IH Hq.
    apply number_code_after_code_letter; [exact HQ|].
    apply IH. rewrite app_assoc in Hq. now apply quiet_app.
Qed.

Lemma nth_error_skipn_hd {A} (n : nat) (l : list A) :
  nth_error l n = hd_error (skipn n l).
Proof.
  revert l. induction n as [|n IH]; intros [|x l]; simpl; auto.
Qed.

(** A code followed by a text that starts with a match of the second
    pattern is a pair of glued codes. *)
Lemma glued_head (cd s : str) (prev : option ascii) :
  Re.is_code cd = true ->
  Spec.glued_at (cd ++ s) = false -> Re.code_letter prev s = None.
Proof.
  intros Hc Hg. pose proof (is_code_length cd Hc) as Hlen.
  unfold Spec.glued_at in Hg. unfold Re.code_letter.
  rewrite firstn_app, skipn_app, Hlen in Hg.
  rewrite firstn_all2, skipn_all2 in Hg by lia.
  change (7 - 7)%nat with 0%nat in Hg.
  rewrite firstn_O, skipn_O, app_nil_r, app_nil_l, Hc in Hg.
  rewrite nth_error_app2, Hlen in Hg by lia.
  change (14 - 7)%nat with 7%nat in Hg.
  rewrite nth_error_skipn_hd, andb_true_l in Hg.
  destruct (skipn 7 s) as [|l r]; [reflexivity|].
  change (hd_error (l :: r)) with (Some l) in Hg. cbv beta match in Hg.
  now rewrite Hg.
Qed.

Lemma no_glued_suffix (w r : str) :
  Spec.no_glued (w ++ r) = true -> Spec.no_glued r = true.
Proof.
  induction w as [|c w IH]; [auto|]. simpl. intros H.
  apply andb_true_iff in H. now apply IH.
Qed.

Lemma no_glued_head (s : str) :
  Spec.no_glued s = true -> Spec.glued_at s = false.
Proof.
  destruct s as [|c r]; [reflexivity|]. simpl. intros H.
  apply andb_true_iff in H. destruct H as [H _]. now apply negb_true_iff.
Qed.

Lemma code_letter_after_match (a b X : str) (prev : option ascii) :
  Re.code_letter_parts a b ->
  (forall p, Re.code_letter p (b ++ X) = None) ->
  Re.quiet Re.code_letter (Re.prev_after prev (a ++ b)) X ->
  Re.quiet Re.code_letter prev (a ++ " " ++ b ++ X).
Proof.
  intros (Hc & l & -> & Hl) Hb HX.
  destruct (is_code_shape a Hc)
    as (A & B & C & d1 & d2 & d3 & d4 & -> & HA & HB & HC & H1 & H2 & H3 & H4).
  class_facts. simpl in HX. simpl.
  repeat split; try assumption; try apply Hb; no_match.
Qed.

(** The second pattern matches nowhere in the text it has rewritten,
    when no codes were glued in it. *)
Lemma code_letter_sub_quiet (s : str) (prev : option ascii) :
  Spec.no_glued s = true ->
  Re.quiet Re.code_letter prev (Re.sub_from Re.code_letter 0 prev s).
Proof.
  revert s prev.
  apply (sub_spacer_ind Re.code_letter_parts Re.code_letter
           (fun prev s t => Spec.no_glued s = true ->
                            Re.quiet Re.code_letter prev t)
           code_letter_spacer).
  - intros prev _. exact I.
  - intros prev c r Hn IH Hg. simpl in Hg.
    apply andb_true_iff in Hg. destruct Hg as [_ Hg].
    split; [|exact (IH Hg)].
    apply (code_letter_blanked prev prev (c :: r)); [|exact Hn].
    apply blanked_cons.
    apply (sub_blanked Re.code_letter_parts Re.code_letter code_letter_spacer).
  - intros prev a b rest HQ _ _ IH Hg.
    apply code_letter_after_match; [exact HQ| |].
    + intros p. apply (code_letter_blanked p p (b ++ rest)).
      * apply blanked_app.
        apply (sub_blanked Re.code_letter_parts Re.code_letter
                 code_letter_spacer).
      * apply (glued_head a); [exact (proj1 HQ)|].
        now apply no_glued_head.
    + apply IH. rewrite app_assoc in Hg. now apply no_glued_suffix in Hg.
Qed.

Lemma no_glued_after_match (a b X : str) :
  Re.number_code_parts a b ->
  Spec.glued_at (b ++ X) = false ->
  Spec.no_glued X = true ->
  Spec.no_glued (a ++ " " ++ b ++ X) = true.
Proof.
  intros (Hlen & Hd & Hc) Hb HX.
  destruct (is_code_shape b Hc)
    as (A & B & C & d1 & d2 & d3 & d4 & -> & HA & HB & HC & H1 & H2 & H3 & H4).
  destruct a as [|e1 [|e2 [|]]]; simpl in Hlen; try lia.
  - simpl in Hd. apply andb_true_iff in Hd. destruct Hd as [He1 _].
    class_facts. simpl in Hb. simpl. rewrite Hb, HX.
    repeat (apply andb_true_iff; split); try reflexivity;
      apply negb_true_iff; no_match.
  - simpl in Hd. apply andb_true_iff in Hd. destruct Hd as [He1 Hd].
    apply andb_true_iff in Hd. destruct Hd as [He2 _].
    class_facts. simpl in Hb. simpl. rewrite Hb, HX.
    repeat (apply andb_true_iff; split); try reflexivity;
      apply negb_true_iff; no_match.
Qed.

(** The first pattern glues no codes. *)
Lemma number_code_sub_no_glued (s : str) (prev : option ascii) :
  Spec.no_glued s = true ->
  Spec.no_glued (Re.sub_from Re.number_code 0 prev s) = true.
Proof.
  revert s prev.
  apply (sub_spacer_ind Re.number_code_parts Re.number_code
           (fun _ s t => Spec.no_glued s = true -> Spec.no_glued t = true)
           number_code_spacer).
  - intros prev H. exact H.
  - intros prev c r _ IH Hg. simpl in Hg. simpl.
    apply andb_true_iff in Hg. destruct Hg as [Hh Hg].
    apply andb_true_iff. split; [|exact (IH Hg)].
    apply negb_true_iff in Hh. apply negb_true_iff.
    apply (glued_at_blanked (c :: r)); [|exact Hh].
    apply blanked_cons.
    apply (sub_blanked Re.number_code_parts Re.number_code number_code_spacer).
  - intros prev a b rest HQ _ _ IH Hg.
    apply no_glued_suffix in Hg.
    apply no_glued_after_match; [exact HQ| |].
    + apply (glued_at_blanked (b ++ rest)); [|now apply no_glued_head].
      apply blanked_app.
      apply (sub_blanked Re.number_code_parts Re.number_code
               number_code_spacer).
    + apply IH. now apply no_glued_suffix in Hg.
Qed.

(** ** The reader of the csv module *)

Arguments Csv.quote : simpl never.
Arguments Csv.comma : simpl never.
Arguments Csv.LF : simpl never.
Arguments Csv.CR : simpl never.

Lemma special_false (c : ascii) :
  Csv.special c = false ->
  (c =? Csv.comma)%char = false /\ (c =? Csv.quote)%char = false
  /\ (c =? Csv.CR)%char = false /\ (c =? Csv.LF)%char = false.
Proof.
  unfold Csv.special. intros H.
  repeat (apply orb_false_iff in H; destruct H as [H ?]). auto.
Qed.

Lemma parse_add_char_ok (st : Csv.parser_state) (fs : list str) (fl : str)
      (c : ascii) :
  (N.of_nat (length (fl ++ [c])) <= Csv.field_limit)%N ->
  Csv.parse_add_char (Csv.Build_reader st fs fl) c
  = Ok (Csv.Build_reader st fs (fl ++ [c])).
Proof.
  intros H. unfold Csv.parse_add_char. simpl.
  rewrite length_app in H. simpl in H.
  destruct (Csv.field_limit <=? N.of_nat (length fl))%N eqn:E; [|reflexivity].
  apply N.leb_le in E. lia.
Qed.

Lemma feed_app (a b : str) (r : Csv.reader) :
  Csv.feed r (a ++ b) =
  match Csv.feed r a with
  | Some r1 => Csv.feed r1 b
  | None => None
  end.
Proof.
  revert r. induction a as [|c a IH]; intros r; simpl; [reflexivity|].
  destruct (Csv.parse_process_char r (Some c)) as [r1|]; [|reflexivity].
  destruct (c =? Csv.LF)%char; [|apply IH].
  destruct (Csv.parse_process_char r1 None) as [r2|]; [|reflexivity].
  destruct (Csv.at_start r2); [reflexivity|apply IH].
Qed.

(** An unquoted field, once begun. *)
Lemma feed_plain (w : str) (fs : list str) (fl : str) :
  forallb (fun c => negb (Csv.special c)) w = true ->
  (N.of_nat (length (fl ++ w)) <= Csv.field_limit)%N ->
  Csv.feed (Csv.Build_reader Csv.IN_FIELD fs fl) w
  = Some (Csv.Build_reader Csv.IN_FIELD fs (fl ++ w)).
Proof.
  revert fl. induction w as [|c w IH]; intros fl Hw Hlen; simpl.
  - now rewrite app_nil_r.
  - simpl in Hw. apply andb_true_iff in Hw. destruct Hw as [Hc Hw].
    apply negb_true_iff in Hc.
    destruct (special_false c Hc) as (H1 & H2 & H3 & H4).
    unfold Csv.parse_process_char, Csv.is_newline. simpl.
    rewrite H1, H3, H4. simpl.
    rewrite parse_add_char_ok
      by (rewrite length_app in *; simpl in *; lia).
    rewrite IH; [now rewrite <- app_assoc|assumption|].
    now rewrite <- app_assoc.
Qed.

Lemma step_quoted_quote (fs : list str) (fl : str) :
  Csv.parse_process_char (Csv.Build_reader Csv.IN_QUOTED_FIELD fs fl)
                         (Some Csv.quote)
  = Ok (Csv.Build_reader Csv.QUOTE_IN_QUOTED_FIELD fs fl).
Proof. reflexivity. Qed.

Lemma step_quoted_char (fs : list str) (fl : str) (c : ascii) :
  (c =? Csv.quote)%char = false ->
  (N.of_nat (length (fl ++ [c])) <= Csv.field_limit)%N ->
  Csv.parse_process_char (Csv.Build_reader Csv.IN_QUOTED_FIELD fs fl) (Some c)
  = Ok (Csv.Build_reader Csv.IN_QUOTED_FIELD fs (fl ++ [c])).
Proof.
  intros Hq Hlen. unfold Csv.parse_process_char. simpl. rewrite Hq.
  now apply parse_add_char_ok.
Qed.

Lemma step_quoted_eol (fs : list str) (fl : str) :
  Csv.parse_process_char (Csv.Build_reader Csv.IN_QUOTED_FIELD fs fl) None
  = Ok (Csv.Build_reader Csv.IN_QUOTED_FIELD fs fl).
Proof. reflexivity. Qed.

Lemma step_doubled_quote (fs : list str) (fl : str) :
  (N.of_nat (length (fl ++ [Csv.quote])) <= Csv.field_limit)%N ->
  Csv.parse_process_char (Csv.Build_reader Csv.QUOTE_IN_QUOTED_FIELD fs fl)
                         (Some Csv.quote)
  = Ok (Csv.Build_reader Csv.IN_QUOTED_FIELD fs (fl ++ [Csv.quote])).
Proof.
  intros Hlen. unfold Csv.parse_process_char. simpl.
  now rewrite parse_add_char_ok.
Qed.

Arguments Csv.parse_process_char : simpl never.

(** The inside of a quoted field. *)
Lemma feed_quoted (w : str) (fs : list str) (fl : str) :
  (N.of_nat (length (fl ++ w)) <= Csv.field_limit)%N ->
  Csv.feed (Csv.Build_reader Csv.IN_QUOTED_FIELD fs fl) (Csv.double_quotes w)
  = Some (Csv.Build_reader Csv.IN_QUOTED_FIELD fs (fl ++ w)).
Proof.
  revert fl. induction w as [|c w IH]; intros fl Hlen;
    cbn [Csv.double_quotes].
  - cbn [Csv.feed]. now rewrite app_nil_r.
  - assert (N.of_nat (length (fl ++ [c])) <= Csv.field_limit)%N as Hc
      by (rewrite length_app in *; simpl in *; lia).
    assert (N.of_nat (length ((fl ++ [c]) ++ w)) <= Csv.field_limit)%N as Hw
      by now rewrite <- app_assoc.
    destruct (c =? Csv.quote)%char eqn:Eq.
    + apply Ascii.eqb_eq in Eq. subst c. cbn [Csv.feed].
      rewrite step_quoted_quote.
      change (Csv.quote =? Csv.LF)%char with false. cbv iota.
      rewrite step_doubled_quote by assumption.
      rewrite IH by assumption. now rewrite <- app_assoc.
    + cbn [Csv.feed]. rewrite step_quoted_char by assumption.
      destruct (c =? Csv.LF)%char;
        [rewrite step_quoted_eol; cbn [Csv.at_start Csv.state]|];
        rewrite IH by assumption; now rewrite <- app_assoc.
Qed.

Lemma step_fresh_comma (st : Csv.parser_state) (fs : list str) :
  fresh st ->
  Csv.parse_process_char (Csv.Build_reader st fs []) (Some Csv.comma)
  = Ok (Csv.Build_reader Csv.START_FIELD (fs ++ [[]]) []).
Proof. intros [->| ->]; reflexivity. Qed.

Lemma step_fresh_quote (st : Csv.parser_state) (fs : list str) :
  fresh st ->
  Csv.parse_process_char (Csv.Build_reader st fs []) (Some Csv.quote)
  = Ok (Csv.Build_reader Csv.IN_QUOTED_FIELD fs []).
Proof. intros [->| ->]; reflexivity. Qed.

Lemma step_fresh_char (st : Csv.parser_state) (fs : list str) (c : ascii) :
  fresh st -> Csv.special c = false ->
  Csv.parse_process_char (Csv.Build_reader st fs []) (Some c)
  = Ok (Csv.Build_reader Csv.IN_FIELD fs [c]).
Proof.
  intros Hst Hc. destruct (special_false c Hc) as (H1 & H2 & H3 & H4).
  destruct Hst as [->| ->]; unfold Csv.parse_process_char, Csv.start_field,
    Csv.is_newline; simpl; rewrite H1, H2, H3, H4; reflexivity.
Qed.

Lemma feed_field (st : Csv.parser_state) (fs : list str) (f : str) :
  fresh st ->
  (N.of_nat (length f) <= Csv.field_limit)%N ->
  Csv.feed (Csv.Build_reader st fs []) (Csv.write_field f)
  = Some (field_read st fs f).
Proof.
  intros Hst Hlen. unfold Csv.write_field, field_read.
  destruct (existsb Csv.special f) eqn:E.
  - cbn [Csv.feed]. rewrite (step_fresh_quote st fs Hst).
    change (Csv.quote =? Csv.LF)%char with false. cbv iota.
    rewrite feed_app, (feed_quoted f fs []) by assumption.
    cbn [Csv.feed app]. rewrite step_quoted_quote.
    change (Csv.quote =? Csv.LF)%char with false. reflexivity.
  - destruct f as [|c w]; [reflexivity|].
    cbn [existsb] in E. apply orb_false_iff in E. destruct E as [Ec Ew].
    cbn [Csv.feed]. rewrite (step_fresh_char st fs c Hst Ec).
    destruct (special_false c Ec) as (_ & _ & _ & ->).
    rewrite (feed_plain w fs [c]); [reflexivity| |assumption].
    clear -Ew. induction w as [|a w IH]; [reflexivity|].
    cbn [existsb forallb] in *.
    apply orb_false_iff in Ew. destruct Ew as [-> Ew].
    now rewrite IH.
Qed.

Lemma field_read_comma (st : Csv.parser_state) (fs : list str) (f : str) :
  fresh st ->
  Csv.parse_process_char (field_read st fs f) (Some Csv.comma)
  = Ok (Csv.Build_reader Csv.START_FIELD (fs ++ [f]) []).
Proof.
  intros Hst. unfold field_read.
  destruct (existsb Csv.special f); [reflexivity|].
  destruct f; [now apply step_fresh_comma|reflexivity].
Qed.

Lemma field_read_end (fs : list str) (f : str) :
  exists r,
    Csv.parse_process_char (field_read Csv.START_FIELD fs f) (Some Csv.LF)
    = Ok r
    /\ Csv.parse_process_char r None
       = Ok (Csv.Build_reader Csv.START_RECORD (fs ++ [f]) []).
Proof.
  unfold field_read.
  destruct (existsb Csv.special f); [eexists; split; reflexivity|].
  destruct f; eexists; split; reflexivity.
Qed.

(** The text of a row of two fields or more, up to its line end. *)
Lemma feed_row (row : list str) :
  forall (st : Csv.parser_state) (fs : list str),
    fresh st ->
    (st = Csv.START_FIELD \/ 2 <= length row)%nat ->
    row <> [] ->
    Forall (fun f => (N.of_nat (length f) <= Csv.field_limit)%N) row ->
    exists r1 r2,
      Csv.feed (Csv.Build_reader st fs [])
               (Py.join [Csv.comma] (map Csv.write_field row)) = Some r1
      /\ Csv.parse_process_char r1 (Some Csv.LF) = Ok r2
      /\ Csv.parse_process_char r2 None
         = Ok (Csv.Build_reader Csv.START_RECORD (fs ++ row) []).
Proof.
  induction row as [|f row IH]; intros st fs Hst Hlen Hne Hok; [congruence|].
  inversion Hok as [|? ? Hf Hrow]; subst.
  destruct row as [|g row].
  - destruct Hlen as [->|Hlen]; [|simpl in Hlen; lia].
    destruct (field_read_end fs f) as (r2 & H1 & H2).
    exists (field_read Csv.START_FIELD fs f), r2.
    simpl. rewrite feed_field by (assumption || now right). auto.
  - destruct (IH Csv.START_FIELD (fs ++ [f])) as (r1 & r2 & H1 & H2 & H3);
      [now right|now left|discriminate|assumption|].
    exists r1, r2. split; [|split; [assumption|]].
    + change (Py.join [Csv.comma] (map Csv.write_field (f :: g :: row)))
        with (Csv.write_field f ++ [Csv.comma]
              ++ Py.join [Csv.comma] (map Csv.write_field (g :: row))).
      rewrite feed_app, feed_field by assumption.
      change ([Csv.comma] ++ Py.join [Csv.comma] (map Csv.write_field (g :: row)))
        with (Csv.comma
              :: Py.join [Csv.comma] (map Csv.write_field (g :: row))).
      cbn [Csv.feed]. rewrite field_read_comma by assumption.
      change (Csv.comma =? Csv.LF)%char with false. cbv iota. exact H1.
    + rewrite H3. now rewrite <- app_assoc.
Qed.

Lemma parse_chars_snoc (r : Csv.reader) (a : str) (c : ascii) :
  Csv.parse_chars r (a ++ [c]) =
  (r1 <- Csv.parse_chars r a ;; Csv.parse_process_char r1 (Some c)).
Proof.
  revert r. induction a as [|x a IH]; intros r;
    cbn [Csv.parse_chars app bind].
  - destruct (Csv.parse_process_char r (Some c)); reflexivity.
  - destruct (Csv.parse_process_char r (Some x)) as [r1|];
      cbn [bind]; [apply IH|reflexivity].
Qed.

(** A stretch of text inside a record moves the reader over the lines
    as [feed] says. *)
Lemma read_rows_feed (w : str) :
  forall (r0 : Csv.reader) (cur : str) (r r' : Csv.reader),
    Csv.parse_chars r0 cur = Ok r ->
    Csv.feed r w = Some r' ->
    exists r0' cur',
      Csv.parse_chars r0' cur' = Ok r'
      /\ forall rest,
           Csv.read_rows r0 (Csv.lines_from cur (w ++ rest))
           = Csv.read_rows r0' (Csv.lines_from cur' rest).
Proof.
  induction w as [|c w IH]; intros r0 cur r r' Hcur Hfeed.
  - injection Hfeed as <-. exists r0, cur. auto.
  - cbn [Csv.feed] in Hfeed.
    destruct (Csv.parse_process_char r (Some c)) as [r1|] eqn:E1;
      [|discriminate].
    assert (Csv.parse_chars r0 (cur ++ [c]) = Ok r1) as Hcur1
      by (rewrite parse_chars_snoc, Hcur; exact E1).
    destruct (c =? Csv.LF)%char eqn:Ec.
    + destruct (Csv.parse_process_char r1 None) as [r2|] eqn:E2;
        [|discriminate].
      destruct (Csv.at_start r2) eqn:E3; [discriminate|].
      destruct (IH r2 [] r2 r' eq_refl Hfeed) as (r0' & cur' & H1 & H2).
      exists r0', cur'. split; [assumption|]. intros rest.
      cbn [app Csv.lines_from]. rewrite Ec. cbn [Csv.read_rows].
      unfold Csv.parse_line. rewrite Hcur1. cbn [bind]. rewrite E2, E3.
      apply H2.
    + destruct (IH r0 (cur ++ [c]) r1 r' Hcur1 Hfeed) as (r0' & cur' & H1 & H2).
      exists r0', cur'. split; [assumption|]. intros rest.
      cbn [app Csv.lines_from]. rewrite Ec. apply H2.
Qed.

(** The line feed that ends a record. *)
Lemma read_rows_line_end (r0 : Csv.reader) (cur : str) (r r2 r3 : Csv.reader)
      (rest : str) :
  Csv.parse_chars r0 cur = Ok r ->
  Csv.parse_process_char r (Some Csv.LF) = Ok r2 ->
  Csv.parse_process_char r2 None = Ok r3 ->
  Csv.at_start r3 = true ->
  Csv.read_rows r0 (Csv.lines_from cur (Csv.LF :: rest)) =
  (Csv.fields r3 :: fst (Csv.read_rows Csv.parse_reset (Csv.lines_from [] rest)),
   snd (Csv.read_rows Csv.parse_reset (Csv.lines_from [] rest))).
Proof.
  intros Hcur H2 H3 Hs.
  cbn [Csv.lines_from]. change (Csv.LF =? Csv.LF)%char with true. cbv iota.
  cbn [Csv.read_rows]. unfold Csv.parse_line.
  rewrite parse_chars_snoc, Hcur. cbn [bind]. rewrite H2. cbn [bind].
  rewrite H3, Hs.
  now destruct (Csv.read_rows Csv.parse_reset (Csv.lines_from [] rest)).
Qed.

Lemma read_rows_row (row : list str) (rest : str) :
  readable row ->
  Csv.read_rows Csv.parse_reset (Csv.lines_from [] (row_text row ++ Csv.LF :: rest)) =
  (row :: fst (Csv.read_rows Csv.parse_reset (Csv.lines_from [] rest)),
   snd (Csv.read_rows Csv.parse_reset (Csv.lines_from [] rest))).
Proof.
  intros [Hlen Hok].
  destruct (feed_row row Csv.START_RECORD []) as (r1 & r2 & H1 & H2 & H3);
    [now left|now right|destruct row; [simpl in Hlen; lia|discriminate]
    |assumption|].
  destruct (read_rows_feed (row_text row) Csv.parse_reset [] Csv.parse_reset r1
              eq_refl H1) as (r0' & cur' & Hc & Hr).
  rewrite Hr.
  now rewrite (read_rows_line_end r0' cur' r1 r2 _ rest Hc H2 H3 eq_refl).
Qed.

Lemma read_rows_all (rows : list (list str)) :
  Forall readable rows ->
  Csv.read_rows Csv.parse_reset
    (Csv.lines_from [] (concat (map (fun row => row_text row ++ [Csv.LF]) rows)))
  = (rows, None).
Proof.
  induction 1 as [|row rows Hrow _ IH]; [reflexivity|].
  cbn [map concat]. rewrite <- app_assoc. cbn [app].
  rewrite (read_rows_row row _ Hrow). now rewrite IH.
Qed.

(** *** Universal newlines *)

Lemma universal_newlines_app (a b : str) :
  ~ In Csv.CR a ->
  Csv.universal_newlines (a ++ b) = a ++ Csv.universal_newlines b.
Proof.
  induction a as [|c a IH]; intros H; [reflexivity|].
  cbn [app Csv.universal_newlines].
  destruct (c =? Csv.CR)%char eqn:E.
  - apply Ascii.eqb_eq in E. subst c. exfalso. apply H. now left.
  - rewrite IH; [reflexivity|]. intros Hin. apply H. now right.
Qed.

Lemma double_quotes_no_CR (f : str) :
  ~ In Csv.CR f -> ~ In Csv.CR (Csv.double_quotes f).
Proof.
  induction f as [|c f IH]; intros H; [exact H|].
  cbn [Csv.double_quotes].
  assert (~ In Csv.CR (Csv.double_quotes f)) as IH'
    by (apply IH; intros Hin; apply H; now right).
  destruct (c =? Csv.quote)%char eqn:E.
  - intros [Hq|[Hq|Hin]]; try discriminate Hq. now apply IH'.
  - intros [Hq|Hin]; [apply H; now left|now apply IH'].
Qed.

Lemma write_field_no_CR (f : str) :
  ~ In Csv.CR f -> ~ In Csv.CR (Csv.write_field f).
Proof.
  intros H. unfold Csv.write_field.
  destruct (existsb Csv.special f); [|exact H].
  intros [Hq|Hin]; [discriminate Hq|].
  apply in_app_or in Hin. destruct Hin as [Hin|[Hq|[]]];
    [now apply (double_quotes_no_CR f H)|discriminate Hq].
Qed.

Lemma row_text_no_CR (row : list str) :
  Forall (fun f => ~ In Csv.CR f) row -> ~ In Csv.CR (row_text row).
Proof.
  unfold row_text. induction 1 as [|f row Hf Hrow IH]; [intros []|].
  destruct row as [|g row]; [now apply write_field_no_CR|].
  change (Py.join [Csv.comma] (map Csv.write_field (f :: g :: row)))
    with (Csv.write_field f ++ Csv.comma
          :: Py.join [Csv.comma] (map Csv.write_field (g :: row))).
  intros Hin. apply in_app_or in Hin. destruct Hin as [Hin|[Hq|Hin]].
  - now apply (write_field_no_CR f Hf).
  - discriminate Hq.
  - now apply IH.
Qed.

Lemma row_text_nonempty (row : list str) :
  (2 <= length row)%nat -> Py.is_empty (row_text row) = false.
Proof.
  destruct row as [|f [|g row]]; simpl; try lia. intros _.
  unfold row_text.
  change (Py.join [Csv.comma] (map Csv.write_field (f :: g :: row)))
    with (Csv.write_field f ++ Csv.comma
          :: Py.join [Csv.comma] (map Csv.write_field (g :: row))).
  now destruct (Csv.write_field f).
Qed.

(** A written row as the text stream delivers it. *)
Lemma universal_newlines_writerow (row : list str) (rest : str) :
  (2 <= length row)%nat ->
  Forall (fun f => ~ In Csv.CR f) row ->
  Csv.universal_newlines (Csv.writerow row ++ rest) =
  (row_text row ++ [Csv.LF]) ++ Csv.universal_newlines rest.
Proof.
  intros Hlen Hcr. unfold Csv.writerow. fold (row_text row).
  rewrite (row_text_nonempty row Hlen). cbn [andb].
  rewrite <- !app_assoc.
  rewrite (universal_newlines_app _ _ (row_text_no_CR row Hcr)).
  reflexivity.
Qed.

(** ** Decimal numerals *)

Lemma uint_string_digits (u : Decimal.uint) :
  forallb Py.is_digit
    (String.list_ascii_of_string (DecimalString.NilEmpty.string_of_uint u))
  = true.
Proof. induction u; simpl; auto. Qed.

Lemma strip_by_id (p : ascii -> bool) (s : str) :
  forallb (fun c => negb (p c)) s = true -> Py.strip_by p s = s.
Proof.
  intros H. unfold Py.strip_by.
  assert (forall t, forallb (fun c => negb (p c)) t = true ->
                    Py.lstrip_by p t = t) as Hl.
  { intros [|c t] Ht; [reflexivity|]. simpl in *.
    apply andb_true_iff in Ht. destruct Ht as [Hc _].
    apply negb_true_iff in Hc. now rewrite Hc. }
  rewrite (Hl s H). rewrite Hl; [apply rev_involutive|].
  rewrite forallb_forall in *. intros c Hc. apply H. now apply in_rev.
Qed.

Lemma drop_underscores_digits (ds : str) (prev : option ascii) :
  forallb Py.is_digit ds = true ->
  match prev with
  | Some p => Py.is_digit p = true
  | None => True
  end ->
  Py.drop_underscores prev ds = Some ds.
Proof.
  revert prev. induction ds as [|c ds IH]; intros prev Hd Hp.
  - destruct prev as [p|]; [|reflexivity].
    cbn [Py.drop_underscores]. revert Hp. ascii_cases p.
  - cbn [forallb] in Hd. apply andb_true_iff in Hd. destruct Hd as [Hc Hd].
    cbn [Py.drop_underscores].
    assert ((Py.code c =? 95)%N = false) as Hu by (revert Hc; ascii_cases c).
    rewrite Hu, (IH (Some c) Hd Hc).
    destruct prev as [p|]; [|reflexivity].
    revert Hp. ascii_cases p.
Qed.

Lemma digits_of_uint_string (u : Decimal.uint) :
  u <> Decimal.Nil ->
  Py.digits
    (String.list_ascii_of_string (DecimalString.NilEmpty.string_of_uint u))
  = Some u.
Proof.
  intros Hu. unfold Py.digits.
  rewrite String.string_of_list_ascii_of_string, DecimalString.NilEmpty.usu.
  destruct u; try reflexivity. congruence.
Qed.

(** A positive numeral starts with a digit other than 0. *)
Lemma to_uint_leading (p : positive) :
  match Pos.to_uint p with
  | Decimal.Nil | Decimal.D0 _ => False
  | _ => True
  end.
Proof.
  pose proof (DecimalPos.Unsigned.to_uint_nonnil p) as Hn.
  pose proof (DecimalPos.Unsigned.to_uint_nonzero p) as Hz.
  pose proof (DecimalPos.Unsigned.to_of (Pos.to_uint p)) as Hu.
  rewrite DecimalPos.Unsigned.of_to in Hu.
  change (N.to_uint (N.pos p)) with (Pos.to_uint p) in Hu.
  destruct (Pos.to_uint p) as [|u| | | | | | | | |]; try exact I.
  - now apply Hn.
  - destruct u as [|v| | | | | | | | |]; try discriminate Hu.
    + now apply Hz.
    + unfold Decimal.unorm in Hu. cbn [Decimal.nzhead] in Hu.
      pose proof (DecimalFacts.nb_digits_nzhead v) as Hl.
      destruct (Decimal.nzhead v); try discriminate Hu.
      injection Hu as Hu. rewrite <- Hu in Hl. cbn in Hl. lia.
Qed.

(** A positive integer below [10 ^ n] has at most [n] digits. *)
Lemma usize_to_uint (p : positive) (n : N) :
  (N.pos p < 10 ^ n)%N ->
  (DecimalPos.Unsigned.usize (Pos.to_uint p) <= n)%N.
Proof.
  intros Hp.
  pose proof (to_uint_leading p) as Hl.
  pose proof (DecimalPos.Unsigned.of_to p) as Hv.
  rewrite DecimalPos.Unsigned.of_uint_alt in Hv.
  assert (forall u k,
             (1 <= k)%N ->
             (N.pos p
              = DecimalPos.Unsigned.of_lu (Decimal.rev u)
                + k * 10 ^ DecimalPos.Unsigned.usize u)%N ->
             (N.succ (DecimalPos.Unsigned.usize u) <= n)%N) as Hb.
  { intros u k Hk E. apply N.le_succ_l.
    apply (N.pow_lt_mono_r_iff 10); [lia|].
    eapply N.le_lt_trans; [|exact Hp]. rewrite E. nia. }
  destruct (Pos.to_uint p) as [|u|u|u|u|u|u|u|u|u|u]; try contradiction;
    unfold Decimal.rev in Hv; cbn [Decimal.revapp] in Hv;
    rewrite DecimalPos.Unsigned.of_lu_revapp in Hv;
    cbn [DecimalPos.Unsigned.of_lu DecimalPos.Unsigned.usize] in Hv |- *;
    (eapply Hb; [|symmetry; exact Hv]); lia.
Qed.

Lemma length_uint_string (u : Decimal.uint) :
  N.of_nat
    (length
       (String.list_ascii_of_string (DecimalString.NilEmpty.string_of_uint u)))
  = DecimalPos.Unsigned.usize u.
Proof.
  induction u;
    cbn [DecimalString.NilEmpty.string_of_uint String.list_ascii_of_string
         length DecimalPos.Unsigned.usize];
    [reflexivity|rewrite Nat2N.inj_succ; now f_equal ..].
Qed.

Lemma usize_short (p : positive) :
  Spec.short (Z.pos p) ->
  (DecimalPos.Unsigned.usize (Pos.to_uint p) <= Py.max_str_digits)%N.
Proof.
  unfold Spec.short. intros H. apply usize_to_uint, N2Z.inj_lt.
  rewrite N2Z.inj_pow. exact H.
Qed.

(** The digits [str] prints for a non-negative integer. *)
Lemma str_of_nonneg (z : Z) :
  0 <= z ->
  exists u,
    u <> Decimal.Nil
    /\ Py.str_of_int z
       = String.list_ascii_of_string (DecimalString.NilEmpty.string_of_uint u)
    /\ Z.of_uint u = z
    /\ (z < 10 ^ Z.of_N Py.max_str_digits ->
        (DecimalPos.Unsigned.usize u <= Py.max_str_digits)%N).
Proof.
  intros Hz. unfold Py.str_of_int.
  pose proof (DecimalZ.of_to z) as Hof.
  destruct z as [|p|p]; [| |lia].
  - exists (Decimal.D0 Decimal.Nil).
    repeat split; [discriminate|intros _; discriminate].
  - exists (Pos.to_uint p).
    change (Z.of_uint (Pos.to_uint p) = Z.pos p) in Hof.
    assert (Pos.to_uint p <> Decimal.Nil) as Hn.
    { intros E. rewrite E in Hof. discriminate. }
    repeat split; [exact Hn| |exact Hof|apply usize_short].
    change (Z.to_int (Z.pos p)) with (Decimal.Pos (Pos.to_uint p)).
    cbn [DecimalString.NilZero.string_of_int].
    destruct (Pos.to_uint p); try reflexivity. congruence.
Qed.

Lemma digit_not_num_space (c : ascii) :
  Py.is_digit c = true -> negb (Py.is_num_space c) = true.
Proof. ascii_cases c. Qed.

Lemma forallb_impl {A} (p q : A -> bool) (l : list A) :
  (forall x, p x = true -> q x = true) ->
  forallb p l = true -> forallb q l = true.
Proof.
  intros H. rewrite !forallb_forall. intros Hp x Hx. apply H, Hp, Hx.
Qed.

(** [int] reads the digits of a numeral within the limit. *)
Lemma int_of_digits (u : Decimal.uint) :
  u <> Decimal.Nil ->
  (DecimalPos.Unsigned.usize u <= Py.max_str_digits)%N ->
  Py.int (String.list_ascii_of_string (DecimalString.NilEmpty.string_of_uint u))
  = Ok (Z.of_uint u).
Proof.
  intros Hu Hlim. unfold Py.int.
  rewrite <- length_uint_string in Hlim. apply N.ltb_ge in Hlim.
  pose proof (uint_string_digits u) as Hd.
  rewrite strip_by_id by (revert Hd; apply forallb_impl, digit_not_num_space).
  pose proof (digits_of_uint_string u Hu) as Hg.
  set (s := String.list_ascii_of_string
              (DecimalString.NilEmpty.string_of_uint u)) in *.
  assert (Py.drop_sign s = (false, s)) as Hs.
  { destruct s as [|c s1]; [reflexivity|].
    cbn [forallb] in Hd. apply andb_true_iff in Hd. destruct Hd as [Hc _].
    revert Hc. clear. unfold Py.drop_sign. ascii_cases c. }
  rewrite Hs, (drop_underscores_digits s None Hd I), Hlim, Hg. reflexivity.
Qed.

(** [int] reads back what [str] prints. *)
Lemma int_str_of_int (z : Z) :
  Spec.short z -> Py.int (Py.str_of_int z) = Ok z.
Proof.
  intros Hshort.
  destruct (Z_le_gt_dec 0 z) as [Hz|Hz].
  - destruct (str_of_nonneg z Hz) as (u & Hu & -> & <- & Hlim).
    apply int_of_digits; [exact Hu|].
    apply Hlim. unfold Spec.short in Hshort. now rewrite Z.abs_eq in Hshort.
  - destruct z as [|p|p]; try lia.
    pose proof (usize_short p Hshort) as Hlim.
    rewrite <- length_uint_string in Hlim. apply N.ltb_ge in Hlim.
    pose proof (DecimalZ.of_to (Z.neg p)) as Hof.
    change (- Z.of_uint (Pos.to_uint p) = Z.neg p) in Hof.
    assert (Pos.to_uint p <> Decimal.Nil) as Hn.
    { intros E. rewrite E in Hof. discriminate. }
    unfold Py.str_of_int.
    change (Z.to_int (Z.neg p)) with (Decimal.Neg (Pos.to_uint p)).
    cbn [DecimalString.NilZero.string_of_int].
    replace (DecimalString.NilZero.string_of_uint (Pos.to_uint p))
      with (DecimalString.NilEmpty.string_of_uint (Pos.to_uint p))
      by (destruct (Pos.to_uint p); try reflexivity; congruence).
    cbn [String.list_ascii_of_string].
    pose proof (uint_string_digits (Pos.to_uint p)) as Hd.
    pose proof (digits_of_uint_string (Pos.to_uint p) Hn) as Hg.
    set (s := String.list_ascii_of_string
                (DecimalString.NilEmpty.string_of_uint (Pos.to_uint p))) in *.
    unfold Py.int.
    rewrite strip_by_id.
    + cbn [Py.drop_sign].
      rewrite (drop_underscores_digits s None Hd I), Hlim, Hg. now rewrite Hof.
    + cbn [forallb]. apply andb_true_iff. split; [reflexivity|].
      revert Hd. apply forallb_impl, digit_not_num_space.
Qed.

(** ** The keys of the export form *)

Lemma match_key_row (ds f : str) :
  ds <> [] -> forallb Py.is_digit ds = true ->
  f <> [] -> forallb App.is_field_char f = true ->
  App.match_key ("row-" ++ ds ++ "-" ++ f) = Some (ds, f).
Proof.
  intros Hds Hd Hf Hc. unfold App.match_key.
  change (Re.starts_with "row-" ("row-" ++ ds ++ "-" ++ f)) with true.
  change (skipn 4 ("row-" ++ ds ++ "-" ++ f)) with (ds ++ "-" ++ f).
  rewrite (span_stop Py.is_digit ds ("-" ++ f) Hd) by reflexivity.
  cbn [app]. rewrite <- (app_nil_r f) at 1.
  rewrite (span_stop App.is_field_char f [] Hc I).
  apply is_empty_false in Hds, Hf. now rewrite Hds, Hf.
Qed.

Lemma match_key_form (i : nat) (f : str) :
  f <> [] -> forallb App.is_field_char f = true ->
  Spec.short (Z.of_nat i) ->
  exists ds,
    App.match_key (Spec.form_key i f) = Some (ds, f)
    /\ Py.int ds = Ok (Z.of_nat i).
Proof.
  intros Hf Hc Hshort. unfold Spec.form_key.
  destruct (str_of_nonneg (Z.of_nat i)) as (u & Hu & -> & Hz & Hlim); [lia|].
  eexists. split.
  - apply match_key_row; try assumption; [|apply uint_string_digits].
    destruct u; try discriminate. congruence.
  - rewrite <- Hz. apply int_of_digits; [exact Hu|].
    apply Hlim. unfold Spec.short in Hshort.
    now rewrite Z.abs_eq in Hshort by lia.
Qed.

(** ** [download_csv] on the export form *)

Lemma rows_set_new (d : App.rows_dict) (idx : Z) (f v : str) :
  ~ In idx (map fst d) ->
  App.rows_set d idx f v = d ++ [(idx, [(f, v)])].
Proof.
  induction d as [|[i row] d IH]; intros H; [reflexivity|].
  cbn [App.rows_set app].
  destruct (i =? idx) eqn:E.
  - apply Z.eqb_eq in E. subst i. exfalso. apply H. now left.
  - rewrite IH; [reflexivity|]. intros Hin. apply H. now right.
Qed.

Lemma rows_set_last (d : App.rows_dict) (idx : Z) (row : App.form_row)
      (f v : str) :
  ~ In idx (map fst d) ->
  App.rows_set (d ++ [(idx, row)]) idx f v
  = d ++ [(idx, App.row_set row f v)].
Proof.
  induction d as [|[i r] d IH]; intros H.
  - cbn [App.rows_set app]. now rewrite Z.eqb_refl.
  - cbn [App.rows_set app].
    destruct (i =? idx) eqn:E.
    + apply Z.eqb_eq in E. subst i. exfalso. apply H. now left.
    + rewrite IH; [reflexivity|]. intros Hin. apply H. now right.
Qed.

Lemma collect_cons (d : App.rows_dict) (key v g1 f : str) (idx : Z)
      (rest : list (str * str)) :
  App.match_key key = Some (g1, f) ->
  Py.int g1 = Ok idx ->
  App.collect d ((key, v) :: rest)
  = App.collect (App.rows_set d idx f (Py.strip v)) rest.
Proof. intros Hm Hi. cbn [App.collect]. now rewrite Hm, Hi. Qed.

Ltac collect_field i f :=
  let ds := fresh "ds" in
  let Hm := fresh "Hm" in
  let Hi := fresh "Hi" in
  destruct (match_key_form i f) as (ds & Hm & Hi);
  [discriminate|reflexivity|assumption|];
  rewrite (collect_cons _ _ _ _ _ _ _ Hm Hi); clear ds Hm Hi.

(** The first loop over the ten fields of one row of the form. *)
Lemma collect_row (d : App.rows_dict) (i : nat) (cells : list str)
      (rest : list (str * str)) :
  ten_cells cells ->
  Spec.short (Z.of_nat i) ->
  ~ In (Z.of_nat i) (map fst d) ->
  App.collect d (Spec.form_of_row i cells ++ rest)
  = App.collect
      (d ++ [(Z.of_nat i, combine App.field_order (map Py.strip cells))]) rest.
Proof.
  intros Hten Hshort Hd. unfold ten_cells in Hten.
  destruct cells as [|c1 [|c2 [|c3 [|c4 [|c5 [|c6 [|c7 [|c8 [|c9 [|c10 [|]]]]]]]]]]];
    try discriminate Hten.
  unfold Spec.form_of_row. cbn [App.field_order map combine app].
  collect_field i "sl_no". rewrite (rows_set_new d _ _ _ Hd).
  collect_field i "course_code". rewrite (rows_set_last d _ _ _ _ Hd).
  collect_field i "course_title". rewrite (rows_set_last d _ _ _ _ Hd).
  collect_field i "course_type". rewrite (rows_set_last d _ _ _ _ Hd).
  collect_field i "credits". rewrite (rows_set_last d _ _ _ _ Hd).
  collect_field i "grade". rewrite (rows_set_last d _ _ _ _ Hd).
  collect_field i "exam_month". rewrite (rows_set_last d _ _ _ _ Hd).
  collect_field i "result_declared_on". rewrite (rows_set_last d _ _ _ _ Hd).
  collect_field i "course_option". rewrite (rows_set_last d _ _ _ _ Hd).
  collect_field i "course_distribution". rewrite (rows_set_last d _ _ _ _ Hd).
  reflexivity.
Qed.

Lemma collect_rows (rows : list (list str)) :
  forall (i : nat) (d : App.rows_dict),
    Forall ten_cells rows ->
    Z.of_nat (i + length rows) <= 10 ^ Z.of_N Py.max_str_digits ->
    (forall k, In k (map fst d) -> k < Z.of_nat i) ->
    App.collect d (Spec.form_of_rows i rows) = Ok (d ++ rows_of i rows).
Proof.
  induction rows as [|cells rows IH]; intros i d Hten Hlen Hd.
  - cbn. now rewrite app_nil_r.
  - inversion Hten as [|? ? Hc Hr]; subst.
    cbn [Spec.form_of_rows rows_of]. cbn [length] in Hlen.
    rewrite collect_row;
      [|assumption|unfold Spec.short; lia|intros Hin; apply Hd in Hin; lia].
    rewrite IH;
      [now rewrite <- app_assoc|assumption|
       now replace (S i + length rows)%nat with (i + S (length rows))%nat by lia|].
    intros k Hin. rewrite map_app in Hin. apply in_app_or in Hin.
    destruct Hin as [Hin|[<-|[]]]; [apply Hd in Hin|cbn [fst]]; lia.
Qed.

Lemma sorted_rows_of (rows : list (list str)) (i : nat) :
  App.sorted (map fst (rows_of i rows)) = map fst (rows_of i rows).
Proof.
  revert i. induction rows as [|cells rows IH]; intros i; [reflexivity|].
  cbn [rows_of map fst]. unfold App.sorted in *. cbn [fold_right].
  rewrite IH. destruct rows as [|cells' rows]; [reflexivity|].
  cbn [rows_of map fst App.insert_sorted].
  destruct (Z.of_nat i <=? Z.of_nat (S i)) eqn:E; [reflexivity|].
  apply Z.leb_gt in E. lia.
Qed.

Lemma rows_get_skip (d e : App.rows_dict) (idx : Z) :
  ~ In idx (map fst d) -> App.rows_get (d ++ e) idx = App.rows_get e idx.
Proof.
  induction d as [|[i row] d IH]; intros H; [reflexivity|].
  cbn [App.rows_get app].
  destruct (i =? idx) eqn:E.
  - apply Z.eqb_eq in E. subst i. exfalso. apply H. now left.
  - apply IH. intros Hin. apply H. now right.
Qed.

Lemma row_get_all (v1 v2 v3 v4 v5 v6 v7 v8 v9 v10 : str) :
  map (App.row_get
         (combine App.field_order [v1; v2; v3; v4; v5; v6; v7; v8; v9; v10]))
      App.field_order
  = [v1; v2; v3; v4; v5; v6; v7; v8; v9; v10].
Proof. reflexivity. Qed.

Lemma row_get_first (v1 v2 v3 v4 v5 v6 v7 v8 v9 v10 : str) :
  App.row_get
    (combine App.field_order [v1; v2; v3; v4; v5; v6; v7; v8; v9; v10]) "sl_no"
  = v1.
Proof. reflexivity. Qed.

(** The second loop writes the rows in the order of the form. *)
Lemma write_rows_rows_of (rows : list (list str)) :
  forall (i : nat) (pre : App.rows_dict),
    Forall form_row_ok rows ->
    (forall k, In k (map fst pre) -> k < Z.of_nat i) ->
    App.write_rows (pre ++ rows_of i rows) (map fst (rows_of i rows))
    = concat (map (fun cells => Csv.writerow (map Py.strip cells)) rows).
Proof.
  induction rows as [|cells rows IH]; intros i pre Hok Hpre; [reflexivity|].
  inversion Hok as [|? ? [Hten Hfirst] Hrest]; subst.
  cbn [rows_of map fst App.write_rows concat].
  rewrite rows_get_skip by (intros Hin; apply Hpre in Hin; lia).
  cbn [App.rows_get]. rewrite Z.eqb_refl.
  unfold ten_cells in Hten.
  destruct cells as [|c1 [|c2 [|c3 [|c4 [|c5 [|c6 [|c7 [|c8 [|c9 [|c10 [|]]]]]]]]]]];
    try discriminate Hten.
  cbn [map]. rewrite row_get_all.
  assert (existsb
            (fun f => negb (Py.is_empty
               (App.row_get
                  (combine App.field_order
                     [Py.strip c1; Py.strip c2; Py.strip c3; Py.strip c4;
                      Py.strip c5; Py.strip c6; Py.strip c7; Py.strip c8;
                      Py.strip c9; Py.strip c10]) f)))
            App.field_order = true) as Hany.
  { unfold App.field_order at 2. cbn [existsb]. rewrite row_get_first.
    apply is_empty_false in Hfirst. now rewrite Hfirst. }
  rewrite Hany. cbn [negb]. f_equal.
  change ((Z.of_nat i,
           combine App.field_order
             [Py.strip c1; Py.strip c2; Py.strip c3; Py.strip c4; Py.strip c5;
              Py.strip c6; Py.strip c7; Py.strip c8; Py.strip c9; Py.strip c10])
          :: rows_of (S i) rows)
    with ([(Z.of_nat i,
            combine App.field_order
              [Py.strip c1; Py.strip c2; Py.strip c3; Py.strip c4; Py.strip c5;
               Py.strip c6; Py.strip c7; Py.strip c8; Py.strip c9; Py.strip c10])]
          ++ rows_of (S i) rows).
  rewrite app_assoc. apply IH; [assumption|].
  intros k Hin. rewrite map_app in Hin. apply in_app_or in Hin.
  destruct Hin as [Hin|[<-|[]]]; [apply Hpre in Hin|cbn [fst]]; lia.
Qed.

(** The response for the form of a list of rows: the header line and
    one line for each row, its cells stripped. *)
Lemma download_csv_rows (rows : list (list str)) :
  Forall form_row_ok rows ->
  Z.of_nat (length rows) <= 10 ^ Z.of_N Py.max_str_digits ->
  App.download_csv (Spec.form_of_rows 0 rows)
  = Ok (Csv.writerow App.header
        ++ concat (map (fun cells => Csv.writerow (map Py.strip cells)) rows)).
Proof.
  intros Hok Hlen. unfold App.download_csv.
  rewrite (collect_rows rows 0 []);
    [|revert Hok; apply Forall_impl; now intros c [H _]|exact Hlen
     |intros k []].
  cbn [bind app]. rewrite sorted_rows_of.
  assert (forall k, In k (map fst (@nil (Z * App.form_row))) -> k < Z.of_nat 0)
    as Hpre by (intros k []).
  pose proof (write_rows_rows_of rows 0 [] Hok Hpre) as Hw.
  cbn [app] in Hw. now rewrite Hw.
Qed.

(** ** [parse_csv] on a written file *)

Lemma universal_newlines_rows (rows : list (list str)) :
  Forall portable rows ->
  Csv.universal_newlines (concat (map Csv.writerow rows))
  = concat (map (fun row => row_text row ++ [Csv.LF]) rows).
Proof.
  induction 1 as [|row rows [[Hlen _] Hcr] _ IH]; [reflexivity|].
  cbn [map concat].
  now rewrite (universal_newlines_writerow row _ Hlen Hcr), IH.
Qed.

(** The reader gives back the rows the writer wrote. *)
Lemma reader_rows_written (rows : list (list str)) :
  Forall portable rows ->
  Csv.reader_rows (Csv.text_lines (concat (map Csv.writerow rows)))
  = (rows, None).
Proof.
  intros H. unfold Csv.reader_rows, Csv.text_lines.
  rewrite (universal_newlines_rows rows H).
  apply read_rows_all. revert H. apply Forall_impl. now intros row [Hr _].
Qed.

Lemma make_dict_header (c1 c2 c3 c4 c5 c6 c7 c8 c9 c10 : str) :
  Csv.make_dict App.header [c1; c2; c3; c4; c5; c6; c7; c8; c9; c10]
  = [(Some "Sl.No", Csv.VStr c1); (Some "Course Code", Csv.VStr c2);
     (Some "Course Title", Csv.VStr c3); (Some "Course Type", Csv.VStr c4);
     (Some "Credits", Csv.VStr c5); (Some "Grade", Csv.VStr c6);
     (Some "Exam Month", Csv.VStr c7);
     (Some "Result Declared On", Csv.VStr c8);
     (Some "Course Option", Csv.VStr c9);
     (Some "Course Distribution", Csv.VStr c10)].
Proof. reflexivity. Qed.

Lemma cell_header (c1 c2 c3 c4 c5 c6 c7 c8 c9 c10 : str) :
  let row :=
    Csv.make_dict App.header [c1; c2; c3; c4; c5; c6; c7; c8; c9; c10] in
  App.cell row (Some "Sl.No") = Ok (Py.strip c1)
  /\ App.cell row (Some "Course Code") = Ok (Py.strip c2)
  /\ App.cell row (Some "Course Title") = Ok (Py.strip c3)
  /\ App.cell row (Some "Course Type") = Ok (Py.strip c4)
  /\ App.cell row (Some "Credits") = Ok (Py.strip c5)
  /\ App.cell row (Some "Grade") = Ok (Py.strip c6)
  /\ App.cell row (Some "Exam Month") = Ok (Py.strip c7)
  /\ App.cell row (Some "Result Declared On") = Ok (Py.strip c8)
  /\ App.cell row (Some "Course Option") = Ok (Py.strip c9)
  /\ App.cell row (Some "Course Distribution") = Ok (Py.strip c10).
Proof. repeat split; reflexivity. Qed.

Lemma float_of_empty : Py.float_of_str [] = Raise ValueError.
Proof. reflexivity. Qed.

Lemma str_of_int_nonempty (z : Z) : Py.str_of_int z <> [].
Proof.
  destruct (Z_le_gt_dec 0 z) as [Hz|Hz].
  - destruct (str_of_nonneg z Hz) as (u & Hu & -> & _).
    destruct u; try discriminate. congruence.
  - destruct z as [|p|p]; try lia. unfold Py.str_of_int.
    change (Z.to_int (Z.neg p)) with (Decimal.Neg (Pos.to_uint p)).
    discriminate.
Qed.

(** One turn of the loop of [parse_csv] on the row of a record. *)
Lemma csv_step_record (records : list App.CourseRecord)
      (rc : App.CourseRecord * str) :
  Spec.exportable rc ->
  App.csv_step records
    (Csv.make_dict App.header (Spec.cells_of (fst rc) (snd rc)))
  = Ok (records ++ [fst rc]).
Proof.
  destruct rc as [r c]. intros (Hclean & Hfloat & _ & Hshort).
  cbn [fst snd] in *. unfold Spec.cells_of in *.
  repeat match goal with
         | H : Forall _ (_ :: _) |- _ =>
             let Hc := fresh "Hc" in
             let Hs := fresh "Hs" in
             inversion H as [|? ? [Hs _] Hc]; subst; clear H;
             first [rename Hc into Hclean | idtac]
         end.
  destruct (cell_header (Py.str_of_int (App.sl_no r)) (App.course_code r)
              (App.course_title r) (App.course_type r) c (App.grade r)
              (App.exam_month r) (App.result_declared_on r)
              (App.course_option r) (App.course_distribution r))
    as (E1 & E2 & E3 & E4 & E5 & E6 & E7 & E8 & E9 & E10).
  unfold App.csv_step.
  assert (Py.is_empty (Py.str_of_int (App.sl_no r)) = false) as Hne
    by (apply is_empty_false, str_of_int_nonempty).
  assert (Py.is_empty c = false) as Hce.
  { apply is_empty_false. intros ->. rewrite float_of_empty in Hfloat.
    discriminate. }
  rewrite make_dict_header at 2. cbn [Csv.dict_keys map fst App.any_cell].
  rewrite E1. cbn [bind].
  repeat match goal with
         | H : Py.strip ?x = ?x |- _ => rewrite H in *; clear H
         end.
  rewrite Hne. cbn [negb].
  unfold App.row_record.
  rewrite E1, E2, E3, E4, E5, E6, E7, E8, E9, E10. cbn [bind].
  rewrite Hne, (int_str_of_int _ Hshort). cbn [bind].
  rewrite Hce, Hfloat. cbn [bind].
  now destruct r.
Qed.

Lemma csv_loop_records (rs : list (App.CourseRecord * str)) :
  forall records,
    Forall Spec.exportable rs ->
    App.csv_loop records
      (map (Csv.make_dict App.header)
           (map (fun rc => Spec.cells_of (fst rc) (snd rc)) rs))
    = Ok (records ++ map fst rs).
Proof.
  induction rs as [|rc rs IH]; intros records H.
  - cbn. now rewrite app_nil_r.
  - inversion H as [|? ? Hrc Hrs]; subst.
    cbn [map App.csv_loop]. rewrite (csv_step_record records rc Hrc).
    cbn [bind]. rewrite (IH _ Hrs). now rewrite <- app_assoc.
Qed.

Lemma header_portable : portable App.header.
Proof.
  split; [split|].
  - cbn. lia.
  - unfold Csv.field_limit. repeat constructor; cbn; lia.
  - repeat constructor; cbn; intuition discriminate.
Qed.

Lemma cells_portable (rc : App.CourseRecord * str) :
  Spec.exportable rc -> portable (Spec.cells_of (fst rc) (snd rc)).
Proof.
  intros (Hclean & _). split; [split|].
  - cbn. lia.
  - revert Hclean. apply Forall_impl. now intros f (_ & _ & H).
  - revert Hclean. apply Forall_impl. now intros f (_ & H & _).
Qed.

Lemma cells_form_row_ok (rc : App.CourseRecord * str) :
  Spec.exportable rc -> form_row_ok (Spec.cells_of (fst rc) (snd rc)).
Proof.
  intros (Hclean & _). split; [reflexivity|].
  unfold Spec.cells_of in *. inversion Hclean as [|? ? [Hs _] _]; subst.
  rewrite Hs. apply str_of_int_nonempty.
Qed.

Lemma cells_stripped (rc : App.CourseRecord * str) :
  Spec.exportable rc ->
  map Py.strip (Spec.cells_of (fst rc) (snd rc))
  = Spec.cells_of (fst rc) (snd rc).
Proof.
  intros (Hclean & _).
  induction Hclean as [|f l [Hs _] _ IH]; [reflexivity|].
  cbn [map]. now rewrite Hs, IH.
Qed.

(** The response [download_csv] gives for the form of exportable
    records. *)
Lemma download_csv_records (rs : list (App.CourseRecord * str)) :
  Forall Spec.exportable rs ->
  Z.of_nat (length rs) <= 10 ^ Z.of_N Py.max_str_digits ->
  App.download_csv (Spec.form_of_records rs)
  = Ok (concat (map Csv.writerow
                  (App.header
                   :: map (fun rc => Spec.cells_of (fst rc) (snd rc)) rs))).
Proof.
  intros H Hlen. unfold Spec.form_of_records.
  rewrite download_csv_rows.
  - cbn [map concat]. do 2 f_equal. rewrite map_map.
    f_equal. clear Hlen. induction H as [|rc rs Hrc _ IH]; [reflexivity|].
    cbn [map]. now rewrite (cells_stripped rc Hrc), IH.
  - clear Hlen. induction H as [|rc rs Hrc _ IH]; constructor; [|assumption].
    now apply cells_form_row_ok.
  - now rewrite length_map.
Qed.

(** ** [parse_csv] on rows without surplus cells *)

Lemma dict_set_plain (d : Csv.dict_row) (k : option str) (v : Csv.value) :
  plain d ->
  match v with
  | Csv.VList _ => False
  | _ => True
  end ->
  plain (Csv.dict_set d k v).
Proof.
  intros Hd Hv. induction Hd as [|[k' v'] d Hkv Hd IH].
  - repeat constructor. exact Hv.
  - cbn [Csv.dict_set]. destruct (Csv.key_eqb k' k).
    + constructor; [exact Hv|exact Hd].
    + constructor; [exact Hkv|exact IH].
Qed.

Lemma dict_zip_plain (fieldnames row : list str) :
  forall d, plain d -> plain (Csv.dict_zip d fieldnames row).
Proof.
  revert row. induction fieldnames as [|k ks IH]; intros row d Hd;
    [exact Hd|].
  destruct row as [|v vs]; [exact Hd|].
  cbn [Csv.dict_zip]. apply IH. now apply dict_set_plain.
Qed.

Lemma set_all_plain (ks : list str) :
  forall d, plain d -> plain (Csv.set_all d ks Csv.VNone).
Proof.
  induction ks as [|k ks IH]; intros d Hd; [exact Hd|].
  cbn [Csv.set_all]. apply IH. now apply dict_set_plain.
Qed.

(** A row with no more cells than the header has a plain dictionary. *)
Lemma make_dict_plain (fieldnames row : list str) :
  (length row <= length fieldnames)%nat ->
  plain (Csv.make_dict fieldnames row).
Proof.
  intros Hlen. unfold Csv.make_dict.
  assert (plain (Csv.dict_zip [] fieldnames row)) as Hz
    by (apply dict_zip_plain; constructor).
  destruct (length fieldnames <? length row)%nat eqn:E.
  - apply Nat.ltb_lt in E. lia.
  - destruct (length row <? length fieldnames)%nat; [|exact Hz].
    now apply set_all_plain.
Qed.

Lemma cell_plain (d : Csv.dict_row) (col : option str) :
  plain d -> exists s, App.cell d col = Ok s.
Proof.
  intros Hd. unfold App.cell.
  induction Hd as [|[k v] d Hkv Hd IH]; [cbn; eauto|].
  cbn [Csv.dict_get]. destruct (Csv.key_eqb k col); [|exact IH].
  destruct v as [s| |l]; cbn in Hkv; [eauto|eauto|contradiction].
Qed.

Lemma any_cell_plain (d : Csv.dict_row) (cols : list (option str)) :
  plain d -> exists b, App.any_cell d cols = Ok b.
Proof.
  intros Hd. induction cols as [|col cols IH]; [cbn; eauto|].
  cbn [App.any_cell]. destruct (cell_plain d col Hd) as [s ->]. cbn [bind].
  destruct (Py.is_empty s); [exact IH|eauto].
Qed.

(** Without surplus cells a turn of the loop never raises: it keeps the
    records or adds one. *)
Lemma csv_step_plain (records : list App.CourseRecord) (d : Csv.dict_row) :
  plain d ->
  App.csv_step records d = Ok records
  \/ exists r, App.csv_step records d = Ok (records ++ [r]).
Proof.
  intros Hd. unfold App.csv_step.
  destruct (any_cell_plain d (Csv.dict_keys d) Hd) as [b ->]. cbn [bind].
  destruct b; cbn [negb]; [|now left].
  destruct (App.row_record d) as [[r|]|e]; [right; eauto|now left|now left].
Qed.

(** The per-row policy of the decoder on a row without surplus cells
    that is not blank: no record for a blank or unreadable serial
    number or unreadable credits, credits 0.0 for blank credits, and
    every other field stripped. *)
Lemma csv_step_policy (records : list App.CourseRecord) (d : Csv.dict_row)
      (sl_no_str credits_str : str) :
  App.any_cell d (Csv.dict_keys d) = Ok true ->
  plain d ->
  App.cell d (Some "Sl.No") = Ok sl_no_str ->
  App.cell d (Some "Credits") = Ok credits_str ->
  App.csv_step records d =
  if Py.is_empty sl_no_str then Ok records
  else
    match Py.int sl_no_str,
          (if Py.is_empty credits_str then Ok (S754_zero false)
           else Py.float_of_str credits_str) with
    | Ok n, Ok x =>
        match App.cell d (Some "Course Code"),
              App.cell d (Some "Course Title"),
              App.cell d (Some "Course Type"),
              App.cell d (Some "Grade"),
              App.cell d (Some "Exam Month"),
              App.cell d (Some "Result Declared On"),
              App.cell d (Some "Course Option"),
              App.cell d (Some "Course Distribution") with
        | Ok code, Ok title, Ok type, Ok grade, Ok exam, Ok declared,
          Ok option, Ok distribution =>
            Ok (records
                ++ [{| App.sl_no := n;
                       App.course_code := code;
                       App.course_title := title;
                       App.course_type := type;
                       App.credits := x;
                       App.grade := grade;
                       App.exam_month := exam;
                       App.result_declared_on := declared;
                       App.course_option := option;
                       App.course_distribution := distribution |}])
        | _, _, _, _, _, _, _, _ => Ok records
        end
    | _, _ => Ok records
    end.
Proof.
  intros Hany Hd Hsl Hcr. unfold App.csv_step, App.row_record.
  rewrite Hany, Hsl, Hcr. cbn [bind negb].
  destruct (Py.is_empty sl_no_str); [reflexivity|].
  destruct (Py.int sl_no_str) as [n|]; cbn [bind]; [|reflexivity].
  destruct (cell_plain d (Some "Course Code") Hd) as [c1 ->].
  destruct (cell_plain d (Some "Course Title") Hd) as [c2 ->].
  destruct (cell_plain d (Some "Course Type") Hd) as [c3 ->].
  destruct (cell_plain d (Some "Grade") Hd) as [c4 ->].
  destruct (cell_plain d (Some "Exam Month") Hd) as [c5 ->].
  destruct (cell_plain d (Some "Result Declared On") Hd) as [c6 ->].
  destruct (cell_plain d (Some "Course Option") Hd) as [c7 ->].
  destruct (cell_plain d (Some "Course Distribution") Hd) as [c8 ->].
  cbn [bind].
  destruct (if Py.is_empty credits_str then Ok (S754_zero false)
            else Py.float_of_str credits_str) as [x|]; reflexivity.
Qed.

(** Blank rows without surplus cells are skipped. *)
Lemma csv_step_blank (records : list App.CourseRecord) (d : Csv.dict_row) :
  App.any_cell d (Csv.dict_keys d) = Ok false ->
  App.csv_step records d = Ok records.
Proof. intros H. unfold App.csv_step. now rewrite H. Qed.

(** The loop of [parse_csv] never raises on rows without surplus
    cells. *)
Lemma csv_loop_plain (rows : list Csv.dict_row) :
  forall records,
    Forall plain rows ->
    exists records', App.csv_loop records rows = Ok records'.
Proof.
  induction rows as [|d rows IH]; intros records H; [cbn; eauto|].
  inversion H as [|? ? Hd Hrows]; subst. cbn [App.csv_loop].
  destruct (csv_step_plain records d Hd) as [->|[r ->]]; cbn [bind];
    now apply IH.
Qed.

(** [parse_csv] raises only what the reader raises when no data row has
    more cells than the header. *)
Lemma parse_csv_plain (text : str) (fieldnames : list str)
      (data : list (list str)) :
  Csv.reader_rows (Csv.text_lines text) = (fieldnames :: data, None) ->
  Forall (fun row => (length row <= length fieldnames)%nat) data ->
  exists records, App.parse_csv text = Ok records.
Proof.
  intros Hrows Hdata. unfold App.parse_csv. rewrite Hrows.
  destruct (csv_loop_plain (Csv.dict_rows (fieldnames :: data)) [])
    as [records ->]; [|cbn [bind]; eauto].
  cbn [Csv.dict_rows]. apply Forall_map. clear Hrows.
  induction Hdata as [|row data Hrow _ IH]; [constructor|].
  cbn [filter]. destruct (negb (Csv.is_nil row)); [|exact IH].
  constructor; [now apply make_dict_plain|exact IH].
Qed.

(** * The properties of the specification *)

(** ** C3: the end-to-end scenario *)

(** C3.  Normalization, segmentation and row parsing of the single raw
    line [6HUM1021Engineering Mechanics L 3.0 B MAY2023 JUN2023 FULL
    DIST2] yield exactly one record, with sl_no 6, course code HUM1021,
    title [Engineering Mechanics], type L, credits 3.0, grade B, exam
    month MAY2023, result date JUN2023, option FULL and distribution
    DIST2; the normalizer repairs both glued boundaries on the way. *)
Theorem end_to_end_scenario :
  App.normalize_raw_text Sample.scenario_line =
    "6 HUM1021 Engineering Mechanics L 3.0 B MAY2023 JUN2023 FULL DIST2"
  /\ App.parse_grade_history Sample.scenario_line =
     Ok [ {| App.sl_no := 6;
             App.course_code := "HUM1021";
             App.course_title := "Engineering Mechanics";
             App.course_type := "L";
             App.credits := Py.float_of_Z 3;
             App.grade := "B";
             App.exam_month := "MAY2023";
             App.result_declared_on := "JUN2023";
             App.course_option := "FULL";
             App.course_distribution := "DIST2" |} ].
Proof. split; vm_compute; reflexivity. Qed.

(** ** C4: rows of nine tokens *)

(** C4, counterexample.  The row [1 CSE1001 TH 3.0 A MAY2023 JUN2023
    FULL DIST1] splits into exactly nine tokens and the row parser
    returns no record for it, so no record with an empty title. *)
Lemma nine_tokens_no_record :
  length (Py.split Sample.row9) = 9%nat
  /\ App.parse_course_line Sample.row9 = Ok None
  /\ ~ (exists r, App.parse_course_line Sample.row9 = Ok (Some r)
                  /\ App.course_title r = []).
Proof.
  split; [reflexivity|]. split; [vm_compute; reflexivity|].
  intros (r & H & _). vm_compute in H. discriminate.
Qed.

(** C4, amended.  A logical row that splits into exactly nine tokens
    yields no record: the parser requires ten tokens, so the title
    range, which would be empty for nine, is never empty. *)
Theorem nine_tokens_rejected (line : str) :
  length (Py.split line) = 9%nat -> App.parse_course_line line = Ok None.
Proof. intros H. apply parse_course_line_short. lia. Qed.

Lemma nine_tokens_rejected_witness :
  length (Py.split Sample.row9') = 9%nat
  /\ App.parse_course_line Sample.row9' = Ok None.
Proof.
  split; [reflexivity|].
  apply (nine_tokens_rejected Sample.row9'). reflexivity.
Defined.

(** ** C6: right-anchoring *)

(** C6.  The row of the twelve tokens 3, CSE1001, Intro, to, Systems,
    REG, 4.0, A, MAY2023, JUN2023, FULL, DIST1 parses to a record with
    title [Intro to Systems], credits 4.0 and sl_no 3; and for every
    accepted row the seven trailing fields are the last seven tokens,
    the title the tokens between the second token and those seven,
    joined by single spaces, however many they are. *)
Theorem right_anchoring :
  (Py.split Sample.row12 =
     ["3"; "CSE1001"; "Intro"; "to"; "Systems"; "REG"; "4.0"; "A";
      "MAY2023"; "JUN2023"; "FULL"; "DIST1"]
   /\ App.parse_course_line Sample.row12 =
      Ok (Some {| App.sl_no := 3;
                  App.course_code := "CSE1001";
                  App.course_title := "Intro to Systems";
                  App.course_type := "REG";
                  App.credits := Py.float_of_Z 4;
                  App.grade := "A";
                  App.exam_month := "MAY2023";
                  App.result_declared_on := "JUN2023";
                  App.course_option := "FULL";
                  App.course_distribution := "DIST1" |}))
  /\ forall (line : str) (r : App.CourseRecord),
       App.parse_course_line line = Ok (Some r) ->
       exists first title_tokens credits_token,
         Py.split line =
           [first; App.course_code r] ++ title_tokens
           ++ [App.course_type r; credits_token; App.grade r;
               App.exam_month r; App.result_declared_on r;
               App.course_option r; App.course_distribution r]
         /\ Py.int first = Ok (App.sl_no r)
         /\ Py.float_of_str credits_token = Ok (App.credits r)
         /\ App.course_title r = Py.join " " title_tokens.
Proof.
  split; [split; vm_compute; reflexivity|].
  intros line r H.
  destruct (parse_course_line_some line r H)
    as (a & mid & t2 & Htok & _ & Hi & Hf & Ht).
  exists a, mid, t2. auto.
Qed.

Lemma right_anchoring_witness :
  exists first title_tokens credits_token,
    Py.split Sample.row12 =
      [first; "CSE1001"] ++ title_tokens
      ++ ["REG"; credits_token; "A"; "MAY2023"; "JUN2023"; "FULL"; "DIST1"]
    /\ Py.int first = Ok 3
    /\ Py.float_of_str credits_token = Ok (Py.float_of_Z 4)
    /\ "Intro to Systems" = Py.join " " title_tokens.
Proof.
  apply (proj2 right_anchoring Sample.row12
           {| App.sl_no := 3;
              App.course_code := "CSE1001";
              App.course_title := "Intro to Systems";
              App.course_type := "REG";
              App.credits := Py.float_of_Z 4;
              App.grade := "A";
              App.exam_month := "MAY2023";
              App.result_declared_on := "JUN2023";
              App.course_option := "FULL";
              App.course_distribution := "DIST1" |}).
  vm_compute. reflexivity.
Defined.

(** ** C7: malformed rows *)

(** C7.  A row of fewer than ten tokens, or whose first token is no
    integer, or whose credits token (sixth from the right) is no
    number, yields no record at all; and in a document it contributes
    nothing while the rows before and after it contribute the records
    they parse to. *)
Theorem malformed_row_rejected (row : str) :
  Spec.malformed row ->
  App.parse_course_line row = Ok None
  /\ forall (raw_text : str) (before after : list str),
       Spec.logical_rows [] (Spec.cleaned_lines raw_text)
         = before ++ row :: after ->
       App.parse_grade_history raw_text =
       Ok (flat_map Spec.row_records before
           ++ flat_map Spec.row_records after).
Proof.
  intros H. pose proof (malformed_no_record row H) as Hn.
  split; [assumption|].
  intros raw_text before after Hrows.
  rewrite parse_grade_history_rows, Hrows, flat_map_app. simpl.
  unfold Spec.row_records at 2. now rewrite Hn.
Qed.

Lemma malformed_row_rejected_witness :
  App.parse_course_line Sample.bad_row = Ok None
  /\ App.parse_grade_history Sample.document =
     Ok (flat_map Spec.row_records
           ["1 CSE1001 Problem Solving TH 3.0 A MAY2023 JUN2023 FULL DIST1"]
         ++ flat_map Spec.row_records
           ["3 MAT1001 Calculus for Engineers TH 4.0 B MAY2023 JUN2023 FULL DIST1"]).
Proof.
  assert (Spec.malformed Sample.bad_row) as Hbad.
  { right. right. exists "three", ValueError. split; reflexivity. }
  destruct (malformed_row_rejected Sample.bad_row Hbad) as [H1 H2].
  split; [exact H1|].
  apply H2. vm_compute. reflexivity.
Defined.

(** ** C10: accepted rows have a title *)

(** C10.  Every record the row parser accepts has a non-empty title:
    an accepted row has ten tokens or more, never nine, and its title
    joins the one or more tokens between the second token and the last
    seven, each of them non-empty. *)
Theorem accepted_title_nonempty (line : str) (r : App.CourseRecord) :
  App.parse_course_line line = Ok (Some r) ->
  App.course_title r <> []
  /\ (10 <= length (Py.split line))%nat
  /\ length (Py.split line) <> 9%nat.
Proof.
  intros H.
  destruct (parse_course_line_some line r H)
    as (a & mid & t2 & Htok & Hmid & _ & _ & Ht).
  assert (10 <= length (Py.split line))%nat as Hlen.
  { rewrite Htok. simpl. rewrite length_app. simpl.
    destruct mid; [congruence|simpl; lia]. }
  split; [|split; [assumption|lia]].
  rewrite Ht. apply join_nonempty; [assumption|].
  pose proof (split_tokens line) as Htoks. rewrite Htok in Htoks.
  inversion Htoks as [|? ? _ Ht1]; subst.
  inversion Ht1 as [|? ? _ Ht2]; subst.
  apply Forall_app in Ht2. destruct Ht2 as [Hm _].
  eapply Forall_impl; [|exact Hm].
  intros t Hk. now apply is_token_spec in Hk.
Qed.

Lemma accepted_title_nonempty_witness :
  "Intro to Systems" <> []
  /\ (10 <= length (Py.split Sample.row12))%nat
  /\ length (Py.split Sample.row12) <> 9%nat.
Proof.
  exact (accepted_title_nonempty Sample.row12
           {| App.sl_no := 3;
              App.course_code := "CSE1001";
              App.course_title := "Intro to Systems";
              App.course_type := "REG";
              App.credits := Py.float_of_Z 4;
              App.grade := "A";
              App.exam_month := "MAY2023";
              App.result_declared_on := "JUN2023";
              App.course_option := "FULL";
              App.course_distribution := "DIST1" |}
           eq_refl).
Defined.

(** ** C5: the segmenter *)

Lemma segment_step_anchor (raw_line : str) (records : list App.CourseRecord)
      (cur : str) :
  App.clean_line raw_line <> [] ->
  Re.row_start (App.clean_line raw_line) = true ->
  App.segment_step (records, cur) raw_line =
  Ok (records ++ (if Py.is_empty cur then [] else Spec.row_records cur),
      App.clean_line raw_line).
Proof.
  intros Hne Ha. unfold App.segment_step.
  apply is_empty_false in Hne. rewrite Hne, Ha, flush_rows. reflexivity.
Qed.

Lemma segment_step_other (raw_line : str) (records : list App.CourseRecord)
      (cur : str) :
  App.clean_line raw_line <> [] ->
  Re.row_start (App.clean_line raw_line) = false ->
  App.segment_step (records, cur) raw_line =
  Ok (records,
      if Py.is_empty cur then [] else cur ++ " " ++ App.clean_line raw_line).
Proof.
  intros Hne Ha. unfold App.segment_step.
  apply is_empty_false in Hne. rewrite Hne, Ha.
  destruct cur; reflexivity.
Qed.

(** Lines that are no anchors, met with an empty accumulator, leave the
    state as it is. *)
Lemma stray_lines_dropped (lines : list str) (records : list App.CourseRecord) :
  Forall (fun l => ~ Spec.anchor (App.clean_line l)) lines ->
  App.segment_loop (records, []) lines = Ok (records, []).
Proof.
  induction 1 as [|l rest Hl _ IH]; simpl; [reflexivity|].
  destruct (Py.is_empty (App.clean_line l)); simpl; [exact IH|].
  destruct (Re.row_start (App.clean_line l)) eqn:Ea; simpl; [|exact IH].
  apply row_start_anchor in Ea. contradiction.
Qed.

(** C5.  A cleaned non-empty line starts a new record (the open row is
    flushed and the line becomes the accumulator) if and only if it
    begins with one or more digits, whitespace and a course code of 3
    capitals and 4 digits that ends at a word boundary; any other line
    is appended to a non-empty accumulator after a single space, and is
    dropped when the accumulator is empty, as it is before the first
    anchor line. *)
Theorem segmenter_behaviour (raw_line : str)
        (records : list App.CourseRecord) (cur : str) :
  App.clean_line raw_line <> [] ->
  let line := App.clean_line raw_line in
  ((exists records', App.segment_step (records, cur) raw_line
                     = Ok (records', line))
   <-> Spec.anchor line)
  /\ (Spec.anchor line ->
      App.segment_step (records, cur) raw_line =
      Ok (records ++ (if Py.is_empty cur then [] else Spec.row_records cur),
          line))
  /\ (~ Spec.anchor line -> cur <> [] ->
      App.segment_step (records, cur) raw_line
      = Ok (records, cur ++ " " ++ line))
  /\ (~ Spec.anchor line ->
      App.segment_step (records, []) raw_line = Ok (records, []))
  /\ (forall lines,
        Forall (fun l => ~ Spec.anchor (App.clean_line l)) lines ->
        App.segment_loop (records, []) lines = Ok (records, [])).
Proof.
  intros Hne line. subst line.
  destruct (Re.row_start (App.clean_line raw_line)) eqn:Ea.
  - assert (Spec.anchor (App.clean_line raw_line)) as HA
      by now apply row_start_anchor.
    pose proof (segment_step_anchor raw_line records cur Hne Ea) as Hs.
    split; [split; [intros _; exact HA|intros _; eauto]|].
    split; [intros _; exact Hs|].
    split; [intros Hn; contradiction|].
    split; [intros Hn; contradiction|].
    intros lines. apply stray_lines_dropped.
  - assert (~ Spec.anchor (App.clean_line raw_line)) as HA.
    { intros HA. apply row_start_anchor in HA. congruence. }
    pose proof (segment_step_other raw_line records cur Hne Ea) as Hs.
    split; [split; [|intros Hn; contradiction]|].
    { intros (records' & Hr). rewrite Hs in Hr. injection Hr as _ Hr.
      destruct cur as [|c cur']; simpl in Hr; [congruence|].
      apply (f_equal (@length ascii)) in Hr.
      simpl in Hr. rewrite length_app in Hr. simpl in Hr. lia. }
    split; [intros Hn; contradiction|].
    split.
    { intros _ Hc. rewrite Hs. apply is_empty_false in Hc. now rewrite Hc. }
    split.
    { intros _. exact (segment_step_other raw_line records [] Hne Ea). }
    intros lines. apply stray_lines_dropped.
Qed.

Lemma segmenter_behaviour_witness :
  Spec.anchor "12 CSE1001 Data Structures"
  /\ App.segment_step ([], "11 MAT1001 Calculus") "  12 CSE1001 Data Structures "
     = Ok ([] ++ Spec.row_records "11 MAT1001 Calculus",
           "12 CSE1001 Data Structures").
Proof.
  assert (App.clean_line "  12 CSE1001 Data Structures " <> []) as Hne
    by (vm_compute; discriminate).
  destruct (segmenter_behaviour "  12 CSE1001 Data Structures " []
              "11 MAT1001 Calculus" Hne) as (Hiff & Hstep & _).
  assert (Spec.anchor (App.clean_line "  12 CSE1001 Data Structures ")) as HA.
  { apply row_start_anchor. vm_compute. reflexivity. }
  split; [exact HA|exact (Hstep HA)].
Defined.

(** ** C8 and C9: rows with a surplus cell in [parse_csv] *)

(** C8, the code at the failing input.  In a file of a header, a good
    row, a row of eleven blank cells and another good row, the blank
    row is not skipped: the blank-row test, which stands before the
    [try], calls [strip] on the list of surplus cells, and the
    [AttributeError] ends the whole decode.  Without the blank row the
    two records are decoded. *)
Theorem blank_row_with_surplus_cell_aborts :
  App.parse_csv (Sample.header_line ++ Sample.csv_row1
                 ++ Sample.blank_row11 ++ Sample.csv_row2)
  = Raise AttributeError
  /\ App.parse_csv (Sample.header_line ++ Sample.csv_row1 ++ Sample.csv_row2)
     = Ok [Sample.record1; Sample.record2].
Proof. split; vm_compute; reflexivity. Qed.

(** C9, the code at the failing input.  Row parsing never raises, but
    CSV decoding does: on a data row whose named cells are blank and
    that has one cell more than the header, [parse_csv] lets an
    [AttributeError] escape to its caller. *)
Theorem csv_decoding_not_total :
  (forall line, exists o, App.parse_course_line line = Ok o)
  /\ (forall raw_text, exists records,
        App.parse_grade_history raw_text = Ok records)
  /\ App.parse_csv (Sample.header_line ++ Sample.surplus_row)
     = Raise AttributeError.
Proof.
  split; [exact parse_course_line_total|].
  split; [|vm_compute; reflexivity].
  intros raw_text. rewrite parse_grade_history_rows. eauto.
Qed.

(** ** C2: the normalizer and idempotence *)

(** C2, the code at the failing input.  On [ABC1234DEF5678G] the
    second pattern matches [ABC1234D] and, matches not overlapping,
    passes over [DEF5678G]: the course code [DEF5678] stays glued to
    the letter after it, the boundary the normalizer is to repair.  A
    second run of the normalizer then separates [DEF5678] from [G], so
    normalizing twice is not normalizing once. *)
Theorem normalize_not_idempotent :
  App.normalize_raw_text Sample.glued_codes = "ABC1234 DEF5678G"
  /\ App.normalize_raw_text (App.normalize_raw_text Sample.glued_codes)
     = "ABC1234 DEF5678 G"
  /\ App.normalize_raw_text (App.normalize_raw_text Sample.glued_codes)
     <> App.normalize_raw_text Sample.glued_codes.
Proof.
  split; [vm_compute; reflexivity|].
  split; [vm_compute; reflexivity|].
  vm_compute. discriminate.
Qed.

(** Where the defect does not fire: normalizing twice is normalizing
    once for every text in which no course code is glued to a course
    code that is itself glued to a letter, that is, with no match of
    [[A-Z]{3}\d{4}[A-Z]{3}\d{4}[A-Za-z]]; after one run neither pattern
    matches anywhere. *)
Lemma normalize_idempotent (s : str) :
  Spec.no_glued s = true ->
  App.normalize_raw_text (App.normalize_raw_text s) = App.normalize_raw_text s.
Proof.
  intros H. unfold App.normalize_raw_text, Re.sub.
  set (u := Re.sub_from Re.number_code 0 None s).
  set (t := Re.sub_from Re.code_letter 0 None u).
  assert (Re.quiet Re.number_code None t) as Q1.
  { apply code_letter_sub_keeps_quiet. apply number_code_sub_quiet. }
  assert (Re.quiet Re.code_letter None t) as Q2.
  { apply code_letter_sub_quiet. now apply number_code_sub_no_glued. }
  rewrite (sub_from_quiet Re.number_code t None Q1).
  now rewrite (sub_from_quiet Re.code_letter t None Q2).
Qed.

(** ** C1: the CSV round trip *)

(** C1, amended.  For every sequence of records whose cells are clean
    (no whitespace at the ends, no carriage return, within the field
    size limit of the reader), each with a credits cell that [float]
    reads as its credits, other than NaN, and a serial number of at
    most 4300 digits, the sequence itself of at most [10 ^ 4300]
    records: [download_csv] on the form of the records answers a CSV
    text, and [parse_csv] on that text gives the records back, field
    for field and in order. *)
Theorem csv_round_trip (rs : list (App.CourseRecord * str)) :
  Forall Spec.exportable rs ->
  Z.of_nat (length rs) <= 10 ^ Z.of_N Py.max_str_digits ->
  exists text,
    App.download_csv (Spec.form_of_records rs) = Ok text
    /\ App.parse_csv text = Ok (map fst rs).
Proof.
  intros H Hlen. eexists. split; [now apply download_csv_records|].
  clear Hlen.
  unfold App.parse_csv.
  rewrite reader_rows_written.
  - cbn [Csv.dict_rows].
    assert (filter (fun row : list str => negb (Csv.is_nil row))
              (map (fun rc => Spec.cells_of (fst rc) (snd rc)) rs)
            = map (fun rc => Spec.cells_of (fst rc) (snd rc)) rs) as Hf.
    { clear. induction rs as [|rc rs IH]; [reflexivity|].
      cbn [map filter Spec.cells_of Csv.is_nil negb]. now rewrite IH. }
    rewrite Hf, (csv_loop_records rs [] H). reflexivity.
  - constructor; [exact header_portable|].
    induction H as [|rc rs Hrc _ IH]; constructor; [|assumption].
    now apply cells_portable.
Qed.

Lemma csv_round_trip_witness :
  exists text,
    App.download_csv
      (Spec.form_of_records
         [(Sample.record1, "3.0"); (Sample.record3, "2"); (Sample.record2, "4.00")])
    = Ok text
    /\ App.parse_csv text = Ok [Sample.record1; Sample.record3; Sample.record2].
Proof.
  apply (csv_round_trip
           [(Sample.record1, "3.0"); (Sample.record3, "2");
            (Sample.record2, "4.00")]).
  - repeat (apply Forall_cons; [unfold Spec.exportable; repeat split|]);
      try apply Forall_nil;
      try (repeat constructor; vm_compute; intuition discriminate);
      vm_compute; first [reflexivity | discriminate].
  - vm_compute. discriminate.
Defined.

(** C1, counterexample.  A record whose title starts with a blank is
    type-valid, yet encoder and decoder both strip their cells: the
    decoded record has the title without the blank. *)
Lemma csv_round_trip_fails :
  exists text,
    App.download_csv (Spec.form_of_records [(Sample.record2_blank, "4.0")])
    = Ok text
    /\ App.parse_csv text = Ok [Sample.record2]
    /\ App.parse_csv text <> Ok [Sample.record2_blank].
Proof.
  eexists. split; [vm_compute; reflexivity|].
  split; [vm_compute; reflexivity|]. vm_compute. discriminate.
Qed.

(** * Further properties of the code *)

(** ** The normalizer *)

Lemma unblank_app (a b : str) : unblank (a ++ b) = unblank a ++ unblank b.
Proof. apply filter_app. Qed.

(** A spacer only inserts blanks. *)
Lemma sub_unblank (Q : str -> str -> Prop) (m : Re.matcher) :
  Re.spacer Q m ->
  forall s prev,
    unblank (Re.sub_from m 0 prev s) = unblank s
    /\ (length s <= length (Re.sub_from m 0 prev s))%nat.
Proof.
  intros Hm.
  apply (sub_spacer_ind Q m
           (fun _ s t => unblank t = unblank s /\ (length s <= length t)%nat)
           Hm).
  - intros prev. split; [reflexivity|lia].
  - intros prev c r _ [IH1 IH2]. split.
    + change (c :: r) with ([c] ++ r).
      change (c :: Re.sub_from m 0 (Some c) r)
        with ([c] ++ Re.sub_from m 0 (Some c) r).
      now rewrite !unblank_app, IH1.
    + simpl. lia.
  - intros prev a b rest _ _ _ [IH1 IH2]. split.
    + rewrite !unblank_app, IH1. reflexivity.
    + rewrite !length_app in *. simpl. lia.
Qed.

(** X1.  The normalizer only inserts blanks: without its blanks the
    normalized text is the text without its blanks, and it is no
    shorter than the text. *)
Theorem normalize_inserts_blanks (text : str) :
  unblank (App.normalize_raw_text text) = unblank text
  /\ (length text <= length (App.normalize_raw_text text))%nat.
Proof.
  unfold App.normalize_raw_text, Re.sub.
  destruct (sub_unblank _ _ number_code_spacer text None) as [H1 H2].
  destruct (sub_unblank _ _ code_letter_spacer
              (Re.sub_from Re.number_code 0 None text) None) as [H3 H4].
  split; [now rewrite H3, H1|lia].
Qed.

(** A text without characters of the class [p], which every match of
    the spacer holds, has no match. *)
Lemma spacer_quiet (Q : str -> str -> Prop) (m : Re.matcher)
      (p : ascii -> bool) :
  Re.spacer Q m ->
  (forall a b, Q a b -> exists c, In c (a ++ b) /\ p c = true) ->
  forall s prev,
    (forall c, In c s -> p c = false) -> Re.quiet m prev s.
Proof.
  intros Hm HQ s. induction s as [|c r IH]; intros prev Hs; [exact I|].
  split; [|apply IH; intros x Hx; apply Hs; now right].
  destruct (m prev (c :: r)) as [[repl n]|] eqn:E; [|reflexivity].
  destruct (Hm _ _ _ _ E) as (a & b & rest & Hsplit & _ & _ & _ & Hab).
  destruct (HQ a b Hab) as (x & Hin & Hp).
  rewrite (Hs x) in Hp; [discriminate|].
  rewrite Hsplit, app_assoc. apply in_or_app. now left.
Qed.

Lemma code_has_upper_digit (cd : str) :
  Re.is_code cd = true ->
  (exists c, In c cd /\ Py.is_upper c = true)
  /\ (exists c, In c cd /\ Py.is_digit c = true).
Proof.
  intros H.
  destruct (is_code_shape cd H)
    as (a & b & c & d1 & d2 & d3 & d4 & -> & Ha & _ & _ & H1 & _).
  split; [exists a|exists d1]; split; simpl; auto.
Qed.

Lemma number_code_has (p : ascii -> bool) (a b : str) :
  (forall cd, Re.is_code cd = true -> exists c, In c cd /\ p c = true) ->
  Re.number_code_parts a b -> exists c, In c (a ++ b) /\ p c = true.
Proof.
  intros Hp (_ & _ & Hc). destruct (Hp b Hc) as (c & Hin & Hc').
  exists c. split; [apply in_or_app; now right|assumption].
Qed.

Lemma code_letter_has (p : ascii -> bool) (a b : str) :
  (forall cd, Re.is_code cd = true -> exists c, In c cd /\ p c = true) ->
  Re.code_letter_parts a b -> exists c, In c (a ++ b) /\ p c = true.
Proof.
  intros Hp (Hc & _). destruct (Hp a Hc) as (c & Hin & Hc').
  exists c. split; [apply in_or_app; now left|assumption].
Qed.

Lemma normalize_without (p : ascii -> bool) (text : str) :
  (forall cd, Re.is_code cd = true -> exists c, In c cd /\ p c = true) ->
  (forall c, In c text -> p c = false) ->
  App.normalize_raw_text text = text.
Proof.
  intros Hp H. unfold App.normalize_raw_text, Re.sub.
  rewrite (sub_from_quiet Re.number_code text None).
  - apply sub_from_quiet.
    apply (spacer_quiet _ _ p code_letter_spacer); [|exact H].
    intros a b. now apply code_letter_has.
  - apply (spacer_quiet _ _ p number_code_spacer); [|exact H].
    intros a b. now apply number_code_has.
Qed.

Lemma forallb_not (p : ascii -> bool) (s : str) :
  forallb (fun c => negb (p c)) s = true -> forall c, In c s -> p c = false.
Proof.
  intros H c Hin. rewrite forallb_forall in H.
  now apply negb_true_iff, H.
Qed.

(** X2.  A text without capital letters, or without digits, holds no
    course code and the normalizer leaves it as it is. *)
Theorem normalize_needs_code (text : str) :
  forallb (fun c => negb (Py.is_upper c)) text = true
  \/ forallb (fun c => negb (Py.is_digit c)) text = true ->
  App.normalize_raw_text text = text.
Proof.
  intros [H|H].
  - apply (normalize_without Py.is_upper); [|now apply forallb_not].
    intros cd Hc. apply (code_has_upper_digit cd Hc).
  - apply (normalize_without Py.is_digit); [|now apply forallb_not].
    intros cd Hc. apply (code_has_upper_digit cd Hc).
Qed.

Lemma normalize_needs_code_witness :
  App.normalize_raw_text "semester 3, credits 21.5" = "semester 3, credits 21.5".
Proof.
  apply (normalize_needs_code "semester 3, credits 21.5").
  left. reflexivity.
Defined.

Lemma sub_from_prev (m : Re.matcher) (p p' : option ascii) (s : str) :
  (forall t, m p t = m p' t) ->
  Re.sub_from m 0 p s = Re.sub_from m 0 p' s.
Proof. intros H. destruct s as [|c r]; [reflexivity|]. simpl. now rewrite H. Qed.

Lemma spacer_nil (Q : str -> str -> Prop) (m : Re.matcher)
      (prev : option ascii) :
  Re.spacer Q m -> m prev [] = None.
Proof.
  intros Hm. destruct (m prev []) as [[repl n]|] eqn:E; [|reflexivity].
  destruct (Hm _ _ _ _ E) as (a & b & rest & Hs & _ & -> & Hn & _).
  destruct a, b; simpl in *; try discriminate. lia.
Qed.

(** [re.sub] works line by line. *)
Lemma sub_line (Q : str -> str -> Prop) (m : Re.matcher) :
  Re.spacer Q m -> line_bound m ->
  forall u prev v,
    Re.sub_from m 0 prev (u ++ Csv.LF :: v)
    = Re.sub_from m 0 prev u ++ Csv.LF :: Re.sub_from m 0 None v.
Proof.
  intros Hm [Hl Hp].
  apply (sub_spacer_ind Q m
           (fun prev u t =>
              forall v, Re.sub_from m 0 prev (u ++ Csv.LF :: v)
                        = t ++ Csv.LF :: Re.sub_from m 0 None v)
           Hm).
  - intros prev v. cbn [app].
    rewrite sub_from_nomatch.
    + f_equal. now apply sub_from_prev.
    + pose proof (Hl prev [] v) as H0. cbn [app] in H0. rewrite H0.
      now apply (spacer_nil Q).
  - intros prev c r Hn IH v. cbn [app].
    rewrite sub_from_nomatch; [now rewrite IH|].
    change (c :: r ++ Csv.LF :: v) with ((c :: r) ++ Csv.LF :: v).
    now rewrite Hl.
  - intros prev a b rest _ Hlen Hmatch IH v.
    replace ((a ++ b ++ rest) ++ Csv.LF :: v)
      with ((a ++ b) ++ rest ++ Csv.LF :: v) by (now rewrite <- !app_assoc).
    rewrite (sub_from_match m prev (a ++ b) (rest ++ Csv.LF :: v)
               (a ++ " " ++ b) Hlen).
    + rewrite IH. now rewrite <- !app_assoc.
    + replace ((a ++ b) ++ rest ++ Csv.LF :: v)
        with ((a ++ b ++ rest) ++ Csv.LF :: v) by (now rewrite <- !app_assoc).
      now rewrite Hl.
Qed.

Lemma LF_digit : Py.is_digit Csv.LF = false.
Proof. reflexivity. Qed.

Lemma LF_upper : Py.is_upper Csv.LF = false.
Proof. reflexivity. Qed.

Lemma LF_letter : Py.is_letter Csv.LF = false.
Proof. reflexivity. Qed.

Lemma code_no_LF (cd : str) : Re.is_code cd = true -> ~ In Csv.LF cd.
Proof.
  intros H Hin.
  destruct (is_code_shape cd H)
    as (a & b & c & d1 & d2 & d3 & d4 & -> & Ha & Hb & Hc & H1 & H2 & H3 & H4).
  simpl in Hin.
  repeat (destruct Hin as [->|Hin];
          [rewrite ?LF_upper, ?LF_digit in *; discriminate|]).
  exact Hin.
Qed.

Lemma digits_no_LF (a : str) :
  forallb Py.is_digit a = true -> ~ In Csv.LF a.
Proof.
  intros H Hin. rewrite forallb_forall in H. specialize (H _ Hin).
  rewrite LF_digit in H. discriminate.
Qed.

Lemma firstn_app_LF (n : nat) (u v : str) :
  (length u < n)%nat -> In Csv.LF (firstn n (u ++ Csv.LF :: v)).
Proof.
  intros H. rewrite firstn_app. apply in_or_app. right.
  destruct (n - length u)%nat eqn:E; [lia|]. now left.
Qed.

Lemma digits_then_code_line (k : nat) (u v : str) :
  Re.digits_then_code k (u ++ Csv.LF :: v) = Re.digits_then_code k u.
Proof.
  destruct (le_lt_dec (k + 7) (length u)) as [Hlen|Hlen].
  - rewrite (digits_then_code_local k (u ++ Csv.LF :: v)),
      (digits_then_code_local k u).
    rewrite firstn_app.
    replace (k + 7 - length u)%nat with 0%nat by lia.
    now rewrite firstn_O, app_nil_r.
  - destruct (Re.digits_then_code k u) as [[r n]|] eqn:Eu.
    { destruct (digits_then_code_some k u r n Eu)
        as (Hs & _ & _ & Hk & _ & Hc).
      apply is_code_length in Hc. apply (f_equal (@length ascii)) in Hs.
      rewrite !length_app, Hc, Hk in Hs. lia. }
    destruct (Re.digits_then_code k (u ++ Csv.LF :: v)) as [[r n]|] eqn:E;
      [|reflexivity].
    exfalso.
    destruct (digits_then_code_some k _ r n E) as (_ & _ & _ & _ & Hd & Hc).
    pose proof (firstn_app_LF (k + 7) u v Hlen) as Hin.
    rewrite firstn_plus in Hin. apply in_app_or in Hin.
    destruct Hin as [Hin|Hin];
      [now apply (digits_no_LF _ Hd)|now apply (code_no_LF _ Hc)].
Qed.

Lemma number_code_line : line_bound Re.number_code.
Proof.
  split.
  - intros prev u v. unfold Re.number_code.
    rewrite !digits_then_code_line.
    destruct u; reflexivity.
  - intros s. reflexivity.
Qed.

Lemma code_letter_line : line_bound Re.code_letter.
Proof.
  split; [|reflexivity].
  intros prev u v.
  destruct (le_lt_dec 8 (length u)) as [Hlen|Hlen].
  - rewrite (code_letter_local prev prev (u ++ Csv.LF :: v)),
      (code_letter_local prev prev u).
    rewrite firstn_app.
    replace (8 - length u)%nat with 0%nat by lia.
    now rewrite firstn_O, app_nil_r.
  - destruct (Re.code_letter prev u) as [[r n]|] eqn:Eu.
    { destruct (code_letter_some prev u r n Eu)
        as (l & rest & Hs & _ & _ & Hc & _).
      apply is_code_length in Hc. apply (f_equal (@length ascii)) in Hs.
      rewrite !length_app, Hc in Hs. simpl in Hs. lia. }
    destruct (Re.code_letter prev (u ++ Csv.LF :: v)) as [[r n]|] eqn:E;
      [|reflexivity].
    exfalso.
    destruct (code_letter_some prev _ r n E)
      as (l & rest & Hs & _ & _ & Hc & Hl).
    pose proof (firstn_app_LF 8 u v Hlen) as Hin.
    change 8%nat with (7 + 1)%nat in Hin. rewrite firstn_plus in Hin.
    apply in_app_or in Hin. destruct Hin as [Hin|Hin];
      [now apply (code_no_LF _ Hc)|].
    rewrite Hs in Hin at 1.
    rewrite skipn_app, (is_code_length _ Hc), Nat.sub_diag in Hin.
    rewrite skipn_all2 in Hin by (rewrite (is_code_length _ Hc); lia).
    simpl in Hin. destruct Hin as [->|[]].
    rewrite LF_letter in Hl. discriminate.
Qed.

Lemma normalize_line (u v : str) :
  App.normalize_raw_text (u ++ Csv.LF :: v)
  = App.normalize_raw_text u ++ Csv.LF :: App.normalize_raw_text v.
Proof.
  unfold App.normalize_raw_text, Re.sub.
  rewrite (sub_line _ _ number_code_spacer number_code_line).
  now rewrite (sub_line _ _ code_letter_spacer code_letter_line).
Qed.

(** X3.  The normalizer works line by line: the normalized form of two
    texts joined by a line feed is their normalized forms joined by a
    line feed. *)
Theorem normalize_line_by_line (u v : str) :
  App.normalize_raw_text (u ++ Csv.LF :: v)
  = App.normalize_raw_text u ++ Csv.LF :: App.normalize_raw_text v.
Proof. apply normalize_line. Qed.

(** X4.  After normalization the first pattern, a serial number glued
    to a course code, matches nowhere: a second run can only separate
    a course code from a letter. *)
Theorem first_pattern_settled (text : str) :
  Re.sub Re.number_code (App.normalize_raw_text text)
  = App.normalize_raw_text text.
Proof.
  unfold App.normalize_raw_text, Re.sub.
  apply sub_from_quiet, code_letter_sub_keeps_quiet, number_code_sub_quiet.
Qed.

(** ** The line cleaner *)

(** *** The footer pattern *)

Lemma starts_with_app (p s : str) :
  Re.starts_with p s = true <-> exists r, s = p ++ r.
Proof.
  revert s. induction p as [|a p IH]; intros s; simpl.
  - split; [intros _; now exists s|reflexivity].
  - destruct s as [|b s]; [split; [discriminate|intros [r Hr]; discriminate]|].
    destruct (ascii_dec a b) as [->|Hab].
    + rewrite IH. split; intros [r Hr]; exists r; [now rewrite Hr|congruence].
    + split; [discriminate|intros [r Hr]; congruence].
Qed.

Lemma span_rest (p : ascii -> bool) (s : str) :
  match snd (Py.span p s) with
  | [] => True
  | c :: _ => p c = false
  end.
Proof.
  induction s as [|c r IH]; simpl; [exact I|].
  destruct (p c) eqn:E; [|exact E].
  destruct (Py.span p r) as [a b]. exact IH.
Qed.

Lemma not_newline_LF (c : ascii) : Re.not_newline c = false -> c = Csv.LF.
Proof. ascii_cases c. Qed.

Lemma not_newline_run (w : str) :
  forallb Re.not_newline w = true <-> ~ In Csv.LF w.
Proof.
  induction w as [|c w IH]; simpl; [tauto|].
  rewrite andb_true_iff, IH. split.
  - intros [Hc Hw] [->|Hin]; [vm_compute in Hc; discriminate|tauto].
  - intros H. split; [|tauto].
    destruct (Re.not_newline c) eqn:E; [reflexivity|].
    apply not_newline_LF in E. tauto.
Qed.

(** A match of the footer pattern: the marker and the rest of the
    line; nothing is written for it. *)
Lemma footer_some (prev : option ascii) (s repl : str) (n : nat) :
  Re.footer prev s = Some (repl, n) ->
  repl = []
  /\ exists tail rest,
       s = Re.footer_marker ++ tail ++ rest
       /\ n = length (Re.footer_marker ++ tail)
       /\ ~ In Csv.LF tail
       /\ match rest with
          | [] => True
          | c :: _ => c = Csv.LF
          end.
Proof.
  unfold Re.footer.
  destruct (Re.starts_with Re.footer_marker s) eqn:E; [|discriminate].
  apply starts_with_app in E. destruct E as [r ->].
  rewrite skipn_app, skipn_all, Nat.sub_diag. cbn [app skipn].
  set (L := length Re.footer_marker).
  set (tl := fst (Py.span Re.not_newline r)).
  intros H. injection H as <- <-. split; [reflexivity|].
  exists tl, (snd (Py.span Re.not_newline r)). subst tl L.
  rewrite span_app, length_app. repeat split.
  - apply not_newline_run, span_forallb.
  - pose proof (span_rest Re.not_newline r) as Hr.
    destruct (snd (Py.span Re.not_newline r)) as [|c x]; [exact I|].
    now apply not_newline_LF.
Qed.

Lemma footer_none (prev : option ascii) (s : str) :
  Re.footer prev s = None <-> Re.starts_with Re.footer_marker s = false.
Proof.
  unfold Re.footer. destruct (Re.starts_with Re.footer_marker s);
    split; congruence.
Qed.

Lemma marker_no_LF : ~ In Csv.LF Re.footer_marker.
Proof. apply not_newline_run. reflexivity. Qed.

Lemma footer_prev (p p' : option ascii) (s : str) :
  Re.footer p s = Re.footer p' s.
Proof. reflexivity. Qed.

Lemma quiet_footer_prev (s : str) (p p' : option ascii) :
  Re.quiet Re.footer p s -> Re.quiet Re.footer p' s.
Proof. destruct s; [trivial|]. intros [H1 H2]. split; assumption. Qed.

(** Induction along the scan of [re.sub] for the footer pattern. *)
Lemma sub_footer_ind (P : str -> str -> Prop) :
  P [] [] ->
  (forall c r t,
      Re.starts_with Re.footer_marker (c :: r) = false ->
      P r t -> P (c :: r) (c :: t)) ->
  (forall tail, ~ In Csv.LF tail -> P (Re.footer_marker ++ tail) []) ->
  (forall tail r t,
      ~ In Csv.LF tail -> P r t ->
      P (Re.footer_marker ++ tail ++ Csv.LF :: r) (Csv.LF :: t)) ->
  forall s prev, P s (Re.sub_from Re.footer 0 prev s).
Proof.
  intros Hnil Hno Hend Hline s.
  assert (forall n s, (length s <= n)%nat ->
                      forall prev, P s (Re.sub_from Re.footer 0 prev s)) as H.
  { clear s. induction n as [|n IH]; intros s Hlen prev.
    - destruct s; [apply Hnil|simpl in Hlen; lia].
    - destruct s as [|c r]; [apply Hnil|].
      destruct (Re.footer prev (c :: r)) as [[repl k]|] eqn:E.
      + destruct (footer_some prev (c :: r) repl k E)
          as (-> & tail & rest & Hs & -> & Htail & Hrest).
        rewrite Hs in *. rewrite app_assoc.
        assert (0 < length (Re.footer_marker ++ tail))%nat as Hpos
            by (rewrite length_app; cbn; lia).
        rewrite (sub_from_match Re.footer prev (Re.footer_marker ++ tail)
                   rest [] Hpos) by (now rewrite <- app_assoc).
        rewrite <- app_assoc. cbn [app].
        destruct rest as [|x rest].
        * rewrite app_nil_r. cbn. now apply Hend.
        * subst x.
          rewrite sub_from_nomatch by reflexivity.
          apply Hline; [assumption|]. apply IH.
          rewrite !length_app in Hlen. cbn in Hlen. simpl. lia.
      + rewrite (sub_from_nomatch Re.footer prev c r E).
        apply Hno; [now apply footer_none in E|].
        apply IH. simpl in Hlen. lia. }
  intros prev. now apply (H (length s)).
Qed.

Lemma starts_with_firstn (p s : str) :
  Re.starts_with p s = true <-> firstn (length p) s = p.
Proof.
  rewrite starts_with_app. split.
  - intros [r ->]. rewrite firstn_app, Nat.sub_diag, firstn_all. cbn.
    apply app_nil_r.
  - intros H. exists (skipn (length p) s). rewrite <- H at 1.
    symmetry. apply firstn_skipn.
Qed.

Lemma cropped_nil_line (s r : str) : cropped s (Csv.LF :: r).
Proof. intros [|k]; [now left|]. right. left. now left. Qed.

Lemma cropped_nil (s : str) : cropped s [].
Proof. intros [|k]; [now left|]. right. right. cbn. lia. Qed.

Lemma cropped_cons (c : ascii) (s t : str) :
  cropped s t -> cropped (c :: s) (c :: t).
Proof.
  intros H [|k]; [now left|]. cbn [firstn].
  destruct (H k) as [E|[E|E]].
  - left. now rewrite E.
  - right. left. now right.
  - right. right. cbn. lia.
Qed.

(** A text cut at line ends starts with the marker only if the text
    it was cut from does. *)
Lemma cropped_starts (s t : str) :
  cropped s t ->
  Re.starts_with Re.footer_marker s = false ->
  Re.starts_with Re.footer_marker t = false.
Proof.
  intros Hc Hs. destruct (Re.starts_with Re.footer_marker t) eqn:E;
    [|reflexivity].
  exfalso. pose proof E as E'. apply starts_with_firstn in E.
  destruct (Hc (length Re.footer_marker)) as [H|[H|H]].
  - rewrite E in H. symmetry in H. apply starts_with_firstn in H. congruence.
  - rewrite E in H. now apply marker_no_LF.
  - apply starts_with_app in E'. destruct E' as [r ->].
    rewrite length_app in H. lia.
Qed.

(** The footer pattern matches nowhere in the text it has rewritten. *)
Lemma footer_sub_quiet (s : str) (prev : option ascii) :
  cropped s (Re.sub_from Re.footer 0 prev s)
  /\ Re.quiet Re.footer None (Re.sub_from Re.footer 0 prev s).
Proof.
  revert s prev.
  apply (sub_footer_ind (fun s t => cropped s t /\ Re.quiet Re.footer None t)).
  - split; [apply cropped_nil|exact I].
  - intros c r t Hn [Hc Hq]. split; [now apply cropped_cons|].
    split; [|now apply (quiet_footer_prev t None)].
    apply footer_none.
    apply (cropped_starts (c :: r)); [now apply cropped_cons|assumption].
  - intros tail _. split; [apply cropped_nil|exact I].
  - intros tail r t _ [_ Hq]. split; [apply cropped_nil_line|].
    split; [reflexivity|now apply (quiet_footer_prev t None)].
Qed.

Lemma quiet_footer_prefix (a b : str) (prev : option ascii) :
  Re.quiet Re.footer prev (a ++ b) -> Re.quiet Re.footer prev a.
Proof.
  revert prev. induction a as [|c a IH]; intros prev H; [exact I|].
  destruct H as [H1 H2]. split; [|now apply IH].
  apply footer_none. apply footer_none in H1.
  destruct (Re.starts_with Re.footer_marker (c :: a)) eqn:E; [|reflexivity].
  apply starts_with_app in E. destruct E as [r Hr].
  assert (Re.starts_with Re.footer_marker ((c :: a) ++ b) = true) as Ht.
  { apply starts_with_app. exists (r ++ b). now rewrite Hr, <- app_assoc. }
  cbn [app] in Ht. congruence.
Qed.

(** *** [str.strip] *)

Lemma lstrip_by_suffix (p : ascii -> bool) (s : str) :
  exists pre, s = pre ++ Py.lstrip_by p s /\ forallb p pre = true.
Proof.
  induction s as [|c r (pre & IH & Hp)]; [now exists []|].
  cbn [Py.lstrip_by]. destruct (p c) eqn:E.
  - exists (c :: pre). cbn. rewrite E. split; [now f_equal|assumption].
  - now exists [].
Qed.

Lemma lstrip_by_head (p : ascii -> bool) (s : str) :
  match Py.lstrip_by p s with
  | [] => True
  | c :: _ => p c = false
  end.
Proof.
  induction s as [|c r IH]; [exact I|].
  cbn [Py.lstrip_by]. destruct (p c) eqn:E; [exact IH|exact E].
Qed.

Lemma lstrip_by_fixed (p : ascii -> bool) (s : str) :
  match s with
  | [] => True
  | c :: _ => p c = false
  end ->
  Py.lstrip_by p s = s.
Proof. destruct s as [|c r]; [reflexivity|]. cbn. now intros ->. Qed.

(** What [strip] leaves: a stretch of the text, with no character of
    the class at either end. *)
Lemma strip_by_middle (p : ascii -> bool) (s : str) :
  exists pre post,
    s = pre ++ Py.strip_by p s ++ post
    /\ forallb p pre = true /\ forallb p post = true
    /\ Py.lstrip_by p (Py.strip_by p s) = Py.strip_by p s
    /\ Py.lstrip_by p (rev (Py.strip_by p s)) = rev (Py.strip_by p s).
Proof.
  unfold Py.strip_by.
  destruct (lstrip_by_suffix p s) as (pre & Hs & Hpre).
  set (y := Py.lstrip_by p s) in *.
  destruct (lstrip_by_suffix p (rev y)) as (post & Hy & Hpost).
  set (x := Py.lstrip_by p (rev y)) in *.
  exists pre, (rev post).
  assert (y = rev x ++ rev post) as Hy'.
  { rewrite <- (rev_involutive y), Hy, rev_app_distr. reflexivity. }
  repeat split.
  - rewrite Hs at 1. now rewrite Hy'.
  - assumption.
  - rewrite forallb_forall in *. intros c Hc. apply Hpost. now apply in_rev.
  - apply lstrip_by_fixed.
    pose proof (lstrip_by_head p s) as Hh. fold y in Hh. rewrite Hy' in Hh.
    destruct (rev x); [exact I|exact Hh].
  - rewrite rev_involutive. apply lstrip_by_fixed.
    apply (lstrip_by_head p (rev y)).
Qed.

Lemma strip_by_idem (p : ascii -> bool) (s : str) :
  Py.strip_by p (Py.strip_by p s) = Py.strip_by p s.
Proof.
  destruct (strip_by_middle p s) as (_ & _ & _ & _ & _ & H1 & H2).
  unfold Py.strip_by at 1. rewrite H1, H2. apply rev_involutive.
Qed.

Lemma strip_idem (s : str) : Py.strip (Py.strip s) = Py.strip s.
Proof. apply strip_by_idem. Qed.

(** X5.  Cleaning a cleaned line changes nothing. *)
Theorem clean_line_idempotent (line : str) :
  App.clean_line (App.clean_line line) = App.clean_line line.
Proof.
  unfold App.clean_line, Re.sub.
  set (t := Re.sub_from Re.footer 0 None line).
  assert (Re.quiet Re.footer None (Py.strip t)) as Hq.
  { destruct (footer_sub_quiet line None) as [_ Hq]. fold t in Hq.
    destruct (strip_by_middle Py.is_space t) as (pre & post & Ht & _).
    fold (Py.strip t) in Ht. rewrite Ht in Hq.
    apply quiet_app in Hq.
    apply quiet_footer_prefix in Hq.
    now apply (quiet_footer_prev _ _ None) in Hq. }
  rewrite (sub_from_quiet Re.footer _ None Hq). apply strip_idem.
Qed.

Lemma starts_with_head (c : ascii) (x : str) :
  Re.starts_with Re.footer_marker (c :: x) = true -> c = "U"%char.
Proof.
  intros H. apply starts_with_app in H. destruct H as [r Hr].
  unfold Re.footer_marker in Hr. cbn [app] in Hr. congruence.
Qed.

(** The scan copies a stretch without the first letter of the marker. *)
Lemma sub_footer_copy (p rest : str) (prev : option ascii) :
  ~ In "U"%char p ->
  Re.sub_from Re.footer 0 prev (p ++ rest)
  = p ++ Re.sub_from Re.footer 0 (Re.prev_after prev p) rest.
Proof.
  revert prev. induction p as [|c p IH]; intros prev Hp; [reflexivity|].
  cbn [app]. rewrite sub_from_nomatch.
  - rewrite IH; [reflexivity|]. intros Hin. apply Hp. now right.
  - apply footer_none.
    destruct (Re.starts_with Re.footer_marker (c :: p ++ rest)) eqn:E;
      [|reflexivity].
    apply starts_with_head in E. subst c. exfalso. apply Hp. now left.
Qed.

Lemma footer_to_line_end (q : str) (prev : option ascii) :
  ~ In Csv.LF q ->
  Re.sub_from Re.footer 0 prev (Re.footer_marker ++ q) = [].
Proof.
  intros Hq.
  assert (0 < length (Re.footer_marker ++ q))%nat as Hpos
      by (rewrite length_app; cbn; lia).
  pose proof (sub_from_match Re.footer prev (Re.footer_marker ++ q) [] []
                Hpos) as H.
  rewrite app_nil_r in H. rewrite H; [reflexivity|].
  unfold Re.footer.
  assert (Re.starts_with Re.footer_marker (Re.footer_marker ++ q) = true)
    as -> by (apply starts_with_app; now exists q).
  rewrite skipn_app, skipn_all, Nat.sub_diag. cbn [app skipn].
  rewrite <- (app_nil_r q) at 1.
  rewrite (span_stop Re.not_newline q [] (proj2 (not_newline_run q) Hq) I).
  cbn [fst]. now rewrite length_app.
Qed.

(** X6.  A line without the letter U, the first of the footer marker,
    is only stripped; a footer marker that follows such a stretch is
    cut off with the rest of the line. *)
Theorem clean_line_cuts_footer (p q : str) :
  ~ In "U"%char p ->
  App.clean_line p = Py.strip p
  /\ (~ In Csv.LF q ->
      App.clean_line (p ++ Re.footer_marker ++ q) = Py.strip p).
Proof.
  intros Hp. unfold App.clean_line, Re.sub. split.
  - rewrite <- (app_nil_r p) at 1.
    rewrite (sub_footer_copy p [] None Hp). cbn [Re.sub_from].
    now rewrite app_nil_r.
  - intros Hq.
    rewrite (sub_footer_copy p _ None Hp), (footer_to_line_end q _ Hq).
    now rewrite app_nil_r.
Qed.

Lemma clean_line_cuts_footer_witness :
  App.clean_line "  9 CSE1001 Programming TH 3.0 A MAY2023 DEC2023 F D1 "
  = Py.strip "  9 CSE1001 Programming TH 3.0 A MAY2023 DEC2023 F D1 "
  /\ App.clean_line
       ("  9 CSE1001 Programming TH 3.0 A MAY2023 DEC2023 F D1 "
        ++ Re.footer_marker ++ " Page 1 of 3")
     = "9 CSE1001 Programming TH 3.0 A MAY2023 DEC2023 F D1".
Proof.
  assert (~ In "U"%char
            "  9 CSE1001 Programming TH 3.0 A MAY2023 DEC2023 F D1 ") as Hp
      by (vm_compute; intuition discriminate).
  assert (~ In Csv.LF " Page 1 of 3") as Hq
      by (vm_compute; intuition discriminate).
  destruct (clean_line_cuts_footer _ " Page 1 of 3" Hp) as [H1 H2].
  split; [exact H1|exact (H2 Hq)].
Defined.

(** ** The row parser *)

(** *** [str.split] and [str.join] *)

Lemma split_from_run (t s cur : str) :
  Forall (fun c => Py.is_space c = false) t ->
  Py.split_from cur (t ++ s) = Py.split_from (cur ++ t) s.
Proof.
  intros H. revert cur. induction H as [|c t Hc _ IH]; intros cur.
  - now rewrite app_nil_r.
  - cbn [app Py.split_from]. rewrite Hc, IH, <- app_assoc. reflexivity.
Qed.

(** Splitting the tokens joined by single blanks gives the tokens. *)
Lemma split_join (ts : list str) :
  Forall (fun t => Spec.is_token t = true) ts ->
  Py.split (Py.join " " ts) = ts.
Proof.
  unfold Py.split. induction 1 as [|t ts Ht Hts IH]; [reflexivity|].
  apply is_token_spec in Ht. destruct Ht as [Hne Hrun].
  destruct ts as [|t' ts].
  - cbn [Py.join]. rewrite <- (app_nil_r t) at 1.
    rewrite (split_from_run t [] [] Hrun).
    cbn [app Py.split_from]. apply is_empty_false in Hne. now rewrite Hne.
  - change (Py.join " " (t :: t' :: ts))
      with (t ++ " " ++ Py.join " " (t' :: ts)).
    rewrite (split_from_run t _ [] Hrun). cbn [app Py.split_from].
    change (Py.is_space " ") with true. cbn iota.
    apply is_empty_false in Hne. rewrite Hne. now rewrite IH.
Qed.

(** X7.  The row parser reads the tokens of the line: however the
    tokens are spaced, the result is that of the tokens joined by
    single blanks, which split into the same tokens. *)
Theorem parse_course_line_spacing (line : str) :
  Py.split (Py.join " " (Py.split line)) = Py.split line
  /\ App.parse_course_line (Py.join " " (Py.split line))
     = App.parse_course_line line.
Proof.
  assert (Py.split (Py.join " " (Py.split line)) = Py.split line) as H
      by apply split_join, split_tokens.
  split; [exact H|]. unfold App.parse_course_line. now rewrite H.
Qed.

(** *** Acceptance *)

Lemma nth_error_credits {A} (a b : A) (mid : list A) (t1 t2 t3 t4 t5 t6 t7 : A) :
  nth_error (a :: b :: mid ++ [t1; t2; t3; t4; t5; t6; t7])
    (length (a :: b :: mid ++ [t1; t2; t3; t4; t5; t6; t7]) - 6)
  = Some t2.
Proof.
  replace (length (a :: b :: mid ++ [t1; t2; t3; t4; t5; t6; t7]) - 6)%nat
    with (length (a :: b :: mid ++ [t1]))%nat
    by (simpl; rewrite !length_app; simpl; lia).
  replace (a :: b :: mid ++ [t1; t2; t3; t4; t5; t6; t7])
    with ((a :: b :: mid ++ [t1]) ++ t2 :: [t3; t4; t5; t6; t7])
    by (simpl; now rewrite <- app_assoc).
  rewrite nth_error_app2, Nat.sub_diag by lia. reflexivity.
Qed.

(** X8.  The row parser accepts exactly the rows of ten tokens or more
    whose first token [int] reads and whose sixth token from the right
    [float] reads. *)
Theorem accepted_iff_well_formed (row : str) :
  (exists r, App.parse_course_line row = Ok (Some r))
  <-> ~ Spec.malformed row.
Proof.
  split.
  - intros [r Hr] Hm. rewrite (malformed_no_record row Hm) in Hr. discriminate.
  - intros Hm. unfold Spec.malformed in Hm.
    destruct (le_lt_dec 10 (length (Py.split row))) as [Hl|Hl];
      [|exfalso; apply Hm; now left].
    destruct (ten_or_more _ Hl)
      as (a & b & mid & t1 & t2 & t3 & t4 & t5 & t6 & t7 & Htok & Hmid).
    rewrite (parse_course_line_tokens row a b mid t1 t2 t3 t4 t5 t6 t7
               Htok Hmid).
    rewrite Htok in Hm.
    destruct (Py.int a) as [n|e] eqn:Ei.
    + destruct (Py.float_of_str t2) as [x|e] eqn:Ef; [eauto|].
      exfalso. apply Hm. right. right. exists t2, e.
      split; [apply nth_error_credits|exact Ef].
    + exfalso. apply Hm. right. left. exists a, e. split; [reflexivity|exact Ei].
Qed.

(** *** Numerals within the limit *)

Lemma usize_nb_digits (u : Decimal.uint) :
  DecimalPos.Unsigned.usize u = N.of_nat (Decimal.nb_digits u).
Proof.
  induction u; cbn [DecimalPos.Unsigned.usize Decimal.nb_digits];
    [reflexivity|rewrite Nat2N.inj_succ; now f_equal ..].
Qed.

Lemma of_lu_bound (u : Decimal.uint) :
  (DecimalPos.Unsigned.of_lu u < 10 ^ DecimalPos.Unsigned.usize u)%N.
Proof.
  induction u;
    cbn [DecimalPos.Unsigned.of_lu DecimalPos.Unsigned.usize];
    [cbn; lia|rewrite N.pow_succ_r'; lia ..].
Qed.

(** A numeral of [n] digits is below [10 ^ n]. *)
Lemma of_uint_bound (u : Decimal.uint) :
  0 <= Z.of_uint u < 10 ^ Z.of_N (DecimalPos.Unsigned.usize u).
Proof.
  unfold Z.of_uint. rewrite DecimalPos.Unsigned.of_uint_alt.
  pose proof (of_lu_bound (Decimal.rev u)) as H.
  rewrite (usize_nb_digits (Decimal.rev u)), DecimalFacts.nb_digits_rev,
    <- usize_nb_digits in H.
  apply N2Z.inj_lt in H. rewrite N2Z.inj_pow in H.
  split; [apply N2Z.is_nonneg|exact H].
Qed.

Lemma digits_length (ds : str) (u : Decimal.uint) :
  Py.digits ds = Some u ->
  DecimalPos.Unsigned.usize u = N.of_nat (length ds).
Proof.
  unfold Py.digits. destruct ds as [|c ds]; [discriminate|].
  intros H. apply DecimalString.NilEmpty.sus in H.
  apply (f_equal String.list_ascii_of_string) in H.
  rewrite String.list_ascii_of_string_of_list_ascii in H.
  now rewrite <- H, length_uint_string.
Qed.

(** What [int] returns has no more digits than the limit. *)
Lemma int_short (s : str) (n : Z) : Py.int s = Ok n -> Spec.short n.
Proof.
  unfold Py.int, Spec.short.
  destruct (Py.drop_sign _) as [neg body].
  destruct (Py.drop_underscores None body) as [ds|]; [|discriminate].
  destruct (Py.max_str_digits <? N.of_nat (length ds))%N eqn:El;
    [discriminate|].
  destruct (Py.digits ds) as [u|] eqn:Ed; [|discriminate].
  intros H. injection H as <-.
  apply N.ltb_ge in El. rewrite <- (digits_length ds u Ed) in El.
  pose proof (of_uint_bound u) as [H0 H1].
  assert (10 ^ Z.of_N (DecimalPos.Unsigned.usize u)
          <= 10 ^ Z.of_N Py.max_str_digits) as Hp
      by (apply Z.pow_le_mono_r; lia).
  destruct neg; lia.
Qed.

(** *** Tokens and titles are clean cells *)

Lemma weight_app (xs ys : list str) :
  weight (xs ++ ys) = (weight xs + weight ys)%nat.
Proof.
  induction xs as [|x xs IH]; [reflexivity|]. cbn [app weight]. lia.
Qed.

Lemma weight_in (t : str) (ts : list str) :
  In t ts -> (length t + 1 <= weight ts)%nat.
Proof.
  induction ts as [|x ts IH]; [intros []|].
  intros [->|H]; cbn [weight]; [lia|]. apply IH in H. lia.
Qed.

Lemma weight_join (ts : list str) :
  (length (Py.join " " ts) <= weight ts)%nat.
Proof.
  induction ts as [|x [|y ts] IH]; [cbn; lia|cbn; lia|].
  change (Py.join " " (x :: y :: ts)) with (x ++ " " ++ Py.join " " (y :: ts)).
  change (weight (x :: y :: ts)) with (length x + 1 + weight (y :: ts))%nat.
  rewrite !length_app. change (length " ") with 1%nat. lia.
Qed.

Lemma split_from_weight (s cur : str) :
  (weight (Py.split_from cur s) <= length cur + length s + 1)%nat.
Proof.
  revert cur. induction s as [|c r IH]; intros cur; cbn [Py.split_from].
  - destruct cur; cbn [Py.is_empty weight length]; lia.
  - cbn [length]. destruct (Py.is_space c).
    + specialize (IH []). cbn [length] in IH.
      destruct (Py.is_empty cur); cbn [weight]; lia.
    + specialize (IH (cur ++ [c])). rewrite length_app in IH.
      cbn [length] in IH. lia.
Qed.

Lemma split_weight (s : str) : (weight (Py.split s) <= length s + 1)%nat.
Proof. apply (split_from_weight s []). Qed.

Lemma strip_by_ends (p : ascii -> bool) (s : str) :
  match s with
  | [] => True
  | c :: _ => p c = false
  end ->
  match rev s with
  | [] => True
  | c :: _ => p c = false
  end ->
  Py.strip_by p s = s.
Proof.
  intros H1 H2. unfold Py.strip_by.
  rewrite (lstrip_by_fixed p s H1), (lstrip_by_fixed p (rev s) H2).
  apply rev_involutive.
Qed.

Lemma token_head (t : str) :
  Spec.is_token t = true ->
  match t with
  | [] => False
  | c :: _ => Py.is_space c = false
  end.
Proof.
  intros H. apply is_token_spec in H. destruct H as [Hne H].
  destruct t as [|c t]; [congruence|]. now inversion H.
Qed.

Lemma token_rev (t : str) :
  Spec.is_token t = true -> Spec.is_token (rev t) = true.
Proof.
  rewrite !is_token_spec. intros [Hne H]. split.
  - intros E. apply Hne. now rewrite <- (rev_involutive t), E.
  - now apply Forall_rev.
Qed.

Lemma CR_space : Py.is_space Csv.CR = true.
Proof. reflexivity. Qed.

Lemma token_no_CR (t : str) : Spec.is_token t = true -> ~ In Csv.CR t.
Proof.
  intros H Hin. apply is_token_spec in H. destruct H as [_ H].
  rewrite Forall_forall in H. specialize (H _ Hin).
  rewrite CR_space in H. discriminate.
Qed.

Lemma token_stripped (t : str) : Spec.is_token t = true -> Py.strip t = t.
Proof.
  intros H. apply strip_by_id. unfold Spec.is_token in H.
  apply andb_true_iff in H. apply H.
Qed.

(** Tokens joined by single blanks: no whitespace at the ends, no
    carriage return. *)
Lemma join_tokens_clean (ts : list str) :
  Forall (fun t => Spec.is_token t = true) ts ->
  Py.strip (Py.join " " ts) = Py.join " " ts
  /\ ~ In Csv.CR (Py.join " " ts).
Proof.
  intros H. split.
  - apply strip_by_ends.
    + destruct H as [|t ts Ht _]; [exact I|].
      apply token_head in Ht. destruct t as [|c t]; [contradiction|].
      destruct ts; exact Ht.
    + induction H as [|t ts Ht Hts IH]; [exact I|].
      destruct ts as [|t' ts].
      * cbn [Py.join]. apply token_rev, token_head in Ht.
        destruct (rev t); [contradiction|exact Ht].
      * change (Py.join " " (t :: t' :: ts))
          with (t ++ " " ++ Py.join " " (t' :: ts)).
        rewrite !rev_app_distr.
        destruct (rev (Py.join " " (t' :: ts))) as [|c x] eqn:E; [|exact IH].
        exfalso. apply (f_equal (@rev ascii)) in E.
        rewrite rev_involutive in E. cbn [rev] in E.
        inversion Hts as [|? ? Ht' _]; subst.
        apply token_head in Ht'. destruct t'; [contradiction|].
        destruct ts; discriminate.
  - induction H as [|t ts Ht Hts IH]; [intros []|].
    destruct ts as [|t' ts]; [now apply token_no_CR|].
    change (Py.join " " (t :: t' :: ts))
      with (t ++ " " ++ Py.join " " (t' :: ts)).
    intros Hin. apply in_app_or in Hin. destruct Hin as [Hin|Hin];
      [now apply (token_no_CR t)|].
    cbn [app] in Hin. destruct Hin as [Hin|Hin]; [discriminate|now apply IH].
Qed.

(** X9.  The fields of an accepted row: every field but the title is
    a token (not empty, without whitespace), the title is its tokens
    joined by single blanks and has no whitespace at its ends. *)
Theorem accepted_fields_clean (line : str) (r : App.CourseRecord) :
  App.parse_course_line line = Ok (Some r) ->
  Forall (fun t => Spec.is_token t = true)
    [App.course_code r; App.course_type r; App.grade r; App.exam_month r;
     App.result_declared_on r; App.course_option r;
     App.course_distribution r]
  /\ Py.join " " (Py.split (App.course_title r)) = App.course_title r
  /\ Py.strip (App.course_title r) = App.course_title r.
Proof.
  intros H.
  destruct (parse_course_line_some line r H)
    as (a & mid & t2 & Htok & _ & _ & _ & Ht).
  pose proof (split_tokens line) as Hall. rewrite Htok in Hall.
  inversion Hall as [|? ? _ H1]; subst. inversion H1 as [|? ? Hcode H2]; subst.
  apply Forall_app in H2. destruct H2 as [Hmid Htail].
  repeat match goal with
         | H : Forall _ (_ :: _) |- _ => inversion H; subst; clear H
         end.
  split; [repeat constructor; assumption|].
  rewrite Ht. split.
  - now rewrite (split_join mid Hmid).
  - now apply join_tokens_clean.
Qed.

Lemma accepted_fields_clean_witness :
  Forall (fun t => Spec.is_token t = true)
    ["CSE1001"; "REG"; "A"; "MAY2023"; "JUN2023"; "FULL"; "DIST1"]
  /\ Py.join " " (Py.split "Intro to Systems") = "Intro to Systems"
  /\ Py.strip "Intro to Systems" = "Intro to Systems".
Proof.
  exact (accepted_fields_clean Sample.row12
           {| App.sl_no := 3;
              App.course_code := "CSE1001";
              App.course_title := "Intro to Systems";
              App.course_type := "REG";
              App.credits := Py.float_of_Z 4;
              App.grade := "A";
              App.exam_month := "MAY2023";
              App.result_declared_on := "JUN2023";
              App.course_option := "FULL";
              App.course_distribution := "DIST1" |}
           eq_refl).
Defined.

(** *** Parsed records as cells of the export *)

Lemma minus_not_space : Py.is_space "-" = false.
Proof. reflexivity. Qed.

Lemma digits_not_space (s : str) :
  forallb Py.is_digit s = true ->
  forallb (fun c => negb (Py.is_space c)) s = true.
Proof.
  apply forallb_impl. intros c Hc.
  destruct (Py.is_space c) eqn:E; [|reflexivity].
  apply space_not_digit in E. congruence.
Qed.

(** What [str] prints for an integer: an optional sign and digits. *)
Lemma str_of_int_shape (z : Z) :
  exists u,
    u <> Decimal.Nil
    /\ Z.of_uint u = Z.abs z
    /\ (Py.str_of_int z
        = String.list_ascii_of_string (DecimalString.NilEmpty.string_of_uint u)
        \/ Py.str_of_int z
           = "-"%char
             :: String.list_ascii_of_string
                  (DecimalString.NilEmpty.string_of_uint u))
    /\ (Spec.short z ->
        (DecimalPos.Unsigned.usize u <= Py.max_str_digits)%N).
Proof.
  destruct (Z_le_gt_dec 0 z) as [Hz|Hz].
  - destruct (str_of_nonneg z Hz) as (u & Hu & Hs & Hv & Hlim).
    exists u. repeat split; [exact Hu|now rewrite Z.abs_eq|now left|].
    unfold Spec.short. rewrite Z.abs_eq by assumption. exact Hlim.
  - destruct z as [|p|p]; try lia.
    pose proof (DecimalZ.of_to (Z.neg p)) as Hof.
    change (- Z.of_uint (Pos.to_uint p) = Z.neg p) in Hof.
    assert (Pos.to_uint p <> Decimal.Nil) as Hn.
    { intros E. rewrite E in Hof. discriminate. }
    exists (Pos.to_uint p). repeat split; [exact Hn|cbn; lia| |apply usize_short].
    right. unfold Py.str_of_int.
    change (Z.to_int (Z.neg p)) with (Decimal.Neg (Pos.to_uint p)).
    cbn [DecimalString.NilZero.string_of_int].
    replace (DecimalString.NilZero.string_of_uint (Pos.to_uint p))
      with (DecimalString.NilEmpty.string_of_uint (Pos.to_uint p))
      by (destruct (Pos.to_uint p); try reflexivity; congruence).
    reflexivity.
Qed.

Lemma str_of_int_clean (z : Z) :
  Spec.short z -> Spec.clean_cell (Py.str_of_int z).
Proof.
  intros Hshort.
  destruct (str_of_int_shape z) as (u & _ & _ & Hs & Hlim).
  specialize (Hlim Hshort). rewrite <- length_uint_string in Hlim.
  pose proof (uint_string_digits u) as Hd.
  set (ds := String.list_ascii_of_string
               (DecimalString.NilEmpty.string_of_uint u)) in *.
  assert (forallb (fun c => negb (Py.is_space c)) (Py.str_of_int z) = true)
    as Hns.
  { destruct Hs as [->| ->]; [now apply digits_not_space|].
    cbn [forallb]. rewrite minus_not_space. now apply digits_not_space. }
  repeat split.
  - now apply strip_by_id.
  - intros Hin. rewrite forallb_forall in Hns. specialize (Hns _ Hin).
    rewrite CR_space in Hns. discriminate.
  - unfold Py.max_str_digits in Hlim. unfold Csv.field_limit.
    destruct Hs as [->| ->]; cbn [length]; lia.
Qed.

Lemma token_clean (t : str) (n : nat) :
  Spec.is_token t = true -> (length t <= n)%nat ->
  (N.of_nat n <= Csv.field_limit)%N ->
  Spec.clean_cell t.
Proof.
  intros Ht Hlen Hn. repeat split;
    [now apply token_stripped|now apply token_no_CR|lia].
Qed.

(** A record parsed from a line within the field size limit, with
    credits other than NaN: its credits token, the sixth token from
    the right, is a credits cell for it, and it is exportable with
    every credits cell. *)
Lemma parsed_exportable (line : str) (r : App.CourseRecord) :
  App.parse_course_line line = Ok (Some r) ->
  (N.of_nat (length line) <= Csv.field_limit)%N ->
  App.credits r <> S754_nan ->
  (exists credits_token,
      Py.index (Py.split line) (-6) = Ok credits_token
      /\ credits_cell r credits_token)
  /\ (forall c, credits_cell r c -> Spec.exportable (r, c)).
Proof.
  intros H Hlen Hnan.
  destruct (parse_course_line_some line r H)
    as (a & mid & t2 & Htok & _ & Hint & Hfloat & Ht).
  pose proof (split_tokens line) as Hall.
  pose proof (split_weight line) as Hw.
  rewrite Htok in Hall, Hw.
  assert (forall t, In t (Py.split line) -> Spec.clean_cell t) as Hcell.
  { intros t Hin. rewrite Htok in Hin.
    apply (token_clean t (length line)); [| |exact Hlen].
    - rewrite Forall_forall in Hall. now apply Hall.
    - apply weight_in in Hin. lia. }
  assert (forall t,
             In t [App.course_code r; App.course_type r; t2; App.grade r;
                   App.exam_month r; App.result_declared_on r;
                   App.course_option r; App.course_distribution r] ->
             Spec.clean_cell t) as Hin.
  { intros t Hin. apply Hcell. rewrite Htok.
    cbn [In] in *. rewrite in_app_iff. cbn [In]. intuition. }
  split.
  { exists t2. split; [|split; [apply Hin; cbn [In]; auto 10|exact Hfloat]].
    rewrite Htok.
    destruct (index_tail7 (a :: App.course_code r :: mid)
                (App.course_type r) t2 (App.grade r) (App.exam_month r)
                (App.result_declared_on r) (App.course_option r)
                (App.course_distribution r))
      as (_ & _ & _ & _ & _ & H6 & _).
    exact H6. }
  intros c [Hc Hfc].
  unfold Spec.exportable. cbn [fst snd].
  split; [|split; [exact Hfc|split; [exact Hnan|now apply (int_short a)]]].
  unfold Spec.cells_of.
  assert (Spec.clean_cell (App.course_title r)) as Htitle.
  { rewrite Ht. inversion Hall as [|? ? _ H1]; subst.
    inversion H1 as [|? ? _ H2]; subst.
    apply Forall_app in H2. destruct H2 as [Hmid _].
    destruct (join_tokens_clean mid Hmid) as [Hs Hcr].
    repeat split; [exact Hs|exact Hcr|].
    pose proof (weight_join mid) as Hj.
    change (a :: App.course_code r :: mid ++ _)
      with ([a; App.course_code r] ++ mid ++
            [App.course_type r; t2; App.grade r; App.exam_month r;
             App.result_declared_on r; App.course_option r;
             App.course_distribution r]) in Hw.
    rewrite !weight_app in Hw. cbn [weight] in Hw. lia. }
  apply Forall_cons; [apply str_of_int_clean; now apply (int_short a)|].
  apply Forall_cons; [apply Hin; cbn [In]; auto 10|].
  apply Forall_cons; [exact Htitle|].
  apply Forall_cons; [apply Hin; cbn [In]; auto 10|].
  apply Forall_cons; [exact Hc|].
  repeat (apply Forall_cons; [apply Hin; cbn [In]; auto 10|]).
  apply Forall_nil.
Qed.

(** X10.  A record parsed from a line of no more characters than the
    field size limit of the CSV reader, with credits other than NaN:
    its own credits token, [tokens[-6]], is a clean cell that [float]
    reads as its credits, and the record is exportable with that token
    and with every other clean cell that [float] reads as its
    credits. *)
Theorem parsed_record_exportable (line : str) (r : App.CourseRecord) :
  App.parse_course_line line = Ok (Some r) ->
  (N.of_nat (length line) <= Csv.field_limit)%N ->
  App.credits r <> S754_nan ->
  (exists credits_token,
      Py.index (Py.split line) (-6) = Ok credits_token
      /\ credits_cell r credits_token
      /\ Spec.exportable (r, credits_token))
  /\ (forall c, credits_cell r c -> Spec.exportable (r, c)).
Proof.
  intros H Hlen Hnan.
  destruct (parsed_exportable line r H Hlen Hnan) as [(t & Hi & Ht) Hall].
  split; [|exact Hall].
  exists t. split; [exact Hi|split; [exact Ht|now apply Hall]].
Qed.

Lemma parsed_record_exportable_witness :
  (exists credits_token,
      Py.index (Py.split Sample.row12) (-6) = Ok credits_token
      /\ credits_cell
           {| App.sl_no := 3;
              App.course_code := "CSE1001";
              App.course_title := "Intro to Systems";
              App.course_type := "REG";
              App.credits := Py.float_of_Z 4;
              App.grade := "A";
              App.exam_month := "MAY2023";
              App.result_declared_on := "JUN2023";
              App.course_option := "FULL";
              App.course_distribution := "DIST1" |} credits_token
      /\ Spec.exportable
           ({| App.sl_no := 3;
               App.course_code := "CSE1001";
               App.course_title := "Intro to Systems";
               App.course_type := "REG";
               App.credits := Py.float_of_Z 4;
               App.grade := "A";
               App.exam_month := "MAY2023";
               App.result_declared_on := "JUN2023";
               App.course_option := "FULL";
               App.course_distribution := "DIST1" |}, credits_token))
  /\ (forall c,
        credits_cell
          {| App.sl_no := 3;
             App.course_code := "CSE1001";
             App.course_title := "Intro to Systems";
             App.course_type := "REG";
             App.credits := Py.float_of_Z 4;
             App.grade := "A";
             App.exam_month := "MAY2023";
             App.result_declared_on := "JUN2023";
             App.course_option := "FULL";
             App.course_distribution := "DIST1" |} c ->
        Spec.exportable
          ({| App.sl_no := 3;
              App.course_code := "CSE1001";
              App.course_title := "Intro to Systems";
              App.course_type := "REG";
              App.credits := Py.float_of_Z 4;
              App.grade := "A";
              App.exam_month := "MAY2023";
              App.result_declared_on := "JUN2023";
              App.course_option := "FULL";
              App.course_distribution := "DIST1" |}, c)).
Proof.
  apply (parsed_record_exportable Sample.row12).
  - vm_compute. reflexivity.
  - vm_compute. discriminate.
  - vm_compute. discriminate.
Defined.

(** ** The document parser *)

(** *** Logical rows start with an anchor *)

Lemma anchor_extend (cur line : str) :
  Spec.anchor cur -> Spec.anchor (cur ++ " " ++ line).
Proof.
  intros (ds & ws & cd & rest & -> & Hds & Hd & Hws & Hw & Hc & Hb).
  exists ds, ws, cd, (rest ++ " " ++ line).
  repeat split; try assumption.
  - now rewrite <- !app_assoc.
  - destruct rest as [|c rest]; [reflexivity|exact Hb].
Qed.

Lemma logical_rows_anchor (lines : list str) :
  forall cur,
    cur = [] \/ Spec.anchor cur ->
    Forall Spec.anchor (Spec.logical_rows cur lines).
Proof.
  induction lines as [|line rest IH]; intros cur Hcur; cbn [Spec.logical_rows].
  - destruct Hcur as [->|H]; [constructor|].
    destruct (Py.is_empty cur); constructor; [assumption|constructor].
  - destruct (Re.row_start line) eqn:Ea.
    + apply Forall_app. split.
      * destruct Hcur as [->|H]; [constructor|].
        destruct (Py.is_empty cur); constructor; [assumption|constructor].
      * apply IH. right. now apply row_start_anchor.
    + destruct (Py.is_empty cur) eqn:Ec; [now apply IH|].
      apply IH. right. destruct Hcur as [->|H]; [discriminate|].
      now apply anchor_extend.
Qed.

Lemma split_from_spaces (ws s : str) :
  forallb Py.is_space ws = true ->
  Py.split_from [] (ws ++ s) = Py.split_from [] s.
Proof.
  induction ws as [|w ws IH]; intros H; [reflexivity|].
  cbn [forallb] in H. apply andb_true_iff in H. destruct H as [Hw H].
  cbn [app Py.split_from Py.is_empty]. rewrite Hw. now apply IH.
Qed.

Lemma split_from_open (s cur : str) :
  cur <> [] ->
  exists x more, Py.split_from cur s = (cur ++ x) :: more.
Proof.
  revert cur. induction s as [|c r IH]; intros cur Hcur.
  - cbn. apply is_empty_false in Hcur. rewrite Hcur.
    exists [], []. now rewrite app_nil_r.
  - cbn [Py.split_from]. destruct (Py.is_space c).
    + apply is_empty_false in Hcur. rewrite Hcur.
      exists [], (Py.split_from [] r). now rewrite app_nil_r.
    + destruct (IH (cur ++ [c])) as (x & more & E);
        [destruct cur; discriminate|].
      exists (c :: x), more. now rewrite E, <- app_assoc.
Qed.

Lemma code_not_space (cd : str) :
  Re.is_code cd = true -> Forall (fun c => Py.is_space c = false) cd.
Proof.
  intros H.
  destruct (is_code_shape cd H)
    as (a & b & c & d1 & d2 & d3 & d4 & -> & Ha & Hb & Hc & H1 & H2 & H3 & H4).
  repeat constructor;
    first [now apply upper_not_space
          | match goal with
            | |- Py.is_space ?x = false =>
                destruct (Py.is_space x) eqn:E; [|reflexivity];
                apply space_not_digit in E; congruence
            end].
Qed.

(** The first two tokens of an anchor line: the digits, and a token
    that starts with the course code. *)
Lemma anchor_tokens (line : str) :
  Spec.anchor line ->
  exists ds cd x more,
    Py.split line = ds :: (cd ++ x) :: more
    /\ ds <> [] /\ forallb Py.is_digit ds = true /\ Re.is_code cd = true.
Proof.
  intros (ds & ws & cd & rest & -> & Hds & Hd & Hws & Hw & Hc & _).
  unfold Py.split.
  assert (Forall (fun c => Py.is_space c = false) ds) as Hns.
  { apply Forall_forall. intros c Hin.
    pose proof (digits_not_space ds Hd) as H.
    rewrite forallb_forall in H. specialize (H c Hin).
    now apply negb_true_iff in H. }
  rewrite (split_from_run ds _ [] Hns). cbn [app].
  destruct ws as [|w ws]; [congruence|].
  cbn [forallb] in Hw. apply andb_true_iff in Hw. destruct Hw as [Hw1 Hw].
  cbn [app Py.split_from]. rewrite Hw1.
  apply is_empty_false in Hds. rewrite Hds.
  rewrite (split_from_spaces ws _ Hw).
  rewrite (split_from_run cd rest [] (code_not_space cd Hc)). cbn [app].
  destruct (split_from_open rest cd) as (x & more & ->).
  { apply is_code_length in Hc. destruct cd; [discriminate|congruence]. }
  exists ds, cd, x, more. apply is_empty_false in Hds. auto.
Qed.

(** [int] on a run of digits returns no negative number. *)
Lemma int_digits_nonneg (ds : str) (n : Z) :
  forallb Py.is_digit ds = true -> Py.int ds = Ok n -> 0 <= n.
Proof.
  intros Hd. unfold Py.int.
  rewrite strip_by_id by (revert Hd; apply forallb_impl, digit_not_num_space).
  assert (Py.drop_sign ds = (false, ds)) as ->.
  { destruct ds as [|c s1]; [reflexivity|].
    cbn [forallb] in Hd. apply andb_true_iff in Hd. destruct Hd as [Hc _].
    revert Hc. clear. unfold Py.drop_sign. ascii_cases c. }
  destruct (Py.drop_underscores None ds) as [ds'|]; [|discriminate].
  destruct (_ <? _)%N; [discriminate|].
  destruct (Py.digits ds') as [u|]; [|discriminate].
  intros H. injection H as <-. apply of_uint_bound.
Qed.

Lemma anchor_record (row : str) (r : App.CourseRecord) :
  Spec.anchor row ->
  App.parse_course_line row = Ok (Some r) ->
  0 <= App.sl_no r /\ Re.is_code (firstn 7 (App.course_code r)) = true.
Proof.
  intros Ha Hr.
  destruct (anchor_tokens row Ha) as (ds & cd & x & more & Hs & _ & Hd & Hc).
  destruct (parse_course_line_some row r Hr)
    as (a & mid & t2 & Htok & _ & Hint & _).
  rewrite Hs in Htok. injection Htok as <- Hcode _.
  split; [now apply (int_digits_nonneg ds)|].
  rewrite <- Hcode, firstn_app, (is_code_length cd Hc), Nat.sub_diag.
  rewrite firstn_O, app_nil_r.
  rewrite <- (is_code_length cd Hc), firstn_all. exact Hc.
Qed.

(** X11.  The document parser never raises, and every record of a
    document has a serial number that is not negative and a course
    code that starts with three capitals and four digits. *)
Theorem document_records_anchored (raw_text : str) :
  exists records,
    App.parse_grade_history raw_text = Ok records
    /\ Forall (fun r => 0 <= App.sl_no r
                        /\ Re.is_code (firstn 7 (App.course_code r)) = true)
         records.
Proof.
  rewrite parse_grade_history_rows. eexists. split; [reflexivity|].
  pose proof (logical_rows_anchor (Spec.cleaned_lines raw_text) []
                (or_introl eq_refl)) as H.
  induction H as [|row rows Hrow _ IH]; [constructor|].
  cbn [flat_map]. apply Forall_app. split; [|exact IH].
  unfold Spec.row_records.
  destruct (App.parse_course_line row) as [[r|]|] eqn:E; constructor;
    [|constructor].
  now apply (anchor_record row).
Qed.

(** *** Pages *)

Lemma normalize_join (pages : list str) :
  App.normalize_raw_text (Py.join [Csv.LF] pages)
  = Py.join [Csv.LF] (map App.normalize_raw_text pages).
Proof.
  induction pages as [|p [|q pages] IH]; [reflexivity|reflexivity|].
  change (Py.join [Csv.LF] (p :: q :: pages))
    with (p ++ Csv.LF :: Py.join [Csv.LF] (q :: pages)).
  rewrite normalize_line, IH. reflexivity.
Qed.

Lemma LF_linebreak : Py.is_linebreak Csv.LF = true.
Proof. reflexivity. Qed.

Lemma splitlines_from_LF (cur v : str) :
  Py.splitlines_from cur (Csv.LF :: v) = cur :: Py.splitlines_from [] v.
Proof.
  cbn [Py.splitlines_from]. rewrite LF_linebreak.
  destruct v as [|c v]; [reflexivity|].
  change ((Py.code Csv.LF =? 13)%N) with false. reflexivity.
Qed.

(** The lines of two texts joined by a line feed: those of the first,
    an empty line if the first is empty or ends with a line break, and
    those of the second. *)
Lemma splitlines_line (v : str) (n : nat) :
  forall u cur,
    (length u <= n)%nat ->
    exists e,
      (e = [] \/ e = [[]])
      /\ Py.splitlines_from cur (u ++ Csv.LF :: v)
         = Py.splitlines_from cur u ++ e ++ Py.splitlines_from [] v.
Proof.
  induction n as [|n IH]; intros u cur Hlen.
  - destruct u; [|cbn in Hlen; lia].
    cbn [app]. rewrite splitlines_from_LF. cbn [Py.splitlines_from].
    destruct cur as [|x cur]; [exists [[]]|exists []]; cbn; auto.
  - destruct u as [|c u].
    { cbn [app]. rewrite splitlines_from_LF. cbn [Py.splitlines_from].
      destruct cur as [|x cur]; [exists [[]]|exists []]; cbn; auto. }
    cbn [length] in Hlen. cbn [app Py.splitlines_from].
    destruct (Py.is_linebreak c) eqn:Ec; [|apply IH; lia].
    destruct u as [|c' u]; cbn [app].
    + destruct ((Py.code c =? 13) && (Py.code Csv.LF =? 10))%N eqn:E.
      * exists []. split; [now left|reflexivity].
      * rewrite splitlines_from_LF. exists [[]]. split; [now right|reflexivity].
    + cbn [length] in Hlen.
      destruct ((Py.code c =? 13) && (Py.code c' =? 10))%N.
      * destruct (IH u [] ltac:(lia)) as (e & He & ->).
        exists e. split; [exact He|reflexivity].
      * destruct (IH (c' :: u) [] ltac:(cbn [length]; lia)) as (e & He & E).
        cbn [app] in E. rewrite E.
        exists e. split; [exact He|reflexivity].
Qed.

Lemma clean_line_nil : App.clean_line [] = [].
Proof. reflexivity. Qed.

(** The cleaned lines of two texts joined by a line feed. *)
Lemma cleaned_split (u v : str) :
  filter (fun l => negb (Py.is_empty l))
    (map App.clean_line (Py.splitlines (u ++ Csv.LF :: v)))
  = filter (fun l => negb (Py.is_empty l))
      (map App.clean_line (Py.splitlines u))
    ++ filter (fun l => negb (Py.is_empty l))
         (map App.clean_line (Py.splitlines v)).
Proof.
  unfold Py.splitlines.
  destruct (splitlines_line v (length u) u [] (le_n _)) as (e & He & ->).
  rewrite !map_app, !filter_app.
  destruct He as [->| ->]; reflexivity.
Qed.

Lemma cleaned_lines_join (pages : list str) :
  Spec.cleaned_lines (Py.join [Csv.LF] pages)
  = flat_map Spec.cleaned_lines pages.
Proof.
  unfold Spec.cleaned_lines. rewrite normalize_join.
  induction pages as [|p [|q pages] IH]; [reflexivity| |].
  - cbn [map Py.join flat_map]. now rewrite app_nil_r.
  - change (Py.join [Csv.LF] (map App.normalize_raw_text (p :: q :: pages)))
      with (App.normalize_raw_text p
            ++ Csv.LF
               :: Py.join [Csv.LF] (map App.normalize_raw_text (q :: pages))).
    rewrite cleaned_split, IH. reflexivity.
Qed.

(** X12.  The pages of a document are read as one run of lines: the
    records are those of the logical rows of the cleaned lines of all
    pages, a row going on from one page to the next. *)
Theorem pages_as_one_text (pages_text : list str) :
  App.parse_grade_history (App.extract_text_from_pdf pages_text)
  = Ok (flat_map Spec.row_records
          (Spec.logical_rows [] (flat_map Spec.cleaned_lines pages_text))).
Proof.
  rewrite parse_grade_history_rows. unfold App.extract_text_from_pdf.
  now rewrite cleaned_lines_join.
Qed.

(** *** Lines before the first anchor *)

Lemma cleaned_lines_line (u v : str) :
  Spec.cleaned_lines (u ++ Csv.LF :: v)
  = Spec.cleaned_lines u ++ Spec.cleaned_lines v.
Proof.
  unfold Spec.cleaned_lines. now rewrite normalize_line, cleaned_split.
Qed.

Lemma logical_rows_stray (stray lines : list str) :
  forallb (fun l => negb (Re.row_start l)) stray = true ->
  Spec.logical_rows [] (stray ++ lines) = Spec.logical_rows [] lines.
Proof.
  induction stray as [|l stray IH]; intros H; [reflexivity|].
  cbn [forallb] in H. apply andb_true_iff in H. destruct H as [Hl H].
  apply negb_true_iff in Hl.
  cbn [app Spec.logical_rows Py.is_empty]. rewrite Hl. now apply IH.
Qed.

(** X13.  Lines before the first anchor line are ignored: a document
    that starts with text none of whose cleaned lines is an anchor
    parses as the document without that text. *)
Theorem preamble_ignored (preamble text : str) :
  forallb (fun l => negb (Re.row_start l)) (Spec.cleaned_lines preamble)
  = true ->
  App.parse_grade_history (preamble ++ Csv.LF :: text)
  = App.parse_grade_history text.
Proof.
  intros H. rewrite !parse_grade_history_rows, cleaned_lines_line.
  now rewrite logical_rows_stray.
Qed.

Lemma preamble_ignored_witness :
  App.parse_grade_history
    ("Grade History" ++ Csv.LF :: "Sl.No Course Code Course Title"
     ++ Csv.LF :: Sample.row12)
  = App.parse_grade_history Sample.row12.
Proof.
  apply (preamble_ignored
           ("Grade History" ++ Csv.LF :: "Sl.No Course Code Course Title")
           Sample.row12).
  vm_compute. reflexivity.
Defined.

(** *** One record at most for each anchor line *)

Lemma logical_rows_count (lines : list str) :
  forall cur,
    (length (Spec.logical_rows cur lines)
     <= length (if Py.is_empty cur then [] else [cur])
        + length (filter Re.row_start lines))%nat.
Proof.
  induction lines as [|line lines IH]; intros cur;
    cbn [Spec.logical_rows filter].
  - cbn [length]. lia.
  - destruct (Re.row_start line) eqn:Ea.
    + rewrite length_app. specialize (IH line).
      assert (Py.is_empty line = false) as E
          by (destruct line; [discriminate Ea|reflexivity]).
      rewrite E in IH. cbn [length] in *. lia.
    + destruct (Py.is_empty cur) eqn:E.
      * specialize (IH cur). rewrite E in IH. exact IH.
      * specialize (IH (cur ++ " " ++ line)).
        assert (Py.is_empty (cur ++ " " ++ line) = false) as E'
            by (destruct cur; [discriminate|reflexivity]).
        rewrite E' in IH. exact IH.
Qed.

Lemma row_records_count (rows : list str) :
  (length (flat_map Spec.row_records rows) <= length rows)%nat.
Proof.
  induction rows as [|row rows IH]; [cbn; lia|].
  cbn [flat_map]. rewrite length_app. unfold Spec.row_records at 1.
  destruct (App.parse_course_line row) as [[r|]|]; cbn [length]; lia.
Qed.

(** X14.  A document has no more records than its cleaned lines have
    anchor lines. *)
Theorem records_per_anchor (raw_text : str) :
  exists records,
    App.parse_grade_history raw_text = Ok records
    /\ (length records
        <= length (filter Re.row_start (Spec.cleaned_lines raw_text)))%nat.
Proof.
  rewrite parse_grade_history_rows. eexists. split; [reflexivity|].
  pose proof (row_records_count
                (Spec.logical_rows [] (Spec.cleaned_lines raw_text))) as H1.
  pose proof (logical_rows_count (Spec.cleaned_lines raw_text) []) as H2.
  cbn [Py.is_empty length] in H2. lia.
Qed.

(** ** The CSV decoder *)

(** *** What [parse_csv] raises *)

Lemma parse_add_char_raises (r : Csv.reader) (c : ascii) (e : exn) :
  Csv.parse_add_char r c = Raise e -> e = CsvError.
Proof.
  unfold Csv.parse_add_char. destruct (_ <=? _)%N; congruence.
Qed.

Lemma parse_process_char_raises (r : Csv.reader) (c : option ascii)
      (e : exn) :
  Csv.parse_process_char r c = Raise e -> e = CsvError.
Proof.
  unfold Csv.parse_process_char, Csv.start_field.
  destruct (Csv.state r); destruct c as [a|]; try discriminate;
    repeat match goal with
           | |- context [if ?b then _ else _] => destruct b
           end;
    try discriminate; try congruence;
    try (apply parse_add_char_raises);
    try (destruct (Csv.parse_add_char _ a) as [r'|e'] eqn:E;
         cbn [bind]; [discriminate|];
         apply parse_add_char_raises in E; congruence).
Qed.

Lemma parse_line_raises (line : str) (r : Csv.reader) (e : exn) :
  Csv.parse_line r line = Raise e -> e = CsvError.
Proof.
  unfold Csv.parse_line.
  assert (forall r, match Csv.parse_chars r line with
                    | Raise e => e = CsvError
                    | Ok _ => True
                    end) as H.
  { induction line as [|c line IH]; intros r0; cbn [Csv.parse_chars];
      [exact I|].
    destruct (Csv.parse_process_char r0 (Some c)) as [r1|e1] eqn:E;
      cbn [bind]; [apply IH|].
    now apply parse_process_char_raises in E. }
  specialize (H r). destruct (Csv.parse_chars r line) as [r1|e1];
    cbn [bind]; [|congruence].
  apply parse_process_char_raises.
Qed.

(** The reader raises [csv.Error] only. *)
Lemma read_rows_raises (lines : list str) :
  forall r rows e, Csv.read_rows r lines = (rows, Some e) -> e = CsvError.
Proof.
  induction lines as [|line lines IH]; intros r rows e; cbn [Csv.read_rows].
  - destruct (_ || _); discriminate.
  - destruct (Csv.parse_line r line) as [r'|e'] eqn:E.
    + destruct (Csv.at_start r').
      * destruct (Csv.read_rows Csv.parse_reset lines) as [rows' err] eqn:E'.
        intros H. injection H as _ ->. now apply (IH _ _ _ E').
      * apply IH.
    + intros H. injection H as _ <-. now apply parse_line_raises in E.
Qed.

Lemma dict_get_in (d : Csv.dict_row) (k : option str) :
  Csv.dict_get d k = Csv.VNone
  \/ exists k', In (k', Csv.dict_get d k) d.
Proof.
  induction d as [|[k' v] d IH]; [now left|].
  cbn [Csv.dict_get]. destruct (Csv.key_eqb k' k).
  - right. exists k'. now left.
  - destruct IH as [IH|[k'' IH]]; [now left|].
    right. exists k''. now right.
Qed.

(** A cell raises on a list of surplus cells only. *)
Lemma cell_raises (d : Csv.dict_row) (col : option str) (e : exn) :
  App.cell d col = Raise e -> e = AttributeError /\ ~ plain d.
Proof.
  unfold App.cell. intros H.
  destruct (dict_get_in d col) as [E|[k' Hin]];
    [rewrite E in H; discriminate|].
  destruct (Csv.dict_get d col) as [s| |[|x l]]; try discriminate.
  injection H as <-. split; [reflexivity|].
  intros Hp. unfold plain in Hp. rewrite Forall_forall in Hp.
  exact (Hp _ Hin).
Qed.

Lemma any_cell_raises (d : Csv.dict_row) (cols : list (option str))
      (e : exn) :
  App.any_cell d cols = Raise e -> e = AttributeError /\ ~ plain d.
Proof.
  induction cols as [|col cols IH]; cbn [App.any_cell]; [discriminate|].
  destruct (App.cell d col) as [s|e'] eqn:E; cbn [bind].
  - destruct (Py.is_empty s); [exact IH|discriminate].
  - intros H. injection H as <-. exact (cell_raises d col e' E).
Qed.

Lemma csv_step_raises (records : list App.CourseRecord) (d : Csv.dict_row)
      (e : exn) :
  App.csv_step records d = Raise e -> e = AttributeError /\ ~ plain d.
Proof.
  unfold App.csv_step.
  destruct (App.any_cell d (Csv.dict_keys d)) as [b|e'] eqn:E; cbn [bind].
  - destruct (negb b); [discriminate|].
    destruct (App.row_record d) as [[r|]|]; discriminate.
  - intros H. injection H as <-. exact (any_cell_raises d _ e' E).
Qed.

Lemma csv_loop_raises (rows : list Csv.dict_row) :
  forall records e,
    App.csv_loop records rows = Raise e ->
    e = AttributeError /\ exists d, In d rows /\ ~ plain d.
Proof.
  induction rows as [|d rows IH]; intros records e; cbn [App.csv_loop];
    [discriminate|].
  destruct (App.csv_step records d) as [records'|e'] eqn:E; cbn [bind].
  - intros H. destruct (IH _ _ H) as (He & d' & Hin & Hd').
    split; [exact He|]. exists d'. split; [now right|exact Hd'].
  - intros H. injection H as <-.
    destruct (csv_step_raises records d e' E) as [He Hd].
    split; [exact He|]. exists d. split; [now left|exact Hd].
Qed.

(** X15.  What escapes [parse_csv]: the [csv.Error] of the reader, or
    an [AttributeError], and this only when a data row has more cells
    than the header. *)
Theorem parse_csv_raises (text : str) (e : exn) :
  App.parse_csv text = Raise e ->
  (e = CsvError /\ snd (Csv.reader_rows (Csv.text_lines text)) = Some CsvError)
  \/ (e = AttributeError
      /\ exists fieldnames data row,
           fst (Csv.reader_rows (Csv.text_lines text)) = fieldnames :: data
           /\ In row data
           /\ (length fieldnames < length row)%nat).
Proof.
  unfold App.parse_csv.
  destruct (Csv.reader_rows (Csv.text_lines text)) as [rows err] eqn:Er.
  cbn [fst snd].
  destruct (App.csv_loop [] (Csv.dict_rows rows)) as [records|e'] eqn:El;
    cbn [bind].
  - destruct err as [e'|]; [|discriminate].
    intros H. injection H as <-.
    unfold Csv.reader_rows in Er. apply read_rows_raises in Er.
    left. now subst e'.
  - intros H. injection H as <-. right.
    destruct (csv_loop_raises _ _ _ El) as (He & d & Hin & Hd).
    split; [exact He|].
    destruct rows as [|fieldnames data]; [destruct Hin|].
    cbn [Csv.dict_rows] in Hin. apply in_map_iff in Hin.
    destruct Hin as (row & <- & Hrow). apply filter_In in Hrow.
    exists fieldnames, data, row. repeat split; [apply Hrow|].
    destruct (le_lt_dec (length row) (length fieldnames)) as [Hle|Hlt];
      [|exact Hlt].
    exfalso. apply Hd. now apply make_dict_plain.
Qed.

Lemma parse_csv_raises_witness :
  (AttributeError = CsvError
   /\ snd (Csv.reader_rows
             (Csv.text_lines (Sample.header_line ++ Sample.surplus_row)))
      = Some CsvError)
  \/ (AttributeError = AttributeError
      /\ exists fieldnames data row,
           fst (Csv.reader_rows
                  (Csv.text_lines (Sample.header_line ++ Sample.surplus_row)))
           = fieldnames :: data
           /\ In row data
           /\ (length fieldnames < length row)%nat).
Proof.
  apply (parse_csv_raises (Sample.header_line ++ Sample.surplus_row)).
  vm_compute. reflexivity.
Defined.

(** *** Columns the header does not name *)

Lemma key_eqb_some (a b : str) :
  Csv.key_eqb (Some a) (Some b) = true <-> a = b.
Proof.
  cbn [Csv.key_eqb]. unfold Py.str_eqb.
  destruct (list_eq_dec ascii_dec a b); split; congruence.
Qed.

Lemma dict_get_set_other (d : Csv.dict_row) (k' k : option str)
      (v : Csv.value) :
  Csv.key_eqb k' k = false ->
  (forall x, Csv.key_eqb x k' = true -> Csv.key_eqb x k = false) ->
  Csv.dict_get (Csv.dict_set d k' v) k = Csv.dict_get d k.
Proof.
  intros Hk Hx. induction d as [|[x w] d IH]; cbn [Csv.dict_set Csv.dict_get].
  - now rewrite Hk.
  - destruct (Csv.key_eqb x k') eqn:E; cbn [Csv.dict_get].
    + now rewrite (Hx x E).
    + now rewrite IH.
Qed.

Lemma key_eqb_trans_false (x : option str) (k' k : option str) :
  Csv.key_eqb k' k = false ->
  Csv.key_eqb x k' = true -> Csv.key_eqb x k = false.
Proof.
  unfold Csv.key_eqb, Py.str_eqb.
  destruct x as [x|], k' as [k'|], k as [k|]; try congruence;
    repeat match goal with
           | |- context [list_eq_dec ?p ?a ?b] => destruct (list_eq_dec p a b)
           end; congruence.
Qed.

Lemma dict_get_set_diff (d : Csv.dict_row) (k' k : option str)
      (v : Csv.value) :
  Csv.key_eqb k' k = false ->
  Csv.dict_get (Csv.dict_set d k' v) k = Csv.dict_get d k.
Proof.
  intros Hk. apply dict_get_set_other; [exact Hk|].
  intros x. now apply key_eqb_trans_false.
Qed.

Lemma key_eqb_diff (a b : str) :
  a <> b -> Csv.key_eqb (Some a) (Some b) = false.
Proof.
  intros H. destruct (Csv.key_eqb (Some a) (Some b)) eqn:E; [|reflexivity].
  apply key_eqb_some in E. contradiction.
Qed.

Lemma dict_zip_get (fieldnames row : list str) (k : str) :
  ~ In k fieldnames ->
  forall d,
    Csv.dict_get (Csv.dict_zip d fieldnames row) (Some k)
    = Csv.dict_get d (Some k).
Proof.
  revert row. induction fieldnames as [|f fs IH]; intros row Hk d;
    [reflexivity|].
  destruct row as [|v vs]; [reflexivity|].
  cbn [Csv.dict_zip]. rewrite IH by (intros H; apply Hk; now right).
  apply dict_get_set_diff, key_eqb_diff. intros ->. apply Hk. now left.
Qed.

Lemma set_all_get (ks : list str) (k : str) (v : Csv.value) :
  ~ In k ks ->
  forall d,
    Csv.dict_get (Csv.set_all d ks v) (Some k) = Csv.dict_get d (Some k).
Proof.
  induction ks as [|f fs IH]; intros Hk d; [reflexivity|].
  cbn [Csv.set_all]. rewrite IH by (intros H; apply Hk; now right).
  apply dict_get_set_diff, key_eqb_diff. intros ->. apply Hk. now left.
Qed.

(** A column the header does not name reads as [None]. *)
Lemma make_dict_missing (fieldnames row : list str) (k : str) :
  ~ In k fieldnames ->
  Csv.dict_get (Csv.make_dict fieldnames row) (Some k) = Csv.VNone.
Proof.
  intros Hk. unfold Csv.make_dict.
  destruct (length fieldnames <? length row)%nat.
  - rewrite dict_get_set_diff by reflexivity. now rewrite dict_zip_get.
  - destruct (length row <? length fieldnames)%nat.
    + rewrite set_all_get, dict_zip_get; [reflexivity|assumption|].
      intros H. apply Hk.
      rewrite <- (firstn_skipn (length row) fieldnames).
      apply in_or_app. now right.
    + now rewrite dict_zip_get.
Qed.

Lemma strip_nil : Py.strip [] = [].
Proof. reflexivity. Qed.

Lemma csv_step_no_serial (records : list App.CourseRecord)
      (d : Csv.dict_row) :
  Csv.dict_get d (Some "Sl.No") = Csv.VNone ->
  forall records',
    App.csv_step records d = Ok records' -> records' = records.
Proof.
  intros Hd records'. unfold App.csv_step.
  destruct (App.any_cell d (Csv.dict_keys d)) as [b|]; cbn [bind];
    [|discriminate].
  destruct (negb b); [congruence|].
  unfold App.row_record, App.cell at 1. rewrite Hd, strip_nil.
  cbn [bind Py.is_empty]. congruence.
Qed.

(** X16.  A file whose header has no column [Sl.No] yields no record. *)
Theorem no_serial_column (text : str) (fieldnames : list str)
        (data : list (list str)) (err : option exn)
        (records : list App.CourseRecord) :
  Csv.reader_rows (Csv.text_lines text) = (fieldnames :: data, err) ->
  ~ In "Sl.No" fieldnames ->
  App.parse_csv text = Ok records ->
  records = [].
Proof.
  intros Hrows Hk. unfold App.parse_csv. rewrite Hrows.
  cbn [Csv.dict_rows].
  set (rows := filter (fun row => negb (Csv.is_nil row)) data).
  assert (forall rs recs,
             App.csv_loop recs (map (Csv.make_dict fieldnames) rs)
             = Ok records -> records = recs) as H.
  { clear Hrows rows. intros rs.
    induction rs as [|row rs IH]; intros recs; cbn [map App.csv_loop];
      [congruence|].
    destruct (App.csv_step recs (Csv.make_dict fieldnames row))
      as [recs'|] eqn:E; cbn [bind]; [|discriminate].
    apply csv_step_no_serial in E; [|now apply make_dict_missing].
    subst recs'. apply IH. }
  destruct (App.csv_loop [] (map (Csv.make_dict fieldnames) rows))
    as [recs|] eqn:E; cbn [bind]; [|discriminate].
  destruct err; [discriminate|]. intros H'. injection H' as <-.
  exact (H rows [] E).
Qed.

Lemma no_serial_column_witness :
  App.parse_csv
    ("Course Code,Credits" ++ [Csv.CR; Csv.LF]
     ++ "CSE1001,3.0" ++ [Csv.CR; Csv.LF])
  = Ok [].
Proof.
  destruct (App.parse_csv
              ("Course Code,Credits" ++ [Csv.CR; Csv.LF]
               ++ "CSE1001,3.0" ++ [Csv.CR; Csv.LF]))
    as [records|e] eqn:E; [|vm_compute in E; discriminate].
  f_equal.
  apply (no_serial_column
           ("Course Code,Credits" ++ [Csv.CR; Csv.LF]
            ++ "CSE1001,3.0" ++ [Csv.CR; Csv.LF])
           ["Course Code"; "Credits"] [["CSE1001"; "3.0"]] None records).
  - vm_compute. reflexivity.
  - vm_compute. intuition discriminate.
  - exact E.
Defined.

(** *** Decoded fields are stripped *)

Lemma cell_stripped (d : Csv.dict_row) (col : option str) (s : str) :
  App.cell d col = Ok s -> Py.strip s = s.
Proof.
  unfold App.cell.
  destruct (Csv.dict_get d col) as [x| |[|x l]]; intros H;
    try discriminate; injection H as <-; apply strip_idem.
Qed.

Lemma row_record_stripped (d : Csv.dict_row) (r : App.CourseRecord) :
  App.row_record d = Ok (Some r) ->
  Forall (fun f => Py.strip f = f) (text_fields r).
Proof.
  unfold App.row_record.
  destruct (App.cell d (Some "Sl.No")) as [s0|]; cbn [bind]; [|discriminate].
  destruct (Py.is_empty s0); [discriminate|].
  destruct (Py.int s0) as [n|]; cbn [bind]; [|discriminate].
  destruct (App.cell d (Some "Course Code")) as [s1|] eqn:E1; cbn [bind];
    [|discriminate].
  destruct (App.cell d (Some "Course Title")) as [s2|] eqn:E2; cbn [bind];
    [|discriminate].
  destruct (App.cell d (Some "Course Type")) as [s3|] eqn:E3; cbn [bind];
    [|discriminate].
  destruct (App.cell d (Some "Credits")) as [s4|]; cbn [bind];
    [|discriminate].
  destruct (if Py.is_empty s4 then Ok (S754_zero false)
            else Py.float_of_str s4) as [x|]; cbn [bind]; [|discriminate].
  destruct (App.cell d (Some "Grade")) as [s5|] eqn:E5; cbn [bind];
    [|discriminate].
  destruct (App.cell d (Some "Exam Month")) as [s6|] eqn:E6; cbn [bind];
    [|discriminate].
  destruct (App.cell d (Some "Result Declared On")) as [s7|] eqn:E7;
    cbn [bind]; [|discriminate].
  destruct (App.cell d (Some "Course Option")) as [s8|] eqn:E8; cbn [bind];
    [|discriminate].
  destruct (App.cell d (Some "Course Distribution")) as [s9|] eqn:E9;
    cbn [bind]; [|discriminate].
  intros H. injection H as <-. unfold text_fields. cbn.
  repeat constructor; eapply cell_stripped; eassumption.
Qed.

Lemma csv_loop_stripped (rows : list Csv.dict_row) :
  forall records records',
    Forall (fun r => Forall (fun f => Py.strip f = f) (text_fields r)) records ->
    App.csv_loop records rows = Ok records' ->
    Forall (fun r => Forall (fun f => Py.strip f = f) (text_fields r)) records'.
Proof.
  induction rows as [|d rows IH]; intros records records' Hr;
    cbn [App.csv_loop]; [congruence|].
  destruct (App.csv_step records d) as [recs|] eqn:E; cbn [bind];
    [|discriminate].
  apply IH. unfold App.csv_step in E.
  destruct (App.any_cell d (Csv.dict_keys d)) as [b|]; cbn [bind] in E;
    [|discriminate].
  destruct (negb b); [congruence|].
  destruct (App.row_record d) as [[r|]|] eqn:Er; try congruence.
  injection E as <-. apply Forall_app. split; [exact Hr|].
  constructor; [|constructor]. now apply (row_record_stripped d).
Qed.

(** X17.  No string field of a decoded record has whitespace at its
    ends. *)
Theorem decoded_fields_stripped (text : str)
        (records : list App.CourseRecord) :
  App.parse_csv text = Ok records ->
  Forall (fun r => Forall (fun f => Py.strip f = f) (text_fields r)) records.
Proof.
  unfold App.parse_csv.
  destruct (Csv.reader_rows (Csv.text_lines text)) as [rows err].
  destruct (App.csv_loop [] (Csv.dict_rows rows)) as [recs|] eqn:E;
    cbn [bind]; [|discriminate].
  destruct err; [discriminate|]. intros H. injection H as <-.
  apply (csv_loop_stripped (Csv.dict_rows rows) [] recs);
    [constructor|exact E].
Qed.

Lemma decoded_fields_stripped_witness :
  Forall (fun r => Forall (fun f => Py.strip f = f) (text_fields r))
    [Sample.record1; Sample.record2].
Proof.
  apply (decoded_fields_stripped
           (Sample.header_line ++ Sample.csv_row1 ++ Sample.csv_row2)).
  vm_compute. reflexivity.
Defined.

(** *** A row with a blank credits cell *)

(** X18.  In a file of the export header and one row of ten cells, a
    blank credits cell is read as 0.0; the serial number is what [int]
    reads and every other cell is stripped. *)
Theorem blank_credits_zero (c1 c2 c3 c4 c5 c6 c7 c8 c9 c10 : str) (n : Z) :
  portable [c1; c2; c3; c4; c5; c6; c7; c8; c9; c10] ->
  Py.strip c1 <> [] ->
  Py.int (Py.strip c1) = Ok n ->
  Py.strip c5 = [] ->
  App.parse_csv
    (Csv.writerow App.header
     ++ Csv.writerow [c1; c2; c3; c4; c5; c6; c7; c8; c9; c10])
  = Ok [{| App.sl_no := n;
           App.course_code := Py.strip c2;
           App.course_title := Py.strip c3;
           App.course_type := Py.strip c4;
           App.credits := S754_zero false;
           App.grade := Py.strip c6;
           App.exam_month := Py.strip c7;
           App.result_declared_on := Py.strip c8;
           App.course_option := Py.strip c9;
           App.course_distribution := Py.strip c10 |}].
Proof.
  intros Hp Hne Hint Hblank. unfold App.parse_csv.
  replace (Csv.writerow App.header
           ++ Csv.writerow [c1; c2; c3; c4; c5; c6; c7; c8; c9; c10])
    with (concat (map Csv.writerow
                    [App.header; [c1; c2; c3; c4; c5; c6; c7; c8; c9; c10]]))
    by (cbn [map concat]; now rewrite app_nil_r).
  rewrite reader_rows_written
    by (constructor; [exact header_portable|constructor; [exact Hp|constructor]]).
  cbn [Csv.dict_rows filter Csv.is_nil negb map App.csv_loop].
  destruct (cell_header c1 c2 c3 c4 c5 c6 c7 c8 c9 c10)
    as (E1 & E2 & E3 & E4 & E5 & E6 & E7 & E8 & E9 & E10).
  unfold App.csv_step.
  apply is_empty_false in Hne.
  rewrite make_dict_header at 2. cbn [Csv.dict_keys map fst App.any_cell].
  rewrite E1. cbn [bind]. rewrite Hne. cbn [negb].
  unfold App.row_record.
  rewrite E1, E2, E3, E4, E5, E6, E7, E8, E9, E10. cbn [bind].
  rewrite Hne, Hint, Hblank. cbn [bind Py.is_empty]. reflexivity.
Qed.

Lemma blank_credits_zero_witness :
  App.parse_csv
    (Csv.writerow App.header
     ++ Csv.writerow ["7"; " PHY1001"; "Physics, part 1"; "TH"; "  "; "A";
                      "MAY2023"; "JUN2023"; "FULL"; "DIST1"])
  = Ok [{| App.sl_no := 7;
           App.course_code := "PHY1001";
           App.course_title := "Physics, part 1";
           App.course_type := "TH";
           App.credits := S754_zero false;
           App.grade := "A";
           App.exam_month := "MAY2023";
           App.result_declared_on := "JUN2023";
           App.course_option := "FULL";
           App.course_distribution := "DIST1" |}].
Proof.
  apply (blank_credits_zero "7" " PHY1001" "Physics, part 1" "TH" "  " "A"
           "MAY2023" "JUN2023" "FULL" "DIST1" 7).
  - split; [split; [cbn; lia|]|];
      repeat constructor; vm_compute; intuition discriminate.
  - vm_compute. discriminate.
  - vm_compute. reflexivity.
  - vm_compute. reflexivity.
Defined.

(** *** The order of columns *)

(** The dictionary of a row with as many cells as the header has
    distinct names. *)
Lemma dict_zip_fresh (fieldnames row : list str) :
  forall d,
    (forall k, In k fieldnames -> ~ In (Some k) (map fst d)) ->
    NoDup fieldnames ->
    length row = length fieldnames ->
    Csv.dict_zip d fieldnames row
    = d ++ map (fun kv => (Some (fst kv), Csv.VStr (snd kv)))
             (combine fieldnames row).
Proof.
  revert row. induction fieldnames as [|k ks IH]; intros row d Hd Hnd Hlen.
  - cbn. now rewrite app_nil_r.
  - destruct row as [|v vs]; [discriminate|].
    cbn [Csv.dict_zip combine map fst snd].
    inversion Hnd as [|? ? Hk Hnd']; subst.
    assert (Csv.dict_set d (Some k) (Csv.VStr v) = d ++ [(Some k, Csv.VStr v)])
      as ->.
    { assert (~ In (Some k) (map fst d)) as Hfresh by (apply Hd; now left).
      clear - Hfresh. induction d as [|[k' v'] d IH]; [reflexivity|].
      cbn [Csv.dict_set app].
      destruct (Csv.key_eqb k' (Some k)) eqn:E.
      - exfalso. apply Hfresh. left. cbn [fst].
        destruct k' as [k'|]; [|discriminate].
        apply key_eqb_some in E. now subst.
      - rewrite IH; [reflexivity|]. intros H. apply Hfresh. now right. }
    rewrite IH; [now rewrite <- app_assoc| |exact Hnd'|].
    + intros k' Hk' Hin. rewrite map_app in Hin. apply in_app_or in Hin.
      destruct Hin as [Hin|[Hin|[]]].
      * apply (Hd k'); [now right|exact Hin].
      * cbn [fst] in Hin. injection Hin as ->. contradiction.
    + cbn [length] in Hlen. lia.
Qed.

Lemma make_dict_full (fieldnames row : list str) :
  NoDup fieldnames -> length row = length fieldnames ->
  Csv.make_dict fieldnames row
  = map (fun kv => (Some (fst kv), Csv.VStr (snd kv)))
      (combine fieldnames row).
Proof.
  intros Hnd Hlen. unfold Csv.make_dict. rewrite Hlen, Nat.ltb_irrefl.
  now rewrite (dict_zip_fresh fieldnames row []).
Qed.

Lemma dict_get_pairs (pairs : list (str * str)) (k v : str) :
  NoDup (map fst pairs) -> In (k, v) pairs ->
  Csv.dict_get (map (fun kv => (Some (fst kv), Csv.VStr (snd kv))) pairs)
    (Some k)
  = Csv.VStr v.
Proof.
  induction pairs as [|[k' v'] pairs IH]; intros Hnd Hin; [destruct Hin|].
  cbn [map fst snd Csv.dict_get]. cbn [map fst] in Hnd.
  inversion Hnd as [|? ? Hk Hnd']; subst.
  destruct Hin as [E|Hin].
  - injection E as -> ->.
    now rewrite (proj2 (key_eqb_some k k) eq_refl).
  - rewrite key_eqb_diff; [now apply IH|].
    intros ->. apply Hk. apply in_map_iff. now exists (k, v).
Qed.

Lemma dict_get_pairs_none (pairs : list (str * str)) (k : str) :
  ~ In k (map fst pairs) ->
  Csv.dict_get (map (fun kv => (Some (fst kv), Csv.VStr (snd kv))) pairs)
    (Some k)
  = Csv.VNone.
Proof.
  induction pairs as [|[k' v'] pairs IH]; intros Hk; [reflexivity|].
  cbn [map fst snd Csv.dict_get]. cbn [map fst] in Hk.
  rewrite key_eqb_diff; [|intros ->; apply Hk; now left].
  apply IH. intros H. apply Hk. now right.
Qed.

(** A permutation of the pairs of a dictionary changes no lookup. *)
Lemma dict_get_perm (pairs pairs' : list (str * str)) (k : str) :
  Permutation pairs pairs' -> NoDup (map fst pairs) ->
  Csv.dict_get (map (fun kv => (Some (fst kv), Csv.VStr (snd kv))) pairs)
    (Some k)
  = Csv.dict_get (map (fun kv => (Some (fst kv), Csv.VStr (snd kv))) pairs')
      (Some k).
Proof.
  intros Hp Hnd.
  assert (NoDup (map fst pairs')) as Hnd'
      by (apply (Permutation_NoDup (Permutation_map fst Hp) Hnd)).
  destruct (in_dec (list_eq_dec ascii_dec) k (map fst pairs)) as [Hin|Hin].
  - apply in_map_iff in Hin. destruct Hin as ([k' v] & Hk & Hin).
    cbn [fst] in Hk. subst k'.
    rewrite (dict_get_pairs pairs k v Hnd Hin).
    symmetry. apply dict_get_pairs; [exact Hnd'|].
    now apply (Permutation_in _ Hp).
  - rewrite (dict_get_pairs_none pairs k Hin).
    symmetry. apply dict_get_pairs_none. intros H. apply Hin.
    apply (Permutation_in _ (Permutation_sym (Permutation_map fst Hp)) H).
Qed.

Lemma any_cell_pairs (pairs : list (str * str)) (d : Csv.dict_row) :
  NoDup (map fst pairs) ->
  d = map (fun kv => (Some (fst kv), Csv.VStr (snd kv))) pairs ->
  forall sub,
    incl sub pairs ->
    App.any_cell d (map (fun kv => Some (fst kv)) sub)
    = Ok (existsb (fun kv => negb (Py.is_empty (Py.strip (snd kv)))) sub).
Proof.
  intros Hnd Hd sub. induction sub as [|[k v] sub IH]; intros Hsub;
    [reflexivity|].
  cbn [map fst snd App.any_cell existsb]. unfold App.cell.
  rewrite Hd at 1. rewrite (dict_get_pairs pairs k v Hnd)
    by (apply Hsub; now left).
  cbn [bind]. destruct (Py.is_empty (Py.strip v)); cbn [negb orb];
    [|reflexivity].
  apply IH. intros x Hx. apply Hsub. now right.
Qed.

Lemma existsb_perm {A} (p : A -> bool) (l l' : list A) :
  Permutation l l' -> existsb p l = existsb p l'.
Proof.
  induction 1; cbn [existsb]; try congruence.
  - now rewrite !orb_assoc, (orb_comm (p y)).
Qed.

Lemma row_record_ext (d d' : Csv.dict_row) :
  (forall k, Csv.dict_get d (Some k) = Csv.dict_get d' (Some k)) ->
  App.row_record d = App.row_record d'.
Proof.
  intros H. unfold App.row_record, App.cell. now rewrite !H.
Qed.

Lemma fst_combine {A B} (l : list A) (l' : list B) :
  length l' = length l -> map fst (combine l l') = l.
Proof.
  revert l'. induction l as [|x l IH]; intros [|y l'] H; try discriminate;
    [reflexivity|].
  cbn [combine map fst]. f_equal. apply IH. cbn in H. lia.
Qed.

(** One turn of the loop on a row and on the same row with its columns
    in another order. *)
Lemma csv_step_columns (fieldnames fieldnames' row row' : list str)
      (records : list App.CourseRecord) :
  NoDup fieldnames -> NoDup fieldnames' ->
  length row = length fieldnames -> length row' = length fieldnames' ->
  Permutation (combine fieldnames row) (combine fieldnames' row') ->
  App.csv_step records (Csv.make_dict fieldnames row)
  = App.csv_step records (Csv.make_dict fieldnames' row').
Proof.
  intros Hnd Hnd' Hlen Hlen' Hp.
  rewrite (make_dict_full fieldnames row Hnd Hlen),
    (make_dict_full fieldnames' row' Hnd' Hlen').
  set (pairs := combine fieldnames row) in *.
  set (pairs' := combine fieldnames' row') in *.
  assert (map fst pairs = fieldnames) as Hk
      by (unfold pairs; now apply fst_combine).
  assert (map fst pairs' = fieldnames') as Hk'
      by (unfold pairs'; now apply fst_combine).
  assert (NoDup (map fst pairs)) as Hn by (now rewrite Hk).
  assert (NoDup (map fst pairs')) as Hn' by (now rewrite Hk').
  unfold App.csv_step, Csv.dict_keys. rewrite !map_map. cbn [fst].
  rewrite (any_cell_pairs pairs _ Hn eq_refl pairs (incl_refl _)).
  rewrite (any_cell_pairs pairs' _ Hn' eq_refl pairs' (incl_refl _)).
  rewrite (existsb_perm _ _ _ Hp). cbn [bind].
  destruct (negb _); [reflexivity|].
  rewrite (row_record_ext _ (map (fun kv => (Some (fst kv), Csv.VStr (snd kv)))
                               pairs')); [reflexivity|].
  intros k. now apply dict_get_perm.
Qed.

(** X19.  The decoder finds the cells by the names of the header: a
    file and the same file with its columns in another order decode to
    the same records. *)
Theorem column_order (fieldnames fieldnames' : list str)
        (rows rows' : list (list str)) :
  NoDup fieldnames -> NoDup fieldnames' ->
  Forall2 (fun row row' =>
             length row = length fieldnames
             /\ length row' = length fieldnames'
             /\ Permutation (combine fieldnames row)
                            (combine fieldnames' row'))
    rows rows' ->
  Forall portable (fieldnames :: rows) ->
  Forall portable (fieldnames' :: rows') ->
  App.parse_csv (concat (map Csv.writerow (fieldnames :: rows)))
  = App.parse_csv (concat (map Csv.writerow (fieldnames' :: rows'))).
Proof.
  intros Hnd Hnd' Hrows Hp Hp'. unfold App.parse_csv.
  rewrite (reader_rows_written _ Hp), (reader_rows_written _ Hp').
  cbn [Csv.dict_rows]. f_equal.
  assert (forall rs, Forall portable rs ->
                     filter (fun row : list str => negb (Csv.is_nil row)) rs
                     = rs) as Hf.
  { clear. induction 1 as [|row rs [[Hlen _] _] _ IH]; [reflexivity|].
    cbn [filter]. destruct row; [cbn in Hlen; lia|]. cbn. now rewrite IH. }
  inversion Hp as [|? ? _ Hpr]; subst. inversion Hp' as [|? ? _ Hpr']; subst.
  rewrite (Hf rows Hpr), (Hf rows' Hpr'). clear Hp Hp' Hpr Hpr' Hf.
  generalize (@nil App.CourseRecord).
  induction Hrows as [|row row' rows rows' (Hl & Hl' & Hperm) _ IH];
    intros records; [reflexivity|].
  cbn [map App.csv_loop].
  rewrite (csv_step_columns fieldnames fieldnames' row row' records
             Hnd Hnd' Hl Hl' Hperm).
  destruct (App.csv_step records (Csv.make_dict fieldnames' row'));
    cbn [bind]; [apply IH|reflexivity].
Qed.

Lemma column_order_witness :
  App.parse_csv
    (concat (map Csv.writerow
               [["Sl.No"; "Credits"; "Grade"]; ["1"; "3.0"; "A"]]))
  = App.parse_csv
      (concat (map Csv.writerow
                 [["Grade"; "Sl.No"; "Credits"]; ["A"; "1"; "3.0"]])).
Proof.
  apply (column_order ["Sl.No"; "Credits"; "Grade"]
           ["Grade"; "Sl.No"; "Credits"] [["1"; "3.0"; "A"]]
           [["A"; "1"; "3.0"]]).
  - repeat constructor; cbn; intuition discriminate.
  - repeat constructor; cbn; intuition discriminate.
  - constructor; [|constructor].
    split; [reflexivity|split; [reflexivity|]].
    cbn [combine].
    apply Permutation_sym, (Permutation_cons_app [_; _] []), Permutation_refl.
  - repeat constructor; try (cbn; lia); vm_compute; intuition discriminate.
  - repeat constructor; try (cbn; lia); vm_compute; intuition discriminate.
Defined.

(** ** The CSV encoder *)

(** *** What [download_csv] raises *)

Lemma digits_run (ds : str) :
  ds <> [] -> forallb Py.is_digit ds = true ->
  exists u, Py.digits ds = Some u.
Proof.
  intros Hne Hd. unfold Py.digits.
  destruct ds as [|c0 ds0]; [congruence|]. clear Hne.
  set (ds := c0 :: ds0) in *. clearbody ds. clear c0 ds0.
  induction ds as [|c ds IH]; [now exists Decimal.Nil|].
  cbn [forallb] in Hd. apply andb_true_iff in Hd. destruct Hd as [Hc Hd].
  destruct (IH Hd) as [u Hu].
  cbn [String.string_of_list_ascii DecimalString.NilEmpty.uint_of_string].
  rewrite Hu. revert Hc. clear.
  destruct c as [[|] [|] [|] [|] [|] [|] [|] [|]]; intros Hc;
    try (vm_compute in Hc; discriminate); cbn; eauto.
Qed.

(** [int] on a run of digits: it fails on a run longer than the limit
    and on no other. *)
Lemma int_digit_run (ds : str) :
  ds <> [] -> forallb Py.is_digit ds = true ->
  if (Py.max_str_digits <? N.of_nat (length ds))%N
  then Py.int ds = Raise ValueError
  else exists n, Py.int ds = Ok n.
Proof.
  intros Hne Hd. unfold Py.int.
  rewrite strip_by_id by (revert Hd; apply forallb_impl, digit_not_num_space).
  assert (Py.drop_sign ds = (false, ds)) as ->.
  { destruct ds as [|c s1]; [reflexivity|].
    cbn [forallb] in Hd. apply andb_true_iff in Hd. destruct Hd as [Hc _].
    revert Hc. clear. unfold Py.drop_sign. ascii_cases c. }
  rewrite (drop_underscores_digits ds None Hd I).
  destruct (Py.max_str_digits <? N.of_nat (length ds))%N; [reflexivity|].
  destruct (digits_run ds Hne Hd) as [u ->]. eauto.
Qed.

Lemma match_minus {A} (c : ascii) (x y : A) :
  c <> "-"%char ->
  match c with
  | "-"%char => x
  | _ => y
  end = y.
Proof.
  intros H.
  destruct c as [[|] [|] [|] [|] [|] [|] [|] [|]]; try reflexivity.
  congruence.
Qed.

Lemma match_key_digits (key ds f : str) :
  App.match_key key = Some (ds, f) ->
  ds <> [] /\ forallb Py.is_digit ds = true.
Proof.
  unfold App.match_key.
  destruct (Re.starts_with "row-" key); [|discriminate].
  pose proof (span_forallb Py.is_digit (skipn 4 key)) as Hd.
  destruct (Py.span Py.is_digit (skipn 4 key)) as [ds' r1].
  destruct r1 as [|c r2]; [discriminate|].
  destruct (ascii_dec c "-") as [->|Hc].
  - destruct (Py.span App.is_field_char r2) as [fs r3].
    destruct (Py.is_empty ds') eqn:E1; [discriminate|].
    destruct (Py.is_empty fs); [discriminate|]. cbn [negb andb].
    intros H. injection H as <- <-.
    split; [now apply is_empty_false|exact Hd].
  - rewrite (match_minus c _ None Hc). discriminate.
Qed.

Lemma collect_raises (form : list (str * str)) :
  forall d,
    (Exists long_index form /\ App.collect d form = Raise ValueError)
    \/ (~ Exists long_index form /\ exists d', App.collect d form = Ok d').
Proof.
  induction form as [|[key v] form IH]; intros d.
  - right. split; [intros H; inversion H|cbn; eauto].
  - cbn [App.collect].
    destruct (App.match_key key) as [[ds f]|] eqn:Em.
    + destruct (match_key_digits key ds f Em) as [Hne Hd].
      pose proof (int_digit_run ds Hne Hd) as Hi.
      destruct (Py.max_str_digits <? N.of_nat (length ds))%N eqn:El.
      * left. rewrite Hi. split; [|reflexivity].
        apply Exists_cons_hd. unfold long_index. cbn [fst]. rewrite Em.
        now apply N.ltb_lt.
      * destruct Hi as [n ->]. cbn [bind].
        destruct (IH (App.rows_set d n f (Py.strip v)))
          as [[He Hr]|[He Hr]].
        -- left. split; [now apply Exists_cons_tl|exact Hr].
        -- right. split; [|exact Hr].
           intros H. inversion H as [? ? Hl|? ? Hl]; subst; [|now apply He].
           unfold long_index in Hl. cbn [fst] in Hl. rewrite Em in Hl.
           apply N.ltb_ge in El. lia.
    + destruct (IH d) as [[He Hr]|[He Hr]].
      * left. split; [now apply Exists_cons_tl|exact Hr].
      * right. split; [|exact Hr].
        intros H. inversion H as [? ? Hl|? ? Hl]; subst; [|now apply He].
        unfold long_index in Hl. cbn [fst] in Hl. now rewrite Em in Hl.
Qed.

(** X20.  [download_csv] fails exactly when the form has a key whose
    row index has more digits than [int] converts, and then with
    [ValueError]. *)
Theorem download_csv_raises (form : list (str * str)) :
  (Exists long_index form /\ App.download_csv form = Raise ValueError)
  \/ (~ Exists long_index form
      /\ exists text, App.download_csv form = Ok text).
Proof.
  unfold App.download_csv.
  destruct (collect_raises form []) as [[He ->]|[He [d' ->]]].
  - left. split; [exact He|reflexivity].
  - right. split; [exact He|]. cbn [bind]. eauto.
Qed.

(** *** The items [download_csv] reads *)

Lemma collect_strip (form : list (str * str)) :
  forall d, App.collect d (map strip_value form) = App.collect d form.
Proof.
  induction form as [|[key v] form IH]; intros d; [reflexivity|].
  cbn [map strip_value fst snd App.collect].
  destruct (App.match_key key) as [[ds f]|]; [|apply IH].
  destruct (Py.int ds) as [n|]; cbn [bind]; [|reflexivity].
  now rewrite strip_idem, IH.
Qed.

Lemma collect_matched (form : list (str * str)) :
  forall d, App.collect d (filter matched form) = App.collect d form.
Proof.
  induction form as [|[key v] form IH]; intros d; [reflexivity|].
  cbn [filter]. unfold matched at 1. cbn [fst App.collect].
  destruct (App.match_key key) as [[ds f]|] eqn:E; [|apply IH].
  cbn [App.collect]. rewrite E.
  destruct (Py.int ds) as [n|]; cbn [bind]; [|reflexivity]. apply IH.
Qed.

(** X21.  Items whose key is no [row-<digits>-<field>] are ignored,
    and whitespace around a value is dropped. *)
Theorem download_csv_reads (form : list (str * str)) :
  App.download_csv (map strip_value (filter matched form))
  = App.download_csv form.
Proof.
  unfold App.download_csv. now rewrite collect_strip, collect_matched.
Qed.

(** *** The rows [download_csv] writes *)

Lemma row_set_all (P : str -> Prop) (row : App.form_row) (f v : str) :
  Forall (fun fv => P (snd fv)) row -> P v ->
  Forall (fun fv => P (snd fv)) (App.row_set row f v).
Proof.
  intros Hrow Hv. induction Hrow as [|[f' v'] row Hfv Hrow IH].
  - repeat constructor. exact Hv.
  - cbn [App.row_set]. destruct (Py.str_eqb f' f).
    + constructor; [exact Hv|exact Hrow].
    + constructor; [exact Hfv|exact IH].
Qed.

Lemma rows_set_all (P : str -> Prop) (d : App.rows_dict) (idx : Z)
      (f v : str) :
  rows_all P d -> P v -> rows_all P (App.rows_set d idx f v).
Proof.
  intros Hd Hv. induction Hd as [|[i row] d Hrow Hd IH].
  - repeat constructor. exact Hv.
  - cbn [App.rows_set]. destruct (i =? idx).
    + constructor; [now apply row_set_all|exact Hd].
    + constructor; [exact Hrow|exact IH].
Qed.

Lemma collect_all (P : str -> Prop) (form : list (str * str)) :
  Forall (fun kv : str * str => P (Py.strip (snd kv))) form ->
  forall d d',
    rows_all P d -> App.collect d form = Ok d' -> rows_all P d'.
Proof.
  induction 1 as [|[key v] form Hv _ IH]; intros d d' Hd; cbn [App.collect];
    [congruence|].
  destruct (App.match_key key) as [[ds f]|]; [|now apply IH].
  destruct (Py.int ds) as [n|]; cbn [bind]; [|discriminate].
  apply IH. now apply rows_set_all.
Qed.

Lemma rows_get_all (P : str -> Prop) (d : App.rows_dict) (idx : Z) :
  rows_all P d -> Forall (fun fv => P (snd fv)) (App.rows_get d idx).
Proof.
  intros Hd. induction Hd as [|[i row] d Hrow Hd IH]; [constructor|].
  cbn [App.rows_get]. destruct (i =? idx); assumption.
Qed.

Lemma row_get_all_P (P : str -> Prop) (row : App.form_row) (f : str) :
  P [] -> Forall (fun fv => P (snd fv)) row -> P (App.row_get row f).
Proof.
  intros Hnil Hrow. induction Hrow as [|[f' v] row Hfv Hrow IH];
    [exact Hnil|].
  cbn [App.row_get]. destruct (Py.str_eqb f' f); assumption.
Qed.

Lemma write_rows_shape (P : str -> Prop) (d : App.rows_dict)
      (idxs : list Z) :
  P [] -> rows_all P d ->
  exists rows,
    App.write_rows d idxs = concat (map Csv.writerow rows)
    /\ Forall (written_row P) rows.
Proof.
  intros Hnil Hd. induction idxs as [|idx idxs (rows & IH & Hrows)].
  - exists []. split; [reflexivity|constructor].
  - cbn [App.write_rows].
    destruct (existsb (fun f => negb (Py.is_empty (App.row_get (App.rows_get d idx) f)))
                App.field_order) eqn:E; cbn [negb].
    + exists (map (App.row_get (App.rows_get d idx)) App.field_order :: rows).
      split; [cbn [map concat]; now rewrite IH|].
      constructor; [|exact Hrows]. repeat split.
      * apply Forall_map, Forall_forall. intros f _.
        apply row_get_all_P; [exact Hnil|]. now apply rows_get_all.
      * apply existsb_exists in E. destruct E as (f & Hf & Hne).
        apply Exists_exists. exists (App.row_get (App.rows_get d idx) f).
        split; [now apply in_map|].
        apply negb_true_iff in Hne. now apply is_empty_false.
    + exists rows. split; [exact IH|exact Hrows].
Qed.

Lemma download_csv_cells (P : str -> Prop) (form : list (str * str))
      (text : str) :
  P [] ->
  Forall (fun kv : str * str => P (Py.strip (snd kv))) form ->
  App.download_csv form = Ok text ->
  exists rows,
    text = concat (map Csv.writerow (App.header :: rows))
    /\ Forall (written_row P) rows.
Proof.
  intros Hnil Hform. unfold App.download_csv.
  destruct (App.collect [] form) as [d|] eqn:E; cbn [bind]; [|discriminate].
  intros H. injection H as <-.
  assert (rows_all P d) as Hd
      by (apply (collect_all P form Hform [] d); [constructor|exact E]).
  destruct (write_rows_shape P d (App.sorted (map fst d)) Hnil Hd)
    as (rows & -> & H).
  exists rows. split; [reflexivity|exact H].
Qed.

(** X22.  What [download_csv] answers: the header line, then rows of
    ten cells without whitespace at their ends, none of the rows
    blank. *)
Theorem download_csv_shape (form : list (str * str)) (text : str) :
  App.download_csv form = Ok text ->
  exists rows,
    text = concat (map Csv.writerow (App.header :: rows))
    /\ Forall (written_row (fun c => Py.strip c = c)) rows.
Proof.
  apply download_csv_cells; [reflexivity|].
  apply Forall_forall. intros kv _. apply strip_idem.
Qed.

Lemma download_csv_shape_witness :
  exists rows,
    Sample.header_line ++ Sample.csv_row1
    = concat (map Csv.writerow (App.header :: rows))
    /\ Forall (written_row (fun c => Py.strip c = c)) rows.
Proof.
  apply (download_csv_shape
           (Spec.form_of_records [(Sample.record1, " 3.0 ")])).
  vm_compute. reflexivity.
Defined.

(** *** Reading an export back *)

Lemma strip_in (c : ascii) (s : str) : In c (Py.strip s) -> In c s.
Proof.
  intros H. destruct (strip_by_middle Py.is_space s) as (pre & post & E & _).
  rewrite E. apply in_or_app. right. apply in_or_app. now left.
Qed.

Lemma strip_length (s : str) : (length (Py.strip s) <= length s)%nat.
Proof.
  destruct (strip_by_middle Py.is_space s) as (pre & post & E & _).
  apply (f_equal (@length ascii)) in E. rewrite !length_app in E.
  unfold Py.strip. lia.
Qed.

(** X23.  An export of values without carriage returns, each within
    the field size limit, is read back without an error. *)
Theorem export_reads_back (form : list (str * str)) (text : str) :
  Forall (fun kv : str * str =>
            ~ In Csv.CR (snd kv)
            /\ (N.of_nat (length (snd kv)) <= Csv.field_limit)%N)
    form ->
  App.download_csv form = Ok text ->
  exists records, App.parse_csv text = Ok records.
Proof.
  intros Hform Htext.
  destruct (download_csv_cells
              (fun c => ~ In Csv.CR c
                        /\ (N.of_nat (length c) <= Csv.field_limit)%N)
              form text) as (rows & -> & Hrows).
  - split; [intros []|cbn; unfold Csv.field_limit; lia].
  - revert Hform. apply Forall_impl. intros kv [Hcr Hlen]. split.
    + intros H. apply Hcr. now apply strip_in.
    + pose proof (strip_length (snd kv)) as H.
      apply N.le_trans with (2 := Hlen). lia.
  - exact Htext.
  - apply (parse_csv_plain _ App.header rows).
    + apply reader_rows_written. constructor; [exact header_portable|].
      revert Hrows. apply Forall_impl. intros row (Hlen & Hcells & _).
      split; [split; [lia|]|].
      * revert Hcells. apply Forall_impl. now intros c [_ H].
      * revert Hcells. apply Forall_impl. now intros c [H _].
    + revert Hrows. apply Forall_impl. intros row (Hlen & _).
      rewrite Hlen. cbn. lia.
Qed.

Lemma export_reads_back_witness :
  exists records,
    App.parse_csv (Sample.header_line ++ Sample.csv_row1) = Ok records.
Proof.
  apply (export_reads_back
           (Spec.form_of_records [(Sample.record1, " 3.0 ")])).
  - repeat constructor; vm_compute; intuition discriminate.
  - vm_compute. reflexivity.
Defined.

(** *** The order of submission *)










(** ** Export and import *)

(** *** The round trip of exportable records *)

Lemma download_parse_records (rs : list (App.CourseRecord * str)) :
  Forall Spec.exportable rs ->
  Z.of_nat (length rs) <= 10 ^ Z.of_N Py.max_str_digits ->
  exists text,
    App.download_csv (Spec.form_of_records rs) = Ok text
    /\ App.parse_csv text = Ok (map fst rs).
Proof.
  intros H Hlen. eexists. split; [now apply download_csv_records|].
  clear Hlen. unfold App.parse_csv.
  rewrite reader_rows_written.
  - cbn [Csv.dict_rows].
    assert (filter (fun row : list str => negb (Csv.is_nil row))
              (map (fun rc => Spec.cells_of (fst rc) (snd rc)) rs)
            = map (fun rc => Spec.cells_of (fst rc) (snd rc)) rs) as Hf.
    { clear. induction rs as [|rc rs IH]; [reflexivity|].
      cbn [map filter Spec.cells_of Csv.is_nil negb]. now rewrite IH. }
    rewrite Hf, (csv_loop_records rs [] H). reflexivity.
  - constructor; [exact header_portable|].
    induction H as [|rc rs Hrc _ IH]; constructor; [|assumption].
    now apply cells_portable.
Qed.

(** *** The round trip strips the fields *)

Lemma str_of_int_stripped (z : Z) : Py.strip (Py.str_of_int z) = Py.str_of_int z.
Proof.
  destruct (str_of_int_shape z) as (u & _ & _ & Hs & _).
  pose proof (uint_string_digits u) as Hd.
  apply strip_by_id.
  destruct Hs as [->| ->]; [now apply digits_not_space|].
  cbn [forallb]. rewrite minus_not_space. now apply digits_not_space.
Qed.

Lemma strip_combine (ks cells : list str) :
  map strip_value (combine ks cells) = combine ks (map Py.strip cells).
Proof.
  revert cells. induction ks as [|k ks IH]; intros [|c cells];
    try reflexivity.
  cbn [combine map]. now rewrite IH.
Qed.

Lemma strip_form_of_rows (rows : list (list str)) :
  forall i,
    map strip_value (Spec.form_of_rows i rows)
    = Spec.form_of_rows i (map (map Py.strip) rows).
Proof.
  induction rows as [|cells rows IH]; intros i; [reflexivity|].
  cbn [Spec.form_of_rows map]. rewrite map_app, IH.
  unfold Spec.form_of_row. now rewrite strip_combine.
Qed.

Lemma strip_form_of_records (rs : list (App.CourseRecord * str)) :
  map strip_value (Spec.form_of_records rs)
  = Spec.form_of_records
      (map (fun rc => (strip_record (fst rc), Py.strip (snd rc))) rs).
Proof.
  unfold Spec.form_of_records. rewrite strip_form_of_rows, !map_map.
  f_equal. apply map_ext. intros [r c]. cbn [fst snd].
  unfold Spec.cells_of. cbn [map strip_record App.sl_no App.course_code
    App.course_title App.course_type App.grade App.exam_month
    App.result_declared_on App.course_option App.course_distribution].
  now rewrite str_of_int_stripped.
Qed.

(** X25.  Export and import strip the string fields and change
    nothing else, when the stripped records are exportable. *)
Theorem round_trip_strips (rs : list (App.CourseRecord * str)) :
  Forall Spec.exportable
    (map (fun rc => (strip_record (fst rc), Py.strip (snd rc))) rs) ->
  Z.of_nat (length rs) <= 10 ^ Z.of_N Py.max_str_digits ->
  exists text,
    App.download_csv (Spec.form_of_records rs) = Ok text
    /\ App.parse_csv text = Ok (map (fun rc => strip_record (fst rc)) rs).
Proof.
  intros H Hlen.
  destruct (download_parse_records _ H) as (text & Hd & Hp);
    [now rewrite length_map|].
  exists text. split.
  - rewrite <- Hd, <- strip_form_of_records.
    unfold App.download_csv. now rewrite collect_strip.
  - rewrite Hp, map_map. reflexivity.
Qed.

Lemma round_trip_strips_witness :
  exists text,
    App.download_csv
      (Spec.form_of_records
         [(Sample.record1, " 3.0"); (Sample.record2_blank, "4.0 ")])
    = Ok text
    /\ App.parse_csv text = Ok [Sample.record1; Sample.record2].
Proof.
  apply (round_trip_strips
           [(Sample.record1, " 3.0"); (Sample.record2_blank, "4.0 ")]).
  - repeat (apply Forall_cons; [unfold Spec.exportable; repeat split|]);
      try apply Forall_nil;
      try (repeat constructor; vm_compute; intuition discriminate);
      vm_compute; first [reflexivity | discriminate].
  - vm_compute. discriminate.
Defined.

(** *** Lengths of lines and rows *)

Lemma splitlines_from_weight (n : nat) :
  forall s cur,
    (length s <= n)%nat ->
    (weight (Py.splitlines_from cur s) <= length cur + length s + 1)%nat.
Proof.
  induction n as [|n IH]; intros s cur Hlen.
  - destruct s; [|cbn in Hlen; lia].
    cbn [Py.splitlines_from]. destruct cur; cbn [Py.is_empty weight length]; lia.
  - destruct s as [|c r].
    { cbn [Py.splitlines_from].
      destruct cur; cbn [Py.is_empty weight length]; lia. }
    cbn [length] in *. cbn [Py.splitlines_from].
    destruct (Py.is_linebreak c).
    + destruct r as [|c' r']; [cbn [weight length]; lia|].
      cbn [length] in *.
      destruct ((Py.code c =? 13) && (Py.code c' =? 10))%N; cbn [weight].
      * specialize (IH r' [] ltac:(lia)). cbn [length] in IH. lia.
      * specialize (IH (c' :: r') [] ltac:(cbn [length]; lia)).
        cbn [length] in IH. lia.
    + specialize (IH r (cur ++ [c]) ltac:(lia)).
      rewrite length_app in IH. cbn [length] in IH. lia.
Qed.

Lemma splitlines_weight (s : str) :
  (weight (Py.splitlines s) <= length s + 1)%nat.
Proof. apply (splitlines_from_weight (length s) s []). lia. Qed.

Lemma sub_footer_length (s : str) (prev : option ascii) :
  (length (Re.sub_from Re.footer 0 prev s) <= length s)%nat.
Proof.
  revert s prev.
  apply (sub_footer_ind (fun s t => (length t <= length s)%nat)).
  - lia.
  - intros c r t _ H. cbn [length]. lia.
  - intros tail _. cbn [length]. lia.
  - intros tail r t _ H. rewrite !length_app. cbn [length]. lia.
Qed.

Lemma clean_line_length (line : str) :
  (length (App.clean_line line) <= length line)%nat.
Proof.
  unfold App.clean_line, Re.sub.
  pose proof (strip_length (Re.sub_from Re.footer 0 None line)).
  pose proof (sub_footer_length line None). lia.
Qed.

Lemma cleaned_weight (lines : list str) :
  (weight (filter (fun l => negb (Py.is_empty l)) (map App.clean_line lines))
   <= weight lines)%nat.
Proof.
  induction lines as [|l lines IH]; [cbn; lia|].
  cbn [map filter]. pose proof (clean_line_length l).
  destruct (negb (Py.is_empty (App.clean_line l))); cbn [weight]; lia.
Qed.

Lemma logical_rows_weight (lines : list str) :
  forall cur,
    (weight (Spec.logical_rows cur lines)
     <= weight (if Py.is_empty cur then [] else [cur]) + weight lines)%nat.
Proof.
  induction lines as [|line lines IH]; intros cur; cbn [Spec.logical_rows].
  - cbn [weight]. lia.
  - destruct (Re.row_start line).
    + rewrite weight_app. specialize (IH line).
      destruct (Py.is_empty line) eqn:E.
      * destruct line; [|discriminate]. cbn [weight length] in *. lia.
      * cbn [weight] in *. lia.
    + destruct (Py.is_empty cur) eqn:E.
      * specialize (IH cur). rewrite E in IH. cbn [weight] in *. lia.
      * specialize (IH (cur ++ " " ++ line)).
        assert (Py.is_empty (cur ++ " " ++ line) = false) as E'
            by (destruct cur; [discriminate|reflexivity]).
        rewrite E' in IH. cbn [weight] in *.
        rewrite !length_app in IH. change (length " ") with 1%nat in IH. lia.
Qed.

(** The logical rows of a document are no longer than its normalized
    text, and no more than its characters. *)
Lemma document_rows_weight (raw_text : str) :
  (weight (Spec.logical_rows [] (Spec.cleaned_lines raw_text))
   <= length (App.normalize_raw_text raw_text) + 1)%nat.
Proof.
  pose proof (logical_rows_weight (Spec.cleaned_lines raw_text) []) as H1.
  unfold Spec.cleaned_lines in *.
  pose proof (cleaned_weight
                (Py.splitlines (App.normalize_raw_text raw_text))) as H2.
  pose proof (splitlines_weight (App.normalize_raw_text raw_text)) as H3.
  cbn [Py.is_empty weight] in H1. lia.
Qed.

Lemma weight_count (rows : list str) : (length rows <= weight rows)%nat.
Proof. induction rows as [|r rows IH]; cbn [length weight]; lia. Qed.

(** *** From the document to the export and back *)

Lemma rows_exportable (rows : list str) (n : nat) :
  (weight rows <= n + 1)%nat ->
  (N.of_nat n <= Csv.field_limit)%N ->
  Forall (fun r => App.credits r <> S754_nan)
    (flat_map Spec.row_records rows) ->
  Forall (fun r => forall c, credits_cell r c -> Spec.exportable (r, c))
    (flat_map Spec.row_records rows)
  /\ exists cells,
       Forall2 credits_cell (flat_map Spec.row_records rows) cells.
Proof.
  intros Hw Hn. induction rows as [|row rows IH]; intros Hnan.
  - split; [constructor|]. exists []. constructor.
  - cbn [flat_map] in Hnan. apply Forall_app in Hnan.
    destruct Hnan as [Hrow Hrest]. cbn [weight] in Hw.
    destruct IH as (Hall & cells & Hcells); [lia|exact Hrest|].
    cbn [flat_map]. unfold Spec.row_records at 1 3.
    unfold Spec.row_records in Hrow.
    destruct (App.parse_course_line row) as [[r|]|] eqn:E; cbn [app].
    + inversion Hrow as [|? ? Hr _]; subst.
      destruct (parsed_exportable row r E) as ((c & _ & Hc) & Hany);
        [lia|exact Hr|].
      split; [now constructor|]. exists (c :: cells). now constructor.
    + split; [exact Hall|]. now exists cells.
    + split; [exact Hall|]. now exists cells.
Qed.

Lemma field_limit_short :
  Z.of_N Csv.field_limit + 1 <= 10 ^ Z.of_N Py.max_str_digits.
Proof. vm_compute. discriminate. Qed.

(** Records that are exportable with each of their credits cells,
    paired with such cells. *)
Lemma combine_exportable (records : list App.CourseRecord)
      (cells : list str) :
  Forall (fun r => forall c, credits_cell r c -> Spec.exportable (r, c))
    records ->
  Forall2 credits_cell records cells ->
  Forall Spec.exportable (combine records cells)
  /\ map fst (combine records cells) = records.
Proof.
  intros Hall H2. induction H2 as [|r c records cells Hc _ IH];
    [split; [constructor|reflexivity]|].
  inversion Hall as [|? ? Hr Hrest]; subst.
  destruct (IH Hrest) as [He Hm]. cbn [combine map fst]. split.
  - constructor; [now apply Hr|exact He].
  - now rewrite Hm.
Qed.

(** X26.  The records of a document whose normalized text is within
    the field size limit, none with credits NaN, come back from export
    and import as they are, whatever credits cells the export is
    given, so long as each is a clean cell that [float] reads as the
    credits of its record; and such cells exist for every such
    document. *)
Theorem document_round_trip (raw_text : str)
        (records : list App.CourseRecord) :
  App.parse_grade_history raw_text = Ok records ->
  (N.of_nat (length (App.normalize_raw_text raw_text)) <= Csv.field_limit)%N ->
  Forall (fun r => App.credits r <> S754_nan) records ->
  (exists cells, Forall2 credits_cell records cells)
  /\ forall cells,
       Forall2 credits_cell records cells ->
       exists text,
         App.download_csv (Spec.form_of_records (combine records cells))
         = Ok text
         /\ App.parse_csv text = Ok records.
Proof.
  rewrite parse_grade_history_rows. intros H Hlen Hnan. injection H as <-.
  pose proof (document_rows_weight raw_text) as Hw.
  destruct (rows_exportable _ _ Hw Hlen Hnan) as (Hall & Hcells).
  split; [exact Hcells|]. intros cells H2.
  destruct (combine_exportable _ cells Hall H2) as [Hexp Hmap].
  pose proof (weight_count
                (Spec.logical_rows [] (Spec.cleaned_lines raw_text))) as Hc.
  pose proof (row_records_count
                (Spec.logical_rows [] (Spec.cleaned_lines raw_text))) as Hr.
  destruct (download_parse_records _ Hexp) as (text & Hd & Hp).
  { apply (f_equal (@length App.CourseRecord)) in Hmap.
    rewrite length_map in Hmap. rewrite Hmap.
    pose proof field_limit_short. lia. }
  exists text. split; [exact Hd|]. now rewrite Hp, Hmap.
Qed.

Lemma document_round_trip_witness :
  exists text,
    App.download_csv
      (Spec.form_of_records (combine [Sample.record1] ["3.00"]))
    = Ok text
    /\ App.parse_csv text = Ok [Sample.record1].
Proof.
  destruct (document_round_trip
              "1 CSE1001 Problem Solving TH 3.0 A MAY2023 JUN2023 FULL DIST1"
              [Sample.record1]) as [_ H].
  - vm_compute. reflexivity.
  - vm_compute. discriminate.
  - repeat constructor. vm_compute. discriminate.
  - apply (H ["3.00"]).
    constructor; [|constructor].
    split; [|vm_compute; reflexivity].
    unfold Spec.clean_cell.
    split; [vm_compute; reflexivity|].
    split; [vm_compute; intuition discriminate|vm_compute; discriminate].
Defined.
